(** * mini-bmc: a shallow embedding of the BMC firmware simulator

    The development follows the firmware sources:
    - [bmc_state.h]     the shared state record and its enumerations;
    - [pid_control.c]   the PID thermal controller;
    - [event_log.c]     the System Event Log (SEL) ring;
    - [sensor.c]        the sensor table, the poll step and the status
                        classification;
    - [secure_boot.c]   the firmware chain-of-trust verifier;
    - [ipmi.c]          the IPMI command handlers and their dispatcher;
    - [main.c]          the start of the daemon and its control loop.

    Modelling conventions.
    - A C [double] is modelled twice.  In the state of the daemon it is an
      exact rational ([Q]): the arithmetic of the source without rounding,
      and without infinities or NaN; equality of doubles is [Qeq] ([==]).
      This is the model of the statements that rest on comparisons of
      values that are numbers.  The controller and the value a poll
      computes are embedded once more over IEEE 754 binary64 ([float], in
      the module [B64]), every operation rounded to nearest even as on a
      platform that evaluates [double] expressions in that format.  This
      is the model of the statements that depend on rounding or that
      range over NaN and the infinities.
    - [int], [uint8_t], [uint16_t], [uint32_t] are [Z]; the wrap-around of
      an unsigned type is written out with [mod].
    - C arrays of a fixed capacity are lists, read with [!!] and written
      with [<[i:=x]>]; an index outside the array is undefined behaviour in
      C and leaves the list unchanged here.
    - [char] buffers holding C strings are [string]; copying into a buffer
      of [n] bytes keeps the first [n-1] characters.
    - Records share one name space: the field [name] of [fw_image_t] is
      [fw_name], the fields of the two configuration tables carry the
      prefixes [cfg_] and [fwc_], and those of [ipmi_response_t] that
      [ipmi_request_t] has too carry [resp_].
    - The mutex of [bmc_state_t] is not modelled: every function below is
      one sequential call.
    - The wall clock ([time(NULL)]) is an argument [now] of the calls that
      read it.  A call that reads the clock more than once ([sensor_init]
      for each sensor, [sensor_poll] and [secure_boot_verify] again in
      each [sel_add_entry] they make) is given the one [now] for all of
      its reads.
    - Output that leaves the state as it is has no counterpart here: the
      [printf] traces, the JSON files of [sel_save] and [bmc_state_save],
      and the socket of the IPMI listener, whose requests reach the state
      through [ipmi_handle_command] only. *)

From Stdlib Require Import ZArith QArith Qround Qabs Lia Lqa String Ascii List Bool DecimalString Floats.
From stdpp Require Import base list strings gmap.

Open Scope Z_scope.

#[local] Set Warnings "-inexact-float".

(** ** Doubles *)

Abbreviation double := Q.

(** [x < y] on doubles, as a boolean. *)
Definition Qltb (x y : double) : bool := negb (Qle_bool y x).

(** [x > y] and [x >= y], written as C writes them. *)
Definition Qgtb (x y : double) : bool := Qltb y x.
Definition Qgeb (x y : double) : bool := Qle_bool y x.

(** ** [bmc_state.h]: constants, enumerations and records *)

Definition MAX_SENSORS : Z := 8.
Definition MAX_SEL_ENTRIES : Z := 256.
Definition MAX_FW_IMAGES : Z := 4.

Inductive sensor_type_t : Set :=
| SENSOR_TYPE_TEMPERATURE
| SENSOR_TYPE_VOLTAGE
| SENSOR_TYPE_FAN_RPM
| SENSOR_TYPE_POWER.

Inductive sensor_status_t : Set :=
| SENSOR_STATUS_OK
| SENSOR_STATUS_WARNING
| SENSOR_STATUS_CRITICAL
| SENSOR_STATUS_ABSENT.

Inductive sel_severity_t : Set :=
| SEL_SEVERITY_INFO
| SEL_SEVERITY_WARNING
| SEL_SEVERITY_CRITICAL.

(** The integer value of each enumerator, as the C compiler numbers them. *)
Definition sensor_type_to_Z (t : sensor_type_t) : Z :=
  match t with
  | SENSOR_TYPE_TEMPERATURE => 0
  | SENSOR_TYPE_VOLTAGE => 1
  | SENSOR_TYPE_FAN_RPM => 2
  | SENSOR_TYPE_POWER => 3
  end.

Definition sensor_status_to_Z (s : sensor_status_t) : Z :=
  match s with
  | SENSOR_STATUS_OK => 0
  | SENSOR_STATUS_WARNING => 1
  | SENSOR_STATUS_CRITICAL => 2
  | SENSOR_STATUS_ABSENT => 3
  end.

Definition sel_severity_to_Z (s : sel_severity_t) : Z :=
  match s with
  | SEL_SEVERITY_INFO => 0
  | SEL_SEVERITY_WARNING => 1
  | SEL_SEVERITY_CRITICAL => 2
  end.

#[global] Instance sensor_type_eq_dec : EqDecision sensor_type_t.
Proof. solve_decision. Defined.

#[global] Instance sensor_status_eq_dec : EqDecision sensor_status_t.
Proof. solve_decision. Defined.

#[global] Instance sel_severity_eq_dec : EqDecision sel_severity_t.
Proof. solve_decision. Defined.

Record sensor_reading_t : Type := mk_sensor_reading {
  name : string;
  type : sensor_type_t;
  value : double;
  min_valid : double;
  max_warning : double;
  max_critical : double;
  status : sensor_status_t;
  last_updated : Z
}.

Record pid_state_t : Type := mk_pid_state {
  kp : double;
  ki : double;
  kd : double;
  setpoint : double;
  integral : double;
  prev_error : double;
  output : double;
  output_min : double;
  output_max : double
}.

Record sel_entry_t : Type := mk_sel_entry {
  id : Z;
  timestamp : Z;
  severity : sel_severity_t;
  source : string;
  message : string
}.

Record fw_image_t : Type := mk_fw_image {
  fw_name : string;
  expected_hash : string;
  actual_hash : string;
  verified : bool;
  passed : bool
}.

Record bmc_state_t : Type := mk_bmc_state {
  sensors : list sensor_reading_t;
  sensor_count : Z;
  pid : pid_state_t;
  fan_duty_percent : double;
  sel : list sel_entry_t;
  sel_count : Z;
  sel_next_id : Z;
  fw_images : list fw_image_t;
  fw_image_count : Z;
  secure_boot_passed : bool;
  running : bool
}.

(** ** [pid_control.c] *)

Definition pid_init (pid : pid_state_t) (kp ki kd setpoint : double) : pid_state_t :=
  {| kp := kp; ki := ki; kd := kd; setpoint := setpoint;
     integral := 0; prev_error := 0;
     output := 30;
     output_min := 10;
     output_max := 100 |}.

(** One controller step; the result is the updated state and the returned
    duty. *)
Definition pid_compute (pid : pid_state_t) (current_temp dt : double)
  : pid_state_t * double :=
  let dt := if Qle_bool dt 0 then 1%Q else dt in
  let error := (current_temp - setpoint pid)%Q in
  let p_term := (kp pid * error)%Q in
  let integral0 := (integral pid + error * dt)%Q in
  let integral_limit := ((output_max pid - output_min pid) / ki pid)%Q in
  let integral1 :=
    if Qgtb (ki pid) 0 then
      let i1 := if Qgtb integral0 integral_limit then integral_limit else integral0 in
      if Qltb i1 (- integral_limit) then (- integral_limit)%Q else i1
    else integral0 in
  let i_term := (ki pid * integral1)%Q in
  let derivative := ((error - prev_error pid) / dt)%Q in
  let d_term := (kd pid * derivative)%Q in
  let output0 := (p_term + i_term + d_term)%Q in
  let output1 := (output0 + 40)%Q in
  let output2 := if Qltb output1 (output_min pid) then output_min pid else output1 in
  let output3 := if Qgtb output2 (output_max pid) then output_max pid else output2 in
  ({| kp := kp pid; ki := ki pid; kd := kd pid; setpoint := setpoint pid;
      integral := integral1; prev_error := error;
      output := output3;
      output_min := output_min pid; output_max := output_max pid |},
   output3).

Definition pid_reset (pid : pid_state_t) : pid_state_t :=
  {| kp := kp pid; ki := ki pid; kd := kd pid; setpoint := setpoint pid;
     integral := 0; prev_error := 0;
     output := output pid;
     output_min := output_min pid; output_max := output_max pid |}.

Definition pid_set_output_limits (pid : pid_state_t) (min max : double) : pid_state_t :=
  if Qgeb min max then pid
  else
    let out1 := if Qltb (output pid) min then min else output pid in
    let out2 := if Qgtb out1 max then max else out1 in
    {| kp := kp pid; ki := ki pid; kd := kd pid; setpoint := setpoint pid;
       integral := integral pid; prev_error := prev_error pid;
       output := out2;
       output_min := min; output_max := max |}.

(** ** Arrays, C strings and [printf] conversions *)

(** [a[i]]: reading and writing a slot of a C array. *)
Definition array_get {A : Type} (a : list A) (i : Z) : option A :=
  if i <? 0 then None else a !! Z.to_nat i.

Definition array_set {A : Type} (a : list A) (i : Z) (x : A) : list A :=
  if i <? 0 then a else <[Z.to_nat i := x]> a.

(** What a buffer of [n + 1] bytes keeps of a C string ([strncpy] followed
    by the terminator, [snprintf]). *)
Definition truncate (n : nat) (s : string) : string := substring 0 n s.

(** [%d] and [%u]. *)
Definition string_of_Z (z : Z) : string := NilZero.string_of_int (Z.to_int z).

(** Rounding to the nearest integer, ties to even, as [printf] rounds. *)
Definition round_half_even (q : double) : Z :=
  let f := Qfloor q in
  let r := (q - inject_Z f)%Q in
  if Qltb r (1 # 2) then f
  else if Qltb (1 # 2) r then f + 1
  else if Z.even f then f else f + 1.

Fixpoint zeros (n : nat) : string :=
  match n with
  | O => EmptyString
  | S n' => String "0"%char (zeros n')
  end.

Definition pad_left (n : nat) (s : string) : string :=
  (zeros (n - String.length s) ++ s)%string.

(** [%.<prec>f]. *)
Definition format_fixed (prec : nat) (v : double) : string :=
  let scale := 10 ^ Z.of_nat prec in
  let n := round_half_even (Qabs v * inject_Z scale)%Q in
  ((if Qltb v 0 then "-" else "") ++
   string_of_Z (n / scale) ++
   match prec with
   | O => ""
   | S _ => "." ++ pad_left prec (string_of_Z (n mod scale))
   end)%string.

(** ** [event_log.c] *)

Definition sel_severity_str (sev : sel_severity_t) : string :=
  match sev with
  | SEL_SEVERITY_INFO => "Info"
  | SEL_SEVERITY_WARNING => "Warning"
  | SEL_SEVERITY_CRITICAL => "Critical"
  end.

(** The three fields of the state the event log writes. *)
Definition set_sel (state : bmc_state_t) (sel' : list sel_entry_t)
    (count' next_id' : Z) : bmc_state_t :=
  {| sensors := sensors state; sensor_count := sensor_count state;
     pid := pid state; fan_duty_percent := fan_duty_percent state;
     sel := sel'; sel_count := count'; sel_next_id := next_id';
     fw_images := fw_images state; fw_image_count := fw_image_count state;
     secure_boot_passed := secure_boot_passed state;
     running := running state |}.

Definition sel_init (state : bmc_state_t) : bmc_state_t * Z :=
  (set_sel state (sel state) 0 1, 0).

(** [memmove(&sel[0], &sel[1], (MAX_SEL_ENTRIES - 1) * sizeof(sel_entry_t))]:
    slots 1 .. 255 move down by one, the last slot keeps its content. *)
Definition sel_shift_left (a : list sel_entry_t) : list sel_entry_t :=
  take (Z.to_nat (MAX_SEL_ENTRIES - 1)) (drop 1 a)
  ++ drop (Z.to_nat (MAX_SEL_ENTRIES - 1)) a.

(** [(int)x] for a [uint32_t] [x]. *)
Definition uint32_to_int (x : Z) : Z :=
  if x <? 2 ^ 31 then x else x - 2 ^ 32.

(** [sel_add_entry]; [msg] is the text [vsnprintf] renders from the format
    and its arguments.  The result is the new state and the returned id.
    [sel_save], called after a critical entry, writes a file and leaves
    the state as it is. *)
Definition sel_add_entry (state : bmc_state_t) (now : Z)
    (severity : sel_severity_t) (source msg : string) : bmc_state_t * Z :=
  let '(sel0, count0) :=
    if sel_count state >=? MAX_SEL_ENTRIES
    then (sel_shift_left (sel state), MAX_SEL_ENTRIES - 1)
    else (sel state, sel_count state) in
  let entry :=
    {| id := sel_next_id state;
       timestamp := now;
       severity := severity;
       source := truncate 31 source;
       message := truncate 255 msg |} in
  (set_sel state (array_set sel0 count0 entry) (count0 + 1)
           ((sel_next_id state + 1) mod 2 ^ 32),
   uint32_to_int (id entry)).

(** The entries the log holds: the first [sel_count] slots. *)
Definition sel_live (state : bmc_state_t) : list sel_entry_t :=
  take (Z.to_nat (sel_count state)) (sel state).

Fixpoint sel_scan (entries : list sel_entry_t) (id0 : Z) : option sel_entry_t :=
  match entries with
  | [] => None
  | e :: rest => if id e =? id0 then Some e else sel_scan rest id0
  end.

Definition sel_get_entry (state : bmc_state_t) (id0 : Z) : option sel_entry_t :=
  sel_scan (sel_live state) id0.

(** ** [sensor.c] *)

(** [gaussian_noise(mean, stddev)]: [z] is the standard normal variate the
    Box-Muller transform draws from [rand()] (or the spare one it kept); it
    is an input of the model. *)
Definition gaussian_noise (z : double) (mean stddev : double) : double :=
  (mean + stddev * z)%Q.

Record sensor_config_t : Type := mk_sensor_config {
  cfg_name : string;
  cfg_type : sensor_type_t;
  base_value : double;
  noise_stddev : double;
  cfg_min_valid : double;
  cfg_max_warning : double;
  cfg_max_critical : double
}.

Definition default_sensors : list sensor_config_t :=
  [ mk_sensor_config "CPU_Temp" SENSOR_TYPE_TEMPERATURE 55.0 1.5 10.0 75.0 90.0;
    mk_sensor_config "Inlet_Temp" SENSOR_TYPE_TEMPERATURE 28.0 0.8 5.0 38.0 45.0;
    mk_sensor_config "PCH_Temp" SENSOR_TYPE_TEMPERATURE 48.0 1.0 10.0 70.0 85.0;
    mk_sensor_config "VCore" SENSOR_TYPE_VOLTAGE 1.05 0.02 0.90 1.15 1.25;
    mk_sensor_config "V3.3_Stdby" SENSOR_TYPE_VOLTAGE 3.30 0.03 3.10 3.50 3.60;
    mk_sensor_config "V12_Main" SENSOR_TYPE_VOLTAGE 12.00 0.08 11.40 12.60 13.00;
    mk_sensor_config "CPU_Fan" SENSOR_TYPE_FAN_RPM 3000.0 50.0 500.0 6000.0 7000.0;
    mk_sensor_config "SYS_Fan" SENSOR_TYPE_FAN_RPM 2500.0 40.0 400.0 5000.0 6000.0 ]%Q.

Definition NUM_DEFAULT_SENSORS : Z := Z.of_nat (length default_sensors).

Definition sensor_status_str (status : sensor_status_t) : string :=
  match status with
  | SENSOR_STATUS_OK => "OK"
  | SENSOR_STATUS_WARNING => "Warning"
  | SENSOR_STATUS_CRITICAL => "Critical"
  | SENSOR_STATUS_ABSENT => "Absent"
  end.

Definition sensor_type_str (type : sensor_type_t) : string :=
  match type with
  | SENSOR_TYPE_TEMPERATURE => "Temperature"
  | SENSOR_TYPE_VOLTAGE => "Voltage"
  | SENSOR_TYPE_FAN_RPM => "Fan"
  | SENSOR_TYPE_POWER => "Power"
  end.

Definition evaluate_status (s : sensor_reading_t) : sensor_status_t :=
  match type s with
  | SENSOR_TYPE_FAN_RPM =>
      if Qltb (value s) (min_valid s) then SENSOR_STATUS_CRITICAL
      else if Qgtb (value s) (max_critical s) then SENSOR_STATUS_CRITICAL
      else if Qgtb (value s) (max_warning s) then SENSOR_STATUS_WARNING
      else SENSOR_STATUS_OK
  | _ =>
      if Qgeb (value s) (max_critical s) then SENSOR_STATUS_CRITICAL
      else if Qgeb (value s) (max_warning s) then SENSOR_STATUS_WARNING
      else if Qltb (value s) (min_valid s) then SENSOR_STATUS_WARNING
      else SENSOR_STATUS_OK
  end.

Definition set_sensors (state : bmc_state_t) (sensors' : list sensor_reading_t)
    (count' : Z) : bmc_state_t :=
  {| sensors := sensors'; sensor_count := count';
     pid := pid state; fan_duty_percent := fan_duty_percent state;
     sel := sel state; sel_count := sel_count state;
     sel_next_id := sel_next_id state;
     fw_images := fw_images state; fw_image_count := fw_image_count state;
     secure_boot_passed := secure_boot_passed state;
     running := running state |}.

(** The body of the loop of [sensor_init] at index [i]. *)
Definition sensor_init_step (now : Z) (state : bmc_state_t) (i : Z) : bmc_state_t :=
  match array_get default_sensors i with
  | Some cfg =>
      let s :=
        {| name := truncate 63 (cfg_name cfg);
           type := cfg_type cfg;
           value := base_value cfg;
           min_valid := cfg_min_valid cfg;
           max_warning := cfg_max_warning cfg;
           max_critical := cfg_max_critical cfg;
           status := SENSOR_STATUS_OK;
           last_updated := now |} in
      set_sensors state (array_set (sensors state) i s) (sensor_count state)
  | None => state
  end.

Definition sensor_init (state : bmc_state_t) (now : Z) : bmc_state_t * Z :=
  let count :=
    if NUM_DEFAULT_SENSORS >? MAX_SENSORS then MAX_SENSORS
    else NUM_DEFAULT_SENSORS in
  let state0 := set_sensors state (sensors state) count in
  (foldl (sensor_init_step now) state0 (seqZ 0 count), 0).

(** The new value of a sensor in one poll, by sensor type. *)
Definition sensor_next_value (s : sensor_reading_t) (cfg : sensor_config_t)
    (fan_duty z : double) : double :=
  match type s with
  | SENSOR_TYPE_TEMPERATURE =>
      let heat_load := 15.0%Q in
      let cool_capacity := 25.0%Q in
      let cooling := ((fan_duty / 100.0) * cool_capacity)%Q in
      let target := (base_value cfg + heat_load - cooling)%Q in
      let v1 := (value s + (target - value s) * 0.1)%Q in
      let v2 := (v1 + gaussian_noise z 0 (noise_stddev cfg))%Q in
      let v3 := if Qltb v2 5.0 then 5.0%Q else v2 in
      if Qgtb v3 105.0 then 105.0%Q else v3
  | SENSOR_TYPE_VOLTAGE =>
      let v := (base_value cfg + gaussian_noise z 0 (noise_stddev cfg))%Q in
      if Qltb v 0 then 0%Q else v
  | SENSOR_TYPE_FAN_RPM =>
      let max_rpm := (base_value cfg * 2.0)%Q in
      let v := ((fan_duty / 100.0) * max_rpm
                + gaussian_noise z 0 (noise_stddev cfg))%Q in
      if Qltb v 0 then 0%Q else v
  | SENSOR_TYPE_POWER => value s
  end.

(** What one iteration of the loop of [sensor_poll] stores in the reading
    [s]: the new value, the time of the poll, and then the status
    [evaluate_status] gives the updated reading. *)
Definition sensor_poll_reading (s : sensor_reading_t) (cfg : sensor_config_t)
    (fan_duty z : double) (now : Z) : sensor_reading_t :=
  let s1 :=
    {| name := name s; type := type s;
       value := sensor_next_value s cfg fan_duty z;
       min_valid := min_valid s; max_warning := max_warning s;
       max_critical := max_critical s;
       status := status s;
       last_updated := now |} in
  {| name := name s1; type := type s1; value := value s1;
     min_valid := min_valid s1; max_warning := max_warning s1;
     max_critical := max_critical s1;
     status := evaluate_status s1;
     last_updated := last_updated s1 |}.

(** The body of the loop of [sensor_poll] at index [i]; [draws i] is the
    normal variate drawn for sensor [i]. *)
Definition sensor_poll_step (fan_duty : double) (now : Z) (draws : Z -> double)
    (state : bmc_state_t) (i : Z) : bmc_state_t :=
  match array_get (sensors state) i, array_get default_sensors i with
  | Some s, Some cfg =>
      let old_status := status s in
      let s2 := sensor_poll_reading s cfg fan_duty (draws i) now in
      let state1 :=
        set_sensors state (array_set (sensors state) i s2) (sensor_count state) in
      if bool_decide (status s2 <> old_status)
         && bool_decide (status s2 <> SENSOR_STATUS_OK)
      then
        let sev :=
          if bool_decide (status s2 = SENSOR_STATUS_CRITICAL)
          then SEL_SEVERITY_CRITICAL else SEL_SEVERITY_WARNING in
        fst (sel_add_entry state1 now sev "Sensor"
               (name s2 ++ " transitioned to " ++ sensor_status_str (status s2)
                ++ " (value: " ++ format_fixed 2 (value s2) ++ ")")%string)
      else state1
  | _, _ => state
  end.

Definition sensor_poll (state : bmc_state_t) (fan_duty : double) (now : Z)
    (draws : Z -> double) : bmc_state_t :=
  foldl (sensor_poll_step fan_duty now draws) state
        (seqZ 0 (sensor_count state)).

(** ** [bmc_state.c]: the initial state *)

Definition zero_sensor : sensor_reading_t :=
  {| name := ""; type := SENSOR_TYPE_TEMPERATURE; value := 0;
     min_valid := 0; max_warning := 0; max_critical := 0;
     status := SENSOR_STATUS_OK; last_updated := 0 |}.

Definition zero_pid : pid_state_t :=
  {| kp := 0; ki := 0; kd := 0; setpoint := 0; integral := 0;
     prev_error := 0; output := 0; output_min := 0; output_max := 0 |}.

Definition zero_sel_entry : sel_entry_t :=
  {| id := 0; timestamp := 0; severity := SEL_SEVERITY_INFO;
     source := ""; message := "" |}.

Definition zero_fw_image : fw_image_t :=
  {| fw_name := ""; expected_hash := ""; actual_hash := "";
     verified := false; passed := false |}.

(** [bmc_state_init]: the state after [memset(state, 0, ...)] and the three
    assignments that follow it. *)
Definition bmc_state_init : bmc_state_t :=
  {| sensors := replicate (Z.to_nat MAX_SENSORS) zero_sensor;
     sensor_count := 0;
     pid := zero_pid;
     fan_duty_percent := 30.0;
     sel := replicate (Z.to_nat MAX_SEL_ENTRIES) zero_sel_entry;
     sel_count := 0;
     sel_next_id := 1;
     fw_images := replicate (Z.to_nat MAX_FW_IMAGES) zero_fw_image;
     fw_image_count := 0;
     secure_boot_passed := false;
     running := true |}.

(** ** [secure_boot.c] *)

Definition FW_IMAGE_DIR : string := "/tmp/bmc_fw_images".
Definition FW_IMAGE_SIZE : nat := 4096.
Definition SHA256_DIGEST_LENGTH : nat := 32.

Record fw_config_t : Type := mk_fw_config {
  fwc_name : string;
  fwc_description : string
}.

Definition fw_configs : list fw_config_t :=
  [ mk_fw_config "bootloader" "First-stage bootloader (RoT verified)";
    mk_fw_config "bmc_firmware" "BMC main firmware image";
    mk_fw_config "application" "Management application layer";
    mk_fw_config "config_data" "Platform configuration data" ].

Definition NUM_FW_IMAGES : Z := Z.of_nat (length fw_configs).

(** [snprintf(path, sizeof(path), "%s/%s.bin", FW_IMAGE_DIR, name)]. *)
Definition fw_path (image_name : string) : string :=
  truncate 255 (FW_IMAGE_DIR ++ "/" ++ image_name ++ ".bin")%string.

Definition hex_digit (n : Z) : ascii :=
  (if n <? 10 then ascii_of_N (Z.to_N (48 + n))
   else ascii_of_N (Z.to_N (87 + n))).

(** [sprintf(out, "%02x", b)] for a byte [b]. *)
Definition hex2 (b : Z) : string :=
  String (hex_digit (b / 16 mod 16)) (String (hex_digit (b mod 16)) EmptyString).

Definition set_fw_images (state : bmc_state_t) (images' : list fw_image_t)
    (count' : Z) : bmc_state_t :=
  {| sensors := sensors state; sensor_count := sensor_count state;
     pid := pid state; fan_duty_percent := fan_duty_percent state;
     sel := sel state; sel_count := sel_count state;
     sel_next_id := sel_next_id state;
     fw_images := images'; fw_image_count := count';
     secure_boot_passed := secure_boot_passed state;
     running := running state |}.

Definition set_secure_boot_passed (state : bmc_state_t) (b : bool) : bmc_state_t :=
  {| sensors := sensors state; sensor_count := sensor_count state;
     pid := pid state; fan_duty_percent := fan_duty_percent state;
     sel := sel state; sel_count := sel_count state;
     sel_next_id := sel_next_id state;
     fw_images := fw_images state; fw_image_count := fw_image_count state;
     secure_boot_passed := b;
     running := running state |}.

(** The firmware directory: the content of each file, by path.  Opening a
    file for reading fails exactly when the path is absent; creating a file
    succeeds. *)
Abbreviation filesystem := (gmap string (list Z)).

(** What the verifier stores in an image, by case. *)
Definition fw_unreadable (fw : fw_image_t) : fw_image_t :=
  {| fw_name := fw_name fw; expected_hash := expected_hash fw;
     actual_hash := actual_hash fw; verified := true; passed := false |}.

Definition fw_checked (fw : fw_image_t) (h : string) : fw_image_t :=
  {| fw_name := fw_name fw; expected_hash := expected_hash fw;
     actual_hash := h; verified := true;
     passed := String.eqb (expected_hash fw) h |}.

(** The images of indices [a .. a + n - 1] are unverified and their blobs
    can be read. *)
Definition chain_ready (fs : filesystem) (state : bmc_state_t) (a : Z) (n : nat)
  : Prop :=
  forall j fw,
    a <= j < a + Z.of_nat n ->
    array_get (fw_images state) j = Some fw ->
    verified fw = false /\ is_Some (fs !! fw_path (fw_name fw)).

Section SecureBoot.

(** The two library routines the verifier rests on.  [SHA256 content] is the
    digest OpenSSL computes over a file's bytes; [rand_stream seed i] is the
    value of the [i]-th call of [rand()] after [srand(seed)]. *)
Variable SHA256 : list Z -> list Z.
Variable rand_stream : Z -> nat -> Z.

(** The loop of [compute_file_hash] that prints the digest: two lower-case
    hexadecimal digits for each of its [SHA256_DIGEST_LENGTH] bytes. *)
Definition hex_digest (digest : list Z) : string :=
  foldr (fun i out => (hex2 (nth i digest 0) ++ out)%string) EmptyString
        (seq 0 SHA256_DIGEST_LENGTH).

(** [compute_file_hash]: [None] is the return value -1 (the output buffer
    is then left alone), [Some h] is 0 with [h] written to the buffer. *)
Definition compute_file_hash (fs : filesystem) (filepath : string) : option string :=
  match fs !! filepath with
  | None => None
  | Some content => Some (hex_digest (SHA256 content))
  end.

(** The buffer [generate_fw_image] fills after [srand(seed)]. *)
Definition fw_blob (seed : Z) : list Z :=
  map (fun i => rand_stream seed i mod 256) (seq 0 FW_IMAGE_SIZE).

Definition generate_fw_image (fs : filesystem) (filepath : string) (seed : Z)
  : filesystem * Z :=
  (<[filepath := fw_blob seed]> fs, 0).

(** The body of the loop of [secure_boot_init] at index [i]. *)
Definition secure_boot_init_step (acc : filesystem * bmc_state_t) (i : Z)
  : filesystem * bmc_state_t :=
  let '(fs, state) := acc in
  match array_get (fw_images state) i, array_get fw_configs i with
  | Some fw, Some cfg =>
      let name' := truncate 63 (fwc_name cfg) in
      let path := fw_path name' in
      let fs1 := fst (generate_fw_image fs path (42 + i)) in
      let expected' :=
        match compute_file_hash fs1 path with
        | Some h => h
        | None => expected_hash fw
        end in
      let fw1 :=
        {| fw_name := name'; expected_hash := expected';
           actual_hash := actual_hash fw;
           verified := false; passed := false |} in
      (fs1, set_fw_images state (array_set (fw_images state) i fw1)
                          (fw_image_count state))
  | _, _ => acc
  end.

Definition secure_boot_init (fs : filesystem) (state : bmc_state_t) (now : Z)
  : filesystem * bmc_state_t * Z :=
  let count :=
    if NUM_FW_IMAGES >? MAX_FW_IMAGES then MAX_FW_IMAGES else NUM_FW_IMAGES in
  let state0 := set_fw_images state (fw_images state) count in
  let '(fs1, state1) := foldl secure_boot_init_step (fs, state0) (seqZ 0 count) in
  let state2 :=
    fst (sel_add_entry state1 now SEL_SEVERITY_INFO "SecureBoot"
           ("Secure boot chain initialized with "
            ++ string_of_Z (fw_image_count state1) ++ " images")%string) in
  (fs1, state2, 0).

(** The loop of [secure_boot_verify] over the indices [idx] still to visit,
    with the running value of [all_passed].  The recursive calls are the
    next iteration (the end of the body, or [continue]); returning without
    one is [break]. *)
Fixpoint secure_boot_verify_loop (fs : filesystem) (now : Z) (idx : list Z)
    (state : bmc_state_t) (all_passed : bool) : bmc_state_t * bool :=
  match idx with
  | [] => (state, all_passed)
  | i :: rest =>
      match array_get (fw_images state) i with
      | None => (state, all_passed)
      | Some fw =>
          match compute_file_hash fs (fw_path (fw_name fw)) with
          | None =>
              let fw1 :=
                {| fw_name := fw_name fw; expected_hash := expected_hash fw;
                   actual_hash := actual_hash fw;
                   verified := true; passed := false |} in
              let state1 :=
                set_fw_images state (array_set (fw_images state) i fw1)
                              (fw_image_count state) in
              let state2 :=
                fst (sel_add_entry state1 now SEL_SEVERITY_CRITICAL "SecureBoot"
                       ("FAIL: Cannot read image '" ++ fw_name fw ++ "'")%string) in
              secure_boot_verify_loop fs now rest state2 false
          | Some h =>
              let fw1 :=
                {| fw_name := fw_name fw; expected_hash := expected_hash fw;
                   actual_hash := h;
                   verified := true;
                   passed := String.eqb (expected_hash fw) h |} in
              let state1 :=
                set_fw_images state (array_set (fw_images state) i fw1)
                              (fw_image_count state) in
              if passed fw1 then
                let state2 :=
                  fst (sel_add_entry state1 now SEL_SEVERITY_INFO "SecureBoot"
                         ("PASS: Image '" ++ fw_name fw
                          ++ "' integrity verified")%string) in
                secure_boot_verify_loop fs now rest state2 all_passed
              else
                let state2 :=
                  fst (sel_add_entry state1 now SEL_SEVERITY_CRITICAL "SecureBoot"
                         ("FAIL: Image '" ++ fw_name fw
                          ++ "' hash mismatch - possible tampering!")%string) in
                (state2, false)
          end
      end
  end.

Definition secure_boot_verify (fs : filesystem) (state : bmc_state_t) (now : Z)
  : bmc_state_t * bool :=
  let '(state1, all_passed) :=
    secure_boot_verify_loop fs now (seqZ 0 (fw_image_count state)) state true in
  (set_secure_boot_passed state1 all_passed, all_passed).

(** [secure_boot_inject_tamper]: the first byte of the image file becomes
    0xFF. *)
Definition secure_boot_inject_tamper (fs : filesystem) (state : bmc_state_t)
    (image_index : Z) (now : Z) : filesystem * bmc_state_t * Z :=
  if (image_index <? 0) || (image_index >=? fw_image_count state)
  then (fs, state, -1)
  else
    match array_get (fw_images state) image_index with
    | None => (fs, state, -1)
    | Some fw =>
        let path := fw_path (fw_name fw) in
        match fs !! path with
        | None => (fs, state, -1)
        | Some content =>
            let fs1 := <[path := 255 :: drop 1 content]> fs in
            let state1 :=
              fst (sel_add_entry state now SEL_SEVERITY_WARNING "SecureBoot"
                     ("[DEMO] Injected tamper into '" ++ fw_name fw ++ "'")%string) in
            (fs1, state1, 0)
        end
    end.

Definition secure_boot_restore (fs : filesystem) (state : bmc_state_t)
    (image_index : Z) (now : Z) : filesystem * bmc_state_t * Z :=
  if (image_index <? 0) || (image_index >=? fw_image_count state)
  then (fs, state, -1)
  else
    match array_get (fw_images state) image_index with
    | None => (fs, state, -1)
    | Some fw =>
        let fs1 := fst (generate_fw_image fs (fw_path (fw_name fw))
                                          (42 + image_index)) in
        let state1 :=
          fst (sel_add_entry state now SEL_SEVERITY_INFO "SecureBoot"
                 ("[DEMO] Restored image '" ++ fw_name fw ++ "'")%string) in
        (fs1, state1, 0)
    end.

(** The image record [secure_boot_init] leaves at an index: the name of
    the configuration, the hash of the generated blob, nothing verified. *)
Definition init_image (image_name : string) (seed : Z) (old : fw_image_t)
  : fw_image_t :=
  {| fw_name := image_name;
     expected_hash := hex_digest (SHA256 (fw_blob seed));
     actual_hash := actual_hash old;
     verified := false; passed := false |}.

(** The files of the firmware directory after [secure_boot_init]. *)
Definition init_fs (fs0 : filesystem) : filesystem :=
  <[fw_path "config_data" := fw_blob 45]>
    (<[fw_path "application" := fw_blob 44]>
       (<[fw_path "bmc_firmware" := fw_blob 43]>
          (<[fw_path "bootloader" := fw_blob 42]> fs0))).

End SecureBoot.

(** ** [ipmi.c] *)

Definition IPMI_NETFN_SENSOR : Z := 0x04.
Definition IPMI_NETFN_APP : Z := 0x06.
Definition IPMI_NETFN_STORAGE : Z := 0x0A.

Definition IPMI_CMD_GET_DEVICE_ID : Z := 0x01.
Definition IPMI_CMD_GET_SENSOR_READING : Z := 0x2D.
Definition IPMI_CMD_SET_FAN_DUTY : Z := 0x30.
Definition IPMI_CMD_GET_SEL_ENTRY : Z := 0x43.

Definition IPMI_CC_OK : Z := 0x00.
Definition IPMI_CC_INVALID_CMD : Z := 0xC1.
Definition IPMI_CC_INVALID_PARAM : Z := 0xC9.
Definition IPMI_CC_UNSPECIFIED : Z := 0xFF.

(** A request as the listener reads it into a zeroed record: [data] lists
    the bytes of the 256-byte buffer, the bytes past the end of the list
    being zero. *)
Record ipmi_request_t : Type := mk_ipmi_request {
  netfn : Z;
  cmd : Z;
  data : list Z;
  data_len : Z
}.

Record ipmi_response_t : Type := mk_ipmi_response {
  completion_code : Z;
  resp_data : list Z;
  resp_data_len : Z
}.

(** [req->data[i]]. *)
Definition req_byte (req : ipmi_request_t) (i : nat) : Z :=
  default 0 (data req !! i).

Definition set_cc (resp : ipmi_response_t) (cc : Z) : ipmi_response_t :=
  {| completion_code := cc; resp_data := resp_data resp;
     resp_data_len := resp_data_len resp |}.

Definition set_fan_duty_percent (state : bmc_state_t) (duty : double) : bmc_state_t :=
  {| sensors := sensors state; sensor_count := sensor_count state;
     pid := pid state; fan_duty_percent := duty;
     sel := sel state; sel_count := sel_count state;
     sel_next_id := sel_next_id state;
     fw_images := fw_images state; fw_image_count := fw_image_count state;
     secure_boot_passed := secure_boot_passed state;
     running := running state |}.

(** The integral part of a double: the fraction is discarded (rounding
    toward zero). *)
Definition Qtrunc (x : double) : Z := Z.quot (Qnum x) (Zpos (Qden x)).

(** [(int16_t)x] for a double [x]: the integral part of [x]; the conversion
    is undefined ([None]) when that is not an [int16_t]. *)
Definition double_to_int16 (x : double) : option Z :=
  let t := Qtrunc x in
  if (-32768 <=? t) && (t <=? 32767) then Some t else None.

(** [(uint8_t)z]. *)
Definition to_uint8 (z : Z) : Z := z mod 256.

(** [memcpy(&a[off], bytes, length bytes)]. *)
Fixpoint memcpy_at (a : list Z) (off : nat) (bytes : list Z) : list Z :=
  match bytes with
  | [] => a
  | b :: rest => memcpy_at (<[off := b]> a) (S off) rest
  end.

Definition string_bytes (s : string) : list Z :=
  map (fun c => Z.of_N (N_of_ascii c)) (list_ascii_of_string s).

Definition handle_get_device_id (state : bmc_state_t) (resp : ipmi_response_t)
  : ipmi_response_t :=
  {| completion_code := IPMI_CC_OK;
     resp_data :=
       <[4%nat := 0x02]> (<[3%nat := 0x05]> (<[2%nat := 0x02]>
         (<[1%nat := 0x01]> (<[0%nat := 0x20]> (resp_data resp)))));
     resp_data_len := 5 |}.

(** [handle_get_sensor_reading]; [None] when the conversion of the reading
    to [int16_t] is undefined.  The shift of the (possibly negative)
    [int16_t] is the arithmetic one. *)
Definition handle_get_sensor_reading (state : bmc_state_t)
    (req : ipmi_request_t) (resp : ipmi_response_t) : option ipmi_response_t :=
  if data_len req <? 1 then Some (set_cc resp IPMI_CC_INVALID_PARAM)
  else
    let sensor_num := req_byte req 0 in
    if sensor_num >=? sensor_count state
    then Some (set_cc resp IPMI_CC_INVALID_PARAM)
    else
      match array_get (sensors state) sensor_num with
      | None => None
      | Some s =>
          match double_to_int16 (value s * 256.0)%Q with
          | None => None
          | Some raw =>
              Some {| completion_code := IPMI_CC_OK;
                      resp_data :=
                        <[3%nat := to_uint8 (sensor_type_to_Z (type s))]>
                          (<[2%nat := to_uint8 (sensor_status_to_Z (status s))]>
                             (<[1%nat := to_uint8 (Z.land raw 0xFF)]>
                                (<[0%nat := to_uint8 (Z.shiftr raw 8)]>
                                   (resp_data resp))));
                      resp_data_len := 4 |}
          end
      end.

Definition handle_set_fan_duty (state : bmc_state_t) (req : ipmi_request_t)
    (resp : ipmi_response_t) (now : Z) : bmc_state_t * ipmi_response_t :=
  if data_len req <? 1 then (state, set_cc resp IPMI_CC_INVALID_PARAM)
  else
    let duty := inject_Z (req_byte req 0) in
    if Qltb duty 0 || Qgtb duty 100
    then (state, set_cc resp IPMI_CC_INVALID_PARAM)
    else
      let state1 := set_fan_duty_percent state duty in
      let state2 :=
        fst (sel_add_entry state1 now SEL_SEVERITY_INFO "IPMI"
               ("Fan duty manually set to " ++ format_fixed 0 duty ++ "%")%string) in
      (state2,
       {| completion_code := IPMI_CC_OK; resp_data := resp_data resp;
          resp_data_len := 0 |}).

Definition handle_get_sel_entry (state : bmc_state_t) (req : ipmi_request_t)
    (resp : ipmi_response_t) : ipmi_response_t :=
  if data_len req <? 2 then set_cc resp IPMI_CC_INVALID_PARAM
  else
    let entry_id :=
      (Z.lor (Z.shiftl (req_byte req 0) 8) (req_byte req 1)) mod 2 ^ 16 in
    match sel_get_entry state entry_id with
    | None => set_cc resp IPMI_CC_INVALID_PARAM
    | Some entry =>
        let msg := string_bytes (message entry) in
        let msg_len := Z.of_nat (length msg) in
        let msg_len := if msg_len >? 200 then 200 else msg_len in
        {| completion_code := IPMI_CC_OK;
           resp_data :=
             memcpy_at
               (<[2%nat := to_uint8 (sel_severity_to_Z (severity entry))]>
                  (<[1%nat := to_uint8 (Z.land (id entry) 0xFF)]>
                     (<[0%nat := to_uint8 (Z.shiftr (id entry) 8)]>
                        (resp_data resp))))
               3 (take (Z.to_nat msg_len) msg);
           resp_data_len := to_uint8 (3 + msg_len) |}
    end.

(** [memset(resp, 0, sizeof(ipmi_response_t))]. *)
Definition zero_response : ipmi_response_t :=
  {| completion_code := 0; resp_data := replicate 256 0; resp_data_len := 0 |}.

(** [ipmi_handle_command]: the state after the command and the response
    written; [None] when a handler runs into undefined behaviour. *)
Definition ipmi_handle_command (state : bmc_state_t) (req : ipmi_request_t)
    (now : Z) : option (bmc_state_t * ipmi_response_t) :=
  let resp := zero_response in
  if netfn req =? IPMI_NETFN_APP then
    if cmd req =? IPMI_CMD_GET_DEVICE_ID
    then Some (state, handle_get_device_id state resp)
    else Some (state, set_cc resp IPMI_CC_INVALID_CMD)
  else if netfn req =? IPMI_NETFN_SENSOR then
    if cmd req =? IPMI_CMD_GET_SENSOR_READING
    then option_map (fun r => (state, r)) (handle_get_sensor_reading state req resp)
    else if cmd req =? IPMI_CMD_SET_FAN_DUTY
    then Some (handle_set_fan_duty state req resp now)
    else Some (state, set_cc resp IPMI_CC_INVALID_CMD)
  else if netfn req =? IPMI_NETFN_STORAGE then
    if cmd req =? IPMI_CMD_GET_SEL_ENTRY
    then Some (state, handle_get_sel_entry state req resp)
    else Some (state, set_cc resp IPMI_CC_INVALID_CMD)
  else Some (state, set_cc resp IPMI_CC_INVALID_CMD).

(** A sequence of polls, each with its fan duty, its time and its draws. *)
Definition run_polls (state : bmc_state_t)
    (polls : list (double * Z * (Z -> double))) : bmc_state_t :=
  foldl (fun st '(fan_duty, now, draws) => sensor_poll st fan_duty now draws)
        state polls.

(** ** The status classification of the specification

    A fan is Critical iff [value < min_valid] or [value > max_critical],
    else Warning iff [value > max_warning], else Ok; any other sensor is
    Critical iff [value >= max_critical], else Warning iff
    [value >= max_warning] or [value < min_valid], else Ok.  "Else" reads
    as: none of the earlier conditions holds. *)
Definition status_classification (s : sensor_reading_t) : Prop :=
  match type s with
  | SENSOR_TYPE_FAN_RPM =>
      let critical := (value s < min_valid s \/ max_critical s < value s)%Q in
      let warning := (max_warning s < value s)%Q in
      (status s = SENSOR_STATUS_CRITICAL <-> critical) /\
      (status s = SENSOR_STATUS_WARNING <-> ~ critical /\ warning) /\
      (status s = SENSOR_STATUS_OK <-> ~ critical /\ ~ warning)
  | _ =>
      let critical := (max_critical s <= value s)%Q in
      let warning := (max_warning s <= value s \/ value s < min_valid s)%Q in
      (status s = SENSOR_STATUS_CRITICAL <-> critical) /\
      (status s = SENSOR_STATUS_WARNING <-> ~ critical /\ warning) /\
      (status s = SENSOR_STATUS_OK <-> ~ critical /\ ~ warning)
  end.

(** ** Sequences of appends to the event log *)

(** The arguments of one call of [sel_add_entry]: the time of the call, the
    severity, the source and the rendered message. *)
Definition sel_args : Type := Z * sel_severity_t * string * string.

Definition sel_append (state : bmc_state_t) (a : sel_args) : bmc_state_t :=
  let '(now, sev, src, msg) := a in fst (sel_add_entry state now sev src msg).

Definition sel_append_all (state : bmc_state_t) (args : list sel_args)
  : bmc_state_t :=
  foldl sel_append state args.

(** The entry a call with arguments [a] writes when the next id is [id0]. *)
Definition sel_entry_of (id0 : Z) (a : sel_args) : sel_entry_t :=
  let '(now, sev, src, msg) := a in
  {| id := id0; timestamp := now; severity := sev;
     source := truncate 31 src; message := truncate 255 msg |}.

(** The entries of consecutive calls, numbered from [id0]. *)
Fixpoint sel_entries_from (id0 : Z) (args : list sel_args) : list sel_entry_t :=
  match args with
  | [] => []
  | a :: rest => sel_entry_of id0 a :: sel_entries_from (id0 + 1) rest
  end.

(** ** Fixed-point encodings of a sensor reading *)

(** The two bytes of a signed 16-bit integer, most significant first
    (two's complement). *)
Definition int16_be (z : Z) : list Z :=
  [(z mod 2 ^ 16) / 2 ^ 8; (z mod 2 ^ 16) mod 2 ^ 8].

(** [round(x)]: the nearest integer, halves away from zero. *)
Definition Qround_nearest (x : double) : Z :=
  if Qle_bool 0 x then Qfloor (x + (1 # 2))%Q else Qceiling (x - (1 # 2))%Q.

(** The encoding the specification gives: [int16 = round(value * 256)],
    big-endian. *)
Definition spec_sensor_encoding (v : double) : list Z :=
  int16_be (Qround_nearest (v * 256)%Q).

(** The encoding the handler computes: the integral part of [value * 256],
    big-endian. *)
Definition sensor_encoding (v : double) : list Z :=
  int16_be (Qtrunc (v * 256.0)%Q).

(** ** Vocabulary of the statements *)

(** The shape of the state the log is in: the array has its
    [MAX_SEL_ENTRIES] slots and the count lies within it. *)
Definition sel_wf (state : bmc_state_t) : Prop :=
  length (sel state) = Z.to_nat MAX_SEL_ENTRIES /\
  0 <= sel_count state <= MAX_SEL_ENTRIES.

(** The ids of a list of entries grow strictly from each entry to every
    later one. *)
Definition ids_increasing (entries : list sel_entry_t) : Prop :=
  forall (i j : nat) (a b : sel_entry_t),
    (i < j)%nat -> entries !! i = Some a -> entries !! j = Some b ->
    id a < id b.

(** The thresholds of a reading are in order. *)
Definition thresholds_ordered (s : sensor_reading_t) : Prop :=
  (min_valid s <= max_warning s)%Q /\ (max_warning s <= max_critical s)%Q.

(** A digest and a generator to run the verifier on, in the place of
    OpenSSL's SHA-256 and the C library's [rand]: the digest is the first
    32 bytes of the content (so it tells an image from the same image with
    another first byte), the generator counts up from the seed. *)
Definition example_digest (content : list Z) : list Z := take 32 content.

Definition example_rand (seed : Z) (i : nat) : Z := seed + Z.of_nat i.

(** ** [main.c] *)

Definition set_pid (state : bmc_state_t) (pid' : pid_state_t) : bmc_state_t :=
  {| sensors := sensors state; sensor_count := sensor_count state;
     pid := pid'; fan_duty_percent := fan_duty_percent state;
     sel := sel state; sel_count := sel_count state;
     sel_next_id := sel_next_id state;
     fw_images := fw_images state; fw_image_count := fw_image_count state;
     secure_boot_passed := secure_boot_passed state;
     running := running state |}.

(** The loop of [find_cpu_temp_sensor] over the indices [idx] still to
    visit; running out of them is the fallback to the first sensor.  [None]
    is a read outside the array. *)
Fixpoint find_cpu_temp_loop (sensors : list sensor_reading_t) (idx : list Z)
  : option Z :=
  match idx with
  | [] => Some 0
  | i :: rest =>
      match array_get sensors i with
      | None => None
      | Some s =>
          if String.eqb (name s) "CPU_Temp" then Some i
          else find_cpu_temp_loop sensors rest
      end
  end.

Definition find_cpu_temp_sensor (state : bmc_state_t) : option Z :=
  find_cpu_temp_loop (sensors state) (seqZ 0 (sensor_count state)).

(** The interval between two polls, in seconds. *)
Definition poll_interval : double := 2.0.

(** One turn of the control loop of [main]: the sensors are polled at the
    current fan duty, the controller computes a duty from the reading of
    sensor [cpu_idx], and that duty becomes the fan duty.  [None] is a read
    outside the sensor array. *)
Definition main_loop_body (state : bmc_state_t) (cpu_idx : Z) (now : Z)
    (draws : Z -> double) : option bmc_state_t :=
  let state1 := sensor_poll state (fan_duty_percent state) now draws in
  match array_get (sensors state1) cpu_idx with
  | None => None
  | Some s =>
      let cpu_temp := value s in
      let '(pid', new_duty) := pid_compute (pid state1) cpu_temp poll_interval in
      Some (set_fan_duty_percent (set_pid state1 pid') new_duty)
  end.

Section Main.

Variable SHA256 : list Z -> list Z.
Variable rand_stream : Z -> nat -> Z.

(** [main] up to the control loop: the subsystems are initialised, the
    firmware is verified, and the index of the CPU temperature sensor is
    looked up.  [clock k] is the time at the [k]-th of the calls that read
    the clock.  The result is the firmware directory, the state and the
    index.  The listener [main] starts on the way handles no command before
    the control loop is entered. *)
Definition main_startup (fs : filesystem) (clock : nat -> Z)
  : filesystem * bmc_state_t * option Z :=
  let s0 := bmc_state_init in
  let s1 := fst (sel_init s0) in
  let s2 := fst (sel_add_entry s1 (clock 0%nat) SEL_SEVERITY_INFO "System"
                   "BMC daemon starting up") in
  let s3 := fst (sensor_init s2 (clock 1%nat)) in
  let s4 := set_pid s3 (pid_init (pid s3) 3.0 0.1 1.5 65.0) in
  let s5 := set_pid s4 (pid_set_output_limits (pid s4) 10.0 100.0) in
  let '(fs1, s6, _) := secure_boot_init SHA256 rand_stream fs s5 (clock 2%nat) in
  let '(s7, boot_ok) := secure_boot_verify SHA256 fs1 s6 (clock 3%nat) in
  let s8 :=
    if boot_ok
    then fst (sel_add_entry s7 (clock 4%nat) SEL_SEVERITY_INFO "System"
                "Secure boot verification passed")
    else fst (sel_add_entry s7 (clock 4%nat) SEL_SEVERITY_CRITICAL "System"
                "Secure boot verification FAILED - continuing in degraded mode") in
  let s9 := fst (sel_add_entry s8 (clock 5%nat) SEL_SEVERITY_INFO "System"
                   "BMC daemon fully operational") in
  (fs1, s9, find_cpu_temp_sensor s9).

End Main.

(** What happens to the state once the daemon is up: a turn of the control
    loop, or a command the listener hands to [ipmi_handle_command].  The
    two are taken one at a time. *)
Inductive daemon_event : Type :=
| ControlCycle (now : Z) (draws : Z -> double)
| IpmiCommand (req : ipmi_request_t) (now : Z).

Definition daemon_step (cpu_idx : Z) (state : bmc_state_t) (ev : daemon_event)
  : option bmc_state_t :=
  match ev with
  | ControlCycle now draws => main_loop_body state cpu_idx now draws
  | IpmiCommand req now => option_map fst (ipmi_handle_command state req now)
  end.

(** A sequence of events; [None] once one of them runs into undefined
    behaviour. *)
Fixpoint daemon_run (cpu_idx : Z) (state : bmc_state_t)
    (events : list daemon_event) : option bmc_state_t :=
  match events with
  | [] => Some state
  | ev :: rest =>
      match daemon_step cpu_idx state ev with
      | None => None
      | Some state' => daemon_run cpu_idx state' rest
      end
  end.

(** ** Vocabulary of the further statements *)

(** The three fields of the state that make up the event log. *)
Definition sel_part (state : bmc_state_t) : list sel_entry_t * Z * Z :=
  (sel state, sel_count state, sel_next_id state).

(** Two states with the same sensors, controller, fan duty and run flag. *)
Definition same_plant (s1 s2 : bmc_state_t) : Prop :=
  sensors s1 = sensors s2 /\
  sensor_count s1 = sensor_count s2 /\
  pid s1 = pid s2 /\
  fan_duty_percent s1 = fan_duty_percent s2 /\
  running s1 = running s2.

(** The reading [sensor_init] stores for a row of the table. *)
Definition init_reading (now : Z) (cfg : sensor_config_t) : sensor_reading_t :=
  {| name := truncate 63 (cfg_name cfg);
     type := cfg_type cfg;
     value := base_value cfg;
     min_valid := cfg_min_valid cfg;
     max_warning := cfg_max_warning cfg;
     max_critical := cfg_max_critical cfg;
     status := SENSOR_STATUS_OK;
     last_updated := now |}.

(** The reading the loop of [sensor_poll] leaves at index [j] of the
    array, for [j] below [sensor_count]: the polled reading of what the slot
    held, where the table has a row for it. *)
Definition sensor_poll_slot (fan_duty : double) (now : Z) (draws : Z -> double)
    (state : bmc_state_t) (j : Z) : option sensor_reading_t :=
  match array_get default_sensors j with
  | Some cfg =>
      option_map (fun s => sensor_poll_reading s cfg fan_duty (draws j) now)
                 (array_get (sensors state) j)
  | None => array_get (sensors state) j
  end.

(** The arguments of the call of [sel_add_entry] the loop of [sensor_poll]
    makes at index [i], if it makes one: the status has changed, and not to
    Ok. *)
Definition sensor_poll_event (fan_duty : double) (now : Z) (draws : Z -> double)
    (state : bmc_state_t) (i : Z) : option sel_args :=
  match array_get (sensors state) i, array_get default_sensors i with
  | Some s, Some cfg =>
      let s2 := sensor_poll_reading s cfg fan_duty (draws i) now in
      if bool_decide (status s2 <> status s)
         && bool_decide (status s2 <> SENSOR_STATUS_OK)
      then
        Some (now,
              if bool_decide (status s2 = SENSOR_STATUS_CRITICAL)
              then SEL_SEVERITY_CRITICAL else SEL_SEVERITY_WARNING,
              "Sensor",
              name s2 ++ " transitioned to " ++ sensor_status_str (status s2)
              ++ " (value: " ++ format_fixed 2 (value s2) ++ ")")%string
      else None
  | _, _ => None
  end.

Definition sensor_poll_events (fan_duty : double) (now : Z) (draws : Z -> double)
    (state : bmc_state_t) : list sel_args :=
  omap (sensor_poll_event fan_duty now draws state)
       (seqZ 0 (sensor_count state)).

(** The shape of a response buffer: 256 bytes, of which those at and after
    [data_len] are zero. *)
Definition response_well_formed (resp : ipmi_response_t) : Prop :=
  length (resp_data resp) = 256%nat /\
  0 <= resp_data_len resp <= 203 /\
  0 <= completion_code resp < 256 /\
  Forall (fun b => 0 <= b < 256) (resp_data resp) /\
  drop (Z.to_nat (resp_data_len resp)) (resp_data resp)
  = replicate (256 - Z.to_nat (resp_data_len resp)) 0.

(** The blob of an image can be read and its hash is the expected one. *)
Definition image_intact (SHA256 : list Z -> list Z) (fs : filesystem)
    (fw : fw_image_t) : Prop :=
  exists content,
    fs !! fw_path (fw_name fw) = Some content /\
    expected_hash fw = hex_digest (SHA256 content).

(** The entry [secure_boot_verify] logs for an image that passes. *)
Definition pass_event (now : Z) (images : list fw_image_t) (i : Z) : sel_args :=
  (now, SEL_SEVERITY_INFO, "SecureBoot",
   "PASS: Image '" ++ from_option fw_name "" (array_get images i)
   ++ "' integrity verified")%string.

(** The state of a daemon that is up: eight sensors in an array of eight,
    of which sensor 0 is the CPU temperature, the log within its slots, the
    output limits of the controller 10 and 100, the fan duty in [0, 100]. *)
Definition daemon_up (state : bmc_state_t) : Prop :=
  sensor_count state = MAX_SENSORS /\
  length (sensors state) = Z.to_nat MAX_SENSORS /\
  sel_wf state /\
  (exists s, array_get (sensors state) 0 = Some s /\
             name s = "CPU_Temp"%string /\ type s = SENSOR_TYPE_TEMPERATURE) /\
  (output_min (pid state) == 10)%Q /\
  (output_max (pid state) == 100)%Q /\
  (0 <= fan_duty_percent state)%Q /\
  (fan_duty_percent state <= 100)%Q.

(** The request is a Get Sensor Reading that takes the handler to the
    conversion [(int16_t)(value * 256.0)] with a value the type cannot
    hold, or to a sensor outside the array: the requests on which
    [ipmi_handle_command] is undefined. *)
Definition sensor_reading_undefined (state : bmc_state_t) (req : ipmi_request_t)
  : bool :=
  negb (netfn req =? IPMI_NETFN_APP)
  && (netfn req =? IPMI_NETFN_SENSOR)
  && (cmd req =? IPMI_CMD_GET_SENSOR_READING)
  && negb (data_len req <? 1)
  && negb (req_byte req 0 >=? sensor_count state)
  && match array_get (sensors state) (req_byte req 0) with
     | Some s =>
         negb ((-32768 <=? Qtrunc (value s * 256.0)%Q)
               && (Qtrunc (value s * 256.0)%Q <=? 32767))
     | None => true
     end.

(** The severity and the source of the entry a poll logs for sensor [i],
    read off the status of the sensor before the poll ([state]) and after
    it ([state']): an entry is logged when the status has changed, and not
    to Ok. *)
Definition sensor_poll_transition (state state' : bmc_state_t) (i : Z)
  : option (sel_severity_t * string) :=
  match array_get (sensors state) i, array_get (sensors state') i with
  | Some s, Some s' =>
      if bool_decide (status s' <> status s)
         && bool_decide (status s' <> SENSOR_STATUS_OK)
      then Some (if bool_decide (status s' = SENSOR_STATUS_CRITICAL)
                 then SEL_SEVERITY_CRITICAL else SEL_SEVERITY_WARNING,
                 "Sensor"%string)
      else None
  | _, _ => None
  end.

(** The run [events] stops at a Get Sensor Reading whose conversion is
    undefined: a command of the run, handled in the state [st] that the
    events before it lead to. *)
Definition stops_at_undefined_reading (cpu_idx : Z) (state : bmc_state_t)
    (events : list daemon_event) : Prop :=
  exists before req now after st,
    events = before ++ IpmiCommand req now :: after /\
    daemon_run cpu_idx state before = Some st /\
    daemon_up st /\
    sensor_reading_undefined st req = true.

(** ** [pid_control.c] and the poll step of [sensor.c] over binary64 *)

(** The controller and the value a poll computes once more, with a C
    [double] as an IEEE 754 binary64 number ([float]) and every operation
    of the source rounded to nearest even, with its infinities and NaN.
    [x > y] is [y <? x] and [x >= y] is [y <=? x]; a comparison with a NaN
    is false. *)
Module B64.

Record pid_state_t : Type := mk_pid_state {
  kp : float;
  ki : float;
  kd : float;
  setpoint : float;
  integral : float;
  prev_error : float;
  output : float;
  output_min : float;
  output_max : float
}.

Definition zero_pid : pid_state_t :=
  {| kp := 0; ki := 0; kd := 0; setpoint := 0; integral := 0;
     prev_error := 0; output := 0; output_min := 0; output_max := 0 |}%float.

Definition pid_init (pid : pid_state_t) (kp ki kd setpoint : float) : pid_state_t :=
  {| kp := kp; ki := ki; kd := kd; setpoint := setpoint;
     integral := 0.0; prev_error := 0.0;
     output := 30.0;
     output_min := 10.0;
     output_max := 100.0 |}%float.

(** One controller step; the result is the updated state and the returned
    duty. *)
Definition pid_compute (pid : pid_state_t) (current_temp dt : float)
  : pid_state_t * float :=
  let dt := if (dt <=? 0.0)%float then 1.0%float else dt in
  let error := (current_temp - setpoint pid)%float in
  let p_term := (kp pid * error)%float in
  let integral0 := (integral pid + error * dt)%float in
  let integral_limit := ((output_max pid - output_min pid) / ki pid)%float in
  let integral1 :=
    if (0 <? ki pid)%float then
      let i1 := if (integral_limit <? integral0)%float then integral_limit
                else integral0 in
      if (i1 <? - integral_limit)%float then (- integral_limit)%float else i1
    else integral0 in
  let i_term := (ki pid * integral1)%float in
  let derivative := ((error - prev_error pid) / dt)%float in
  let d_term := (kd pid * derivative)%float in
  let output0 := (p_term + i_term + d_term)%float in
  let output1 := (output0 + 40.0)%float in
  let output2 := if (output1 <? output_min pid)%float then output_min pid
                 else output1 in
  let output3 := if (output_max pid <? output2)%float then output_max pid
                 else output2 in
  ({| kp := kp pid; ki := ki pid; kd := kd pid; setpoint := setpoint pid;
      integral := integral1; prev_error := error;
      output := output3;
      output_min := output_min pid; output_max := output_max pid |},
   output3).

Definition pid_reset (pid : pid_state_t) : pid_state_t :=
  {| kp := kp pid; ki := ki pid; kd := kd pid; setpoint := setpoint pid;
     integral := 0.0; prev_error := 0.0;
     output := output pid;
     output_min := output_min pid; output_max := output_max pid |}%float.

Definition pid_set_output_limits (pid : pid_state_t) (min max : float)
  : pid_state_t :=
  if (max <=? min)%float then pid
  else
    let out1 := if (output pid <? min)%float then min else output pid in
    let out2 := if (max <? out1)%float then max else out1 in
    {| kp := kp pid; ki := ki pid; kd := kd pid; setpoint := setpoint pid;
       integral := integral pid; prev_error := prev_error pid;
       output := out2;
       output_min := min; output_max := max |}.

(** The calls a client makes on a controller after [pid_init]. *)
Inductive pid_op : Type :=
| PidCompute (current_temp dt : float)
| PidReset
| PidSetOutputLimits (min max : float).

Definition pid_apply (pid : pid_state_t) (op : pid_op) : pid_state_t :=
  match op with
  | PidCompute current_temp dt => fst (pid_compute pid current_temp dt)
  | PidReset => pid_reset pid
  | PidSetOutputLimits min max => pid_set_output_limits pid min max
  end.

Definition pid_run (pid : pid_state_t) (ops : list pid_op) : pid_state_t :=
  foldl pid_apply pid ops.

(** The value one iteration of the loop of [sensor_poll] stores for a
    sensor of type [ty] that reads [value], from the [base_value] of its
    row of the table, the fan duty, and the value [noise] that the call of
    [gaussian_noise] returns. *)
Definition sensor_next_value (ty : sensor_type_t) (value base_value fan_duty
    noise : float) : float :=
  match ty with
  | SENSOR_TYPE_TEMPERATURE =>
      let heat_load := 15.0%float in
      let cool_capacity := 25.0%float in
      let cooling := ((fan_duty / 100.0) * cool_capacity)%float in
      let target := (base_value + heat_load - cooling)%float in
      let v1 := (value + (target - value) * 0.1)%float in
      let v2 := (v1 + noise)%float in
      let v3 := if (v2 <? 5.0)%float then 5.0%float else v2 in
      if (105.0 <? v3)%float then 105.0%float else v3
  | SENSOR_TYPE_VOLTAGE =>
      let v := (base_value + noise)%float in
      if (v <? 0)%float then 0%float else v
  | SENSOR_TYPE_FAN_RPM =>
      let max_rpm := (base_value * 2.0)%float in
      let v := ((fan_duty / 100.0) * max_rpm + noise)%float in
      if (v <? 0)%float then 0%float else v
  | SENSOR_TYPE_POWER => value
  end.

End B64.

(** ** Vocabulary of the statements over binary64 *)

(** The place of a number that is not a NaN in the order of the
    comparisons: a triple of integers, ordered lexicographically.  The two
    zeros share a place. *)
Definition sf_key (x : spec_float) : option (Z * Z * Z) :=
  match x with
  | S754_nan => None
  | S754_zero _ => Some (0, 0, 0)
  | S754_infinity s => Some (if s then -2 else 2, 0, 0)
  | S754_finite s m e => Some (if s then (-1, - e, Zneg m) else (1, e, Zpos m))
  end.

Definition fkey (x : float) : option (Z * Z * Z) := sf_key (Prim2SF x).

Definition key_lt (a b : Z * Z * Z) : Prop :=
  a.1.1 < b.1.1 \/
  (a.1.1 = b.1.1 /\ (a.1.2 < b.1.2 \/ (a.1.2 = b.1.2 /\ a.2 < b.2))).

Definition key_le (a b : Z * Z * Z) : Prop :=
  a.1.1 < b.1.1 \/
  (a.1.1 = b.1.1 /\ (a.1.2 < b.1.2 \/ (a.1.2 = b.1.2 /\ a.2 <= b.2))).

Definition key_opp (a : Z * Z * Z) : Z * Z * Z := (- a.1.1, - a.1.2, - a.2).

Definition key_abs (a : Z * Z * Z) : Z * Z * Z :=
  if a.1.1 <? 0 then key_opp a else a.

(** The keys that are the place of a number: of a zero, an infinity or a
    finite number that is not zero. *)
Definition key_wf (a : Z * Z * Z) : Prop :=
  (a.1.1 = 0 /\ a.1.2 = 0 /\ a.2 = 0) \/
  ((a.1.1 = 2 \/ a.1.1 = -2) /\ a.1.2 = 0 /\ a.2 = 0) \/
  (a.1.1 = 1 /\ 0 < a.2) \/
  (a.1.1 = -1 /\ a.2 < 0).

(** A number that is a zero or finite. *)
Definition sf_finite (x : spec_float) : Prop :=
  match x with
  | S754_zero _ | S754_finite _ _ _ => True
  | _ => False
  end.

Definition sf_zero (x : spec_float) : Prop :=
  match x with S754_zero _ => True | _ => False end.

(** A NaN, a zero, or a number with the sign of the positive ones. *)
Definition sf_not_neg (x : spec_float) : Prop :=
  match x with
  | S754_nan | S754_zero _ => True
  | S754_infinity s | S754_finite s _ _ => s = false
  end.

(** A call of [pid_set_output_limits] passes limits that are numbers. *)
Definition limits_not_nan (op : B64.pid_op) : Prop :=
  match op with
  | B64.PidSetOutputLimits min max => is_nan min = false /\ is_nan max = false
  | _ => True
  end.

(** The stored output is a NaN or lies within the output limits. *)
Definition output_within_limits (pid : B64.pid_state_t) : Prop :=
  is_nan (B64.output pid) = true \/
  ((B64.output_min pid <=? B64.output pid)%float = true /\
   (B64.output pid <=? B64.output_max pid)%float = true).

(** * Properties *)

(** ** Comparisons of doubles *)

Lemma Qltb_true (x y : Q) : Qltb x y = true <-> (x < y)%Q.
Proof.
  unfold Qltb. rewrite negb_true_iff, <- not_true_iff_false, Qle_bool_iff.
  split; [apply Qnot_le_lt | apply Qlt_not_le].
Qed.

Lemma Qltb_false (x y : Q) : Qltb x y = false <-> (y <= x)%Q.
Proof.
  unfold Qltb. rewrite negb_false_iff. apply Qle_bool_iff.
Qed.

Lemma Qgtb_true (x y : Q) : Qgtb x y = true <-> (y < x)%Q.
Proof. apply Qltb_true. Qed.

Lemma Qgtb_false (x y : Q) : Qgtb x y = false <-> (x <= y)%Q.
Proof. apply Qltb_false. Qed.

Lemma Qgeb_true (x y : Q) : Qgeb x y = true <-> (y <= x)%Q.
Proof. apply Qle_bool_iff. Qed.

Lemma Qgeb_false (x y : Q) : Qgeb x y = false <-> (x < y)%Q.
Proof.
  unfold Qgeb. rewrite <- not_true_iff_false, Qle_bool_iff.
  split; [apply Qnot_le_lt | apply Qlt_not_le].
Qed.

Lemma Qle_bool_false (x y : Q) : Qle_bool x y = false <-> (y < x)%Q.
Proof. apply Qgeb_false. Qed.

(** Case analysis on one comparison of doubles, leaving the order fact in
    the context. *)
Ltac case_cmp c :=
  let H := fresh "Hcmp" in
  destruct c eqn:H;
  first [ apply Qltb_true in H | apply Qltb_false in H
        | apply Qgtb_true in H | apply Qgtb_false in H
        | apply Qgeb_true in H | apply Qgeb_false in H
        | apply Qle_bool_iff in H | apply Qle_bool_false in H ].

(** ** The PID controller *)

Lemma pid_compute_bounds (pid : pid_state_t) (current_temp dt : Q) :
  output_min (fst (pid_compute pid current_temp dt)) = output_min pid /\
  output_max (fst (pid_compute pid current_temp dt)) = output_max pid.
Proof. split; reflexivity. Qed.

(** The output of a step lies within the bounds, and the value returned is
    the value stored. *)
Lemma pid_compute_output_clamped (pid : pid_state_t) (current_temp dt : Q) :
  (output_min pid <= output_max pid)%Q ->
  (output_min pid <= output (fst (pid_compute pid current_temp dt)))%Q /\
  (output (fst (pid_compute pid current_temp dt)) <= output_max pid)%Q /\
  snd (pid_compute pid current_temp dt)
  = output (fst (pid_compute pid current_temp dt)).
Proof.
  intros Hspan. unfold pid_compute; cbn [fst snd output].
  match goal with
  | |- context [Qltb ?o (output_min pid)] => case_cmp (Qltb o (output_min pid))
  end;
    match goal with
    | |- context [Qgtb ?o (output_max pid)] => case_cmp (Qgtb o (output_max pid))
    end; repeat split; lra.
Qed.

(** C9.  [pid_set_output_limits] with [min >= max] changes nothing: the
    state it returns is the state it was given, field by field. *)
Theorem pid_set_output_limits_rejects (pid : pid_state_t) (min max : Q) :
  (max <= min)%Q ->
  pid_set_output_limits pid min max = pid.
Proof.
  intros H. unfold pid_set_output_limits.
  apply Qgeb_true in H. rewrite H. reflexivity.
Qed.

(** ** The controller and the poll step over binary64 *)

(** *** The order of binary64 numbers *)

(** The two directions of a comparison read off the keys, once the
    numbers are given by cases. *)
Ltac key_iff :=
  split;
  [ first [ discriminate
          | intros _; eexists _, _;
            split; [reflexivity |]; split; [reflexivity |]; cbn; lia ]
  | first [ reflexivity
          | intros (a & b & [= <-] & [= <-] & H); cbn in H; lia ] ].

Ltac key_cases x y :=
  let sx := fresh "sx" in
  let sy := fresh "sy" in
  let mx := fresh "mx" in
  let my := fresh "my" in
  let ex := fresh "ex" in
  let ey := fresh "ey" in
  destruct x as [sx | sx | | sx mx ex], y as [sy | sy | | sy my ey];
  cbn [SFcompare sf_key];
  try (split; [discriminate | by intros (a & b & [=] & _)]);
  try (split; [discriminate | by intros (a & b & _ & [=] & _)]);
  try destruct sx; try destruct sy; cbn [fst snd];
  try solve [key_iff];
  change (Pos.compare_cont Eq mx my) with (Pos.compare mx my);
  (destruct (Z.compare_spec ex ey) as [He | He | He];
   [destruct (Pos.compare_spec mx my) as [Hm | Hm | Hm] | |]);
  cbn [CompOpp]; key_iff.

Lemma SFltb_key (x y : spec_float) :
  SFltb x y = true <->
  exists a b, sf_key x = Some a /\ sf_key y = Some b /\ key_lt a b.
Proof. unfold SFltb, key_lt. key_cases x y. Qed.

Lemma SFleb_key (x y : spec_float) :
  SFleb x y = true <->
  exists a b, sf_key x = Some a /\ sf_key y = Some b /\ key_le a b.
Proof. unfold SFleb, key_le. key_cases x y. Qed.

#[local] Instance key_lt_dec (a b : Z * Z * Z) : Decision (key_lt a b).
Proof. unfold key_lt. apply _. Defined.

#[local] Instance key_le_dec (a b : Z * Z * Z) : Decision (key_le a b).
Proof. unfold key_le. apply _. Defined.

(** The comparisons of the source, read off the keys. *)
Lemma ltb_key (x y : float) :
  (x <? y)%float
  = match fkey x, fkey y with
    | Some a, Some b => bool_decide (key_lt a b)
    | _, _ => false
    end.
Proof.
  rewrite FloatAxioms.ltb_spec. unfold fkey.
  pose proof (SFltb_key (Prim2SF x) (Prim2SF y)) as H.
  destruct (SFltb (Prim2SF x) (Prim2SF y)).
  - destruct (proj1 H eq_refl) as (a & b & -> & -> & Hlt).
    symmetry. by apply bool_decide_eq_true.
  - destruct (sf_key (Prim2SF x)) as [a |]; [| reflexivity].
    destruct (sf_key (Prim2SF y)) as [b |]; [| reflexivity].
    symmetry. apply bool_decide_eq_false. intros Hlt.
    assert (E : false = true) by (apply H; eauto). discriminate E.
Qed.

Lemma leb_key (x y : float) :
  (x <=? y)%float
  = match fkey x, fkey y with
    | Some a, Some b => bool_decide (key_le a b)
    | _, _ => false
    end.
Proof.
  rewrite FloatAxioms.leb_spec. unfold fkey.
  pose proof (SFleb_key (Prim2SF x) (Prim2SF y)) as H.
  destruct (SFleb (Prim2SF x) (Prim2SF y)).
  - destruct (proj1 H eq_refl) as (a & b & -> & -> & Hlt).
    symmetry. by apply bool_decide_eq_true.
  - destruct (sf_key (Prim2SF x)) as [a |]; [| reflexivity].
    destruct (sf_key (Prim2SF y)) as [b |]; [| reflexivity].
    symmetry. apply bool_decide_eq_false. intros Hlt.
    assert (E : false = true) by (apply H; eauto). discriminate E.
Qed.

Lemma is_nan_key (x : float) :
  is_nan x = match fkey x with Some _ => false | None => true end.
Proof.
  unfold is_nan, fkey. rewrite FloatAxioms.eqb_spec. unfold SFeqb.
  destruct (Prim2SF x) as [s | s | | s m e]; cbn [SFcompare sf_key negb];
    try reflexivity.
  - by destruct s.
  - assert (Hm : Pos.compare_cont Eq m m = Eq) by apply Pos.compare_refl.
    destruct s; rewrite Z.compare_refl, Hm; reflexivity.
Qed.

Lemma fkey_opp (x : float) : fkey (- x) = option_map key_opp (fkey x).
Proof.
  unfold fkey. rewrite FloatAxioms.opp_spec.
  destruct (Prim2SF x) as [s | s | | s m e]; cbn; try reflexivity;
    destruct s; unfold key_abs, key_opp; cbn; rewrite ?Z.opp_involutive;
    reflexivity.
Qed.

Lemma fkey_abs (x : float) : fkey (abs x) = option_map key_abs (fkey x).
Proof.
  unfold fkey. rewrite FloatAxioms.abs_spec.
  destruct (Prim2SF x) as [s | s | | s m e]; cbn; try reflexivity;
    destruct s; unfold key_abs, key_opp; cbn; rewrite ?Z.opp_involutive;
    reflexivity.
Qed.

Lemma fkey_wf (x : float) (a : Z * Z * Z) :
  fkey x = Some a -> key_wf a.
Proof.
  unfold fkey, key_wf.
  destruct (Prim2SF x) as [s | s | | s m e]; cbn [sf_key]; intros [= <-];
    try destruct s; cbn [fst snd]; lia.
Qed.

(** Comparisons of doubles to arithmetic on their keys. *)
Ltac destruct_fkey x :=
  let E := fresh "Ekey" in
  destruct (fkey x) as [[[? ?] ?] |] eqn:E;
  [ apply fkey_wf in E; unfold key_wf in E; cbn [fst snd] in E | clear E ].

Ltac float_keys :=
  rewrite ?ltb_key, ?leb_key, ?is_nan_key, ?fkey_abs, ?fkey_opp in *;
  repeat match goal with
         | H : context [fkey ?x] |- _ => destruct_fkey x
         | |- context [fkey ?x] => destruct_fkey x
         end;
  cbn [option_map] in *;
  repeat case_bool_decide;
  unfold key_lt, key_le, key_abs, key_opp in *; cbn [fst snd] in *;
  repeat match goal with
         | H : context [?a <? 0] |- _ => destruct (Z.ltb_spec a 0)
         | |- context [?a <? 0] => destruct (Z.ltb_spec a 0)
         end;
  cbn [fst snd] in *;
  try discriminate; try (left; reflexivity); try lia.

(** *** Signs and zeros of binary64 arithmetic *)

Lemma is_finite_sf (x : float) :
  is_finite x = true -> sf_finite (Prim2SF x).
Proof.
  unfold is_finite, is_nan, is_infinity.
  rewrite !FloatAxioms.eqb_spec, FloatAxioms.abs_spec.
  change (Prim2SF infinity) with (S754_infinity false).
  destruct (Prim2SF x) as [s | s | | s m e]; try destruct s; cbn;
    try discriminate; done.
Qed.

Lemma binary_round_aux_not_neg (m e : Z) (l : location) :
  sf_not_neg (binary_round_aux prec emax false m e l).
Proof.
  unfold binary_round_aux.
  destruct (shr_fexp prec emax m e l) as [mrs' e'].
  destruct (shr_fexp prec emax _ e' loc_Exact) as [mrs'' e''].
  destruct (shr_m mrs'') as [| p | p]; cbn; try done.
  by destruct (e'' <=? emax - prec).
Qed.

Lemma binary_normalize_not_neg (m e : Z) :
  0 <= m -> sf_not_neg (binary_normalize prec emax m e false).
Proof.
  intros Hm. destruct m as [| p | p]; [done | | lia].
  cbn [binary_normalize]. unfold binary_round.
  destruct (shl_align p e _) as [mz ez].
  apply binary_round_aux_not_neg.
Qed.

Lemma SFdiv_not_neg (x y : spec_float) :
  sf_not_neg x ->
  SFltb (S754_zero false) y = true ->
  sf_not_neg (SFdiv prec emax x y).
Proof.
  intros Hx Hy.
  destruct y as [sy | sy | | sy my ey]; try discriminate Hy;
    destruct sy; try discriminate Hy;
    destruct x as [sx | sx | | sx mx ex]; cbn in Hx |- *; subst; try done.
  destruct (SFdiv_core_binary prec emax (Z.pos mx) ex (Z.pos my) ey)
    as [[mz ez] lz].
  apply binary_round_aux_not_neg.
Qed.

(** The mantissa of a binary64 number has at most 53 bits, and exactly 53
    above the least exponent. *)
Lemma digits2_pos_size (m : positive) : digits2_pos m = Pos.size m.
Proof. induction m as [m IH | m IH |]; cbn; by rewrite ?IH. Qed.

Lemma valid_mantissa (s : bool) (m : positive) (e : Z) :
  valid_binary (S754_finite s m e) = true ->
  Z.pos m < 2 ^ 53 /\ (-1074 < e -> 2 ^ 52 <= Z.pos m).
Proof.
  cbn [SpecFloat.valid_binary]. unfold bounded, canonical_mantissa, fexp, emin.
  intros H. apply andb_true_iff in H. destruct H as [H _].
  apply Z.eqb_eq in H. rewrite digits2_pos_size in H.
  change (3 - emax - prec) with (-1074) in H. change prec with 53 in H.
  pose proof (Pos.size_gt m) as Hgt. pose proof (Pos.size_le m) as Hle.
  apply Pos2Z.pos_lt_pos in Hgt. apply Pos2Z.pos_le_pos in Hle.
  rewrite Pos2Z.inj_pow in Hgt, Hle.
  change (Z.pos m~0) with (2 * Z.pos m) in Hle.
  set (d := Z.pos (Pos.size m)) in *.
  assert (Hd : 0 < d) by (unfold d; lia).
  split.
  - assert (d <= 53) by lia.
    apply Z.lt_le_trans with (2 ^ d); [exact Hgt |].
    apply Z.pow_le_mono_r; lia.
  - intros He. assert (d = 53) by lia.
    replace 52 with (d - 1) by lia.
    assert (2 ^ d = 2 * 2 ^ (d - 1)).
    { rewrite <- Z.pow_succ_r by lia. f_equal. lia. }
    lia.
Qed.

(** The difference of two numbers, the greater first and not negative, is
    not negative. *)
Lemma SFsub_not_neg (x y : spec_float) :
  valid_binary x = true -> valid_binary y = true ->
  sf_not_neg x ->
  SFleb y x = true ->
  sf_not_neg (SFsub prec emax x y).
Proof.
  intros Vx Vy Hx Hle.
  destruct x as [sx | sx | | sx mx ex], y as [sy | sy | | sy my ey];
    cbn in Hx; subst; try discriminate Hle; try done.
  - by destruct sx, sy.
  - destruct sy; [done | discriminate Hle].
  - destruct sy; [done | discriminate Hle].
  - by destruct sy.
  - destruct sy; [done | discriminate Hle].
  - cbn [SFsub]. apply binary_normalize_not_neg.
    destruct (valid_mantissa _ _ _ Vx) as [Hx53 Hx52].
    destruct (valid_mantissa _ _ _ Vy) as [Hy53 Hy52].
    destruct sy; cbn [cond_Zopp]; [lia |].
    unfold SFleb in Hle. cbn [SFcompare] in Hle.
    change (Pos.compare_cont Eq my mx) with (Pos.compare my mx) in Hle.
    unfold shl_align.
    destruct (Z.compare_spec ey ex) as [He | He | He]; [| | discriminate Hle].
    + subst ey. rewrite Z.min_id, Z.sub_diag. cbn [fst].
      destruct (Pos.compare_spec my mx) as [Hm | Hm | Hm];
        try discriminate Hle; lia.
    + rewrite Z.min_r by lia. rewrite Z.sub_diag. cbn [fst].
      destruct (ey - ex) as [| d | d] eqn:Hd; try lia. cbn [fst].
      change (Pos.iter xO mx d) with (shift_pos d mx).
      rewrite shift_pos_correct, Z.pow_pos_fold.
      assert (Hpow : 2 ^ 1 <= 2 ^ Z.pos d) by (apply Z.pow_le_mono_r; lia).
      assert (H52 : 2 ^ 52 <= Z.pos mx).
      { apply Hx52. assert (Hv := Vy). cbn in Hv.
        unfold bounded, canonical_mantissa, fexp, emin in Hv.
        apply andb_true_iff in Hv. destruct Hv as [Hv _].
        apply Z.eqb_eq in Hv. change (3 - emax - prec) with (-1074) in Hv. lia. }
      change (2 ^ 1) with 2 in Hpow. change (2 ^ 52) with 4503599627370496 in *.
      change (2 ^ 53) with 9007199254740992 in *. nia.
Qed.

(** *** Arithmetic on zeros *)

Lemma sub_diag_zero (x : float) :
  sf_finite (Prim2SF x) -> Prim2SF (x - x) = S754_zero false.
Proof.
  rewrite FloatAxioms.sub_spec. unfold SF64sub.
  destruct (Prim2SF x) as [s | s | | s m e]; try done; intros _.
  - by destruct s.
  - cbn [SFsub]. by rewrite Z.sub_diag.
Qed.

Lemma mul_zero_r (x z : float) :
  sf_finite (Prim2SF x) -> sf_zero (Prim2SF z) -> sf_zero (Prim2SF (x * z)).
Proof.
  rewrite FloatAxioms.mul_spec. unfold SF64mul.
  destruct (Prim2SF x) as [s | s | | s m e]; try done;
    destruct (Prim2SF z) as [s' | s' | | s' m' e']; done.
Qed.

Lemma mul_zero_pos (z d : float) (m : positive) (e : Z) :
  Prim2SF z = S754_zero false -> Prim2SF d = S754_finite false m e ->
  Prim2SF (z * d) = S754_zero false.
Proof.
  intros Hz Hd. rewrite FloatAxioms.mul_spec, Hz, Hd. reflexivity.
Qed.

Lemma div_zero_pos (z d : float) (m : positive) (e : Z) :
  Prim2SF z = S754_zero false -> Prim2SF d = S754_finite false m e ->
  Prim2SF (z / d) = S754_zero false.
Proof.
  intros Hz Hd. rewrite FloatAxioms.div_spec, Hz, Hd. reflexivity.
Qed.

Lemma add_pos_zeros (a b : float) :
  Prim2SF a = S754_zero false -> Prim2SF b = S754_zero false ->
  Prim2SF (a + b) = S754_zero false.
Proof.
  intros Ha Hb. rewrite FloatAxioms.add_spec, Ha, Hb. reflexivity.
Qed.

Lemma sub_pos_zeros (a b : float) :
  Prim2SF a = S754_zero false -> Prim2SF b = S754_zero false ->
  Prim2SF (a - b) = S754_zero false.
Proof.
  intros Ha Hb. rewrite FloatAxioms.sub_spec, Ha, Hb. reflexivity.
Qed.

Lemma add_zeros (a b : float) :
  sf_zero (Prim2SF a) -> sf_zero (Prim2SF b) -> sf_zero (Prim2SF (a + b)).
Proof.
  rewrite FloatAxioms.add_spec. unfold SF64add.
  destruct (Prim2SF a) as [s | s | | s m e]; try done;
    destruct (Prim2SF b) as [s' | s' | | s' m' e']; try done.
  by destruct s, s'.
Qed.

(** A zero added to 40 is 40. *)
Lemma add_zero_40 (z : float) :
  sf_zero (Prim2SF z) -> (z + 40.0)%float = 40.0%float.
Proof.
  intros Hz. apply Prim2SF_inj. rewrite FloatAxioms.add_spec.
  destruct (Prim2SF z) as [s | s | | s m e]; try done.
Qed.

(** *** The integral within its limit *)

(** C3, as amended.  After a step of [pid_compute] with a positive
    integral gain the integral lies within the clamp the step computes:
    [|integral| <= |integral_limit|], where [integral_limit] is the
    quotient [(output_max - output_min) / ki] as a double, unless the
    limit or the integral is a NaN.  The current temperature, the time
    step and the prior state are arbitrary.  Nothing is said of the
    product [ki * integral], which the rounding of the quotient can take
    above the span. *)
Theorem pid_compute_integral_within_limit (pid : B64.pid_state_t)
    (current_temp dt : float) :
  (0 <? B64.ki pid)%float = true ->
  let pid' := fst (B64.pid_compute pid current_temp dt) in
  let integral_limit :=
    ((B64.output_max pid - B64.output_min pid) / B64.ki pid)%float in
  is_nan integral_limit = true \/
  is_nan (B64.integral pid') = true \/
  (abs (B64.integral pid') <=? abs integral_limit)%float = true.
Proof.
  intros Hki pid' integral_limit. subst pid'.
  unfold B64.pid_compute. cbn [fst B64.integral]. fold integral_limit.
  rewrite Hki.
  generalize (B64.integral pid
              + (current_temp - B64.setpoint pid)
                * (if (dt <=? 0)%float then 1 else dt))%float.
  generalize integral_limit. clear. intros L i0.
  destruct (is_nan L) eqn:HL; [by left | right].
  destruct (L <? i0)%float eqn:H1.
  - destruct (L <? - L)%float eqn:H2;
      (match goal with
       | |- is_nan ?r = true \/ _ =>
           destruct (is_nan r) eqn:Hi; [by left | right]
       end); float_keys.
  - destruct (i0 <? - L)%float eqn:H2;
      (match goal with
       | |- is_nan ?r = true \/ _ =>
           destruct (is_nan r) eqn:Hi; [by left | right]
       end); float_keys.
Qed.

(** *** A step at the setpoint after a reset *)

(** The time step the controller uses is finite and positive unless [dt]
    is a NaN or the positive infinity. *)
Lemma time_step_positive (dt : float) :
  (dt <? infinity)%float = true ->
  exists m e,
    Prim2SF (if (dt <=? 0.0)%float then 1.0%float else dt)
    = S754_finite false m e.
Proof.
  intros Hdt.
  destruct (dt <=? 0)%float eqn:Hle.
  - by eexists _, _.
  - rewrite FloatAxioms.ltb_spec in Hdt. rewrite FloatAxioms.leb_spec in Hle.
    change (Prim2SF infinity) with (S754_infinity false) in Hdt.
    change (Prim2SF 0) with (S754_zero false) in Hle.
    destruct (Prim2SF dt) as [s | s | | s m e]; try destruct s;
      try discriminate Hdt; try discriminate Hle.
    by eexists _, _.
Qed.

(** A zero is neither above a limit that is not negative nor below its
    opposite. *)
Lemma zero_within_limit (z L : float) :
  sf_zero (Prim2SF z) -> sf_not_neg (Prim2SF L) ->
  (L <? z)%float = false /\ (z <? - L)%float = false.
Proof.
  intros Hz HL.
  rewrite !FloatAxioms.ltb_spec, FloatAxioms.opp_spec.
  destruct (Prim2SF z) as [s | s | | s m e]; try done.
  destruct (Prim2SF L) as [s' | s' | | s' m' e']; cbn in HL; subst; done.
Qed.

(** The limit of the integral is not negative when the output limits are
    in order and the integral gain is positive. *)
Lemma integral_limit_not_neg (lo hi k : float) :
  (lo <=? 40.0)%float = true -> (40.0 <=? hi)%float = true ->
  (0 <? k)%float = true ->
  sf_not_neg (Prim2SF ((hi - lo) / k)).
Proof.
  intros Hlo Hhi Hk.
  rewrite FloatAxioms.div_spec, FloatAxioms.sub_spec.
  apply SFdiv_not_neg.
  - apply SFsub_not_neg; try apply Prim2SF_valid.
    + rewrite FloatAxioms.leb_spec in Hhi.
      change (Prim2SF 40) with (S754_finite false 5629499534213120 (-47)) in Hhi.
      destruct (Prim2SF hi) as [s | s | | s m e]; try destruct s;
        try discriminate Hhi; done.
    + rewrite FloatAxioms.leb_spec in Hlo, Hhi.
      apply SFleb_key in Hlo. apply SFleb_key in Hhi. apply SFleb_key.
      destruct Hlo as (a & b & Ha & Hb & Hab).
      destruct Hhi as (b' & c & Hb' & Hc & Hbc).
      rewrite Hb in Hb'. injection Hb' as <-.
      exists a, c. split; [exact Ha |]. split; [exact Hc |].
      unfold key_le in *. lia.
  - rewrite FloatAxioms.ltb_spec in Hk. exact Hk.
Qed.

(** C7, as amended.  After [pid_reset], one [pid_compute] at the setpoint
    returns, and stores, exactly the base duty 40 whenever 40 lies within
    the output limits, for every time step that is neither a NaN nor the
    positive infinity (a step that is zero or negative counts as 1), on a
    controller whose gains and setpoint are finite. *)
Theorem pid_reset_compute_at_setpoint (pid : B64.pid_state_t) (dt : float) :
  is_finite (B64.kp pid) = true ->
  is_finite (B64.ki pid) = true ->
  is_finite (B64.kd pid) = true ->
  is_finite (B64.setpoint pid) = true ->
  (dt <? infinity)%float = true ->
  (B64.output_min pid <=? 40.0)%float = true ->
  (40.0 <=? B64.output_max pid)%float = true ->
  snd (B64.pid_compute (B64.pid_reset pid) (B64.setpoint pid) dt) = 40.0%float /\
  B64.output (fst (B64.pid_compute (B64.pid_reset pid) (B64.setpoint pid) dt))
  = 40.0%float.
Proof.
  intros Hkp Hki Hkd Hsp Hdt Hlo Hhi.
  apply is_finite_sf in Hkp, Hki, Hkd, Hsp.
  destruct (time_step_positive dt Hdt) as (m & e & Hstep).
  unfold B64.pid_compute, B64.pid_reset.
  cbn [fst snd B64.kp B64.ki B64.kd B64.setpoint B64.integral B64.prev_error
       B64.output B64.output_min B64.output_max].
  set (dt' := if (dt <=? 0)%float then 1%float else dt) in *.
  set (error := (B64.setpoint pid - B64.setpoint pid)%float).
  assert (Herr : Prim2SF error = S754_zero false) by (by apply sub_diag_zero).
  set (integral0 := (0 + error * dt')%float).
  assert (Hint0 : Prim2SF integral0 = S754_zero false).
  { apply add_pos_zeros; [reflexivity |]. by apply (mul_zero_pos _ _ m e). }
  set (L := ((B64.output_max pid - B64.output_min pid) / B64.ki pid)%float).
  set (integral1 := if (0 <? B64.ki pid)%float then _ else integral0).
  assert (Hint1 : integral1 = integral0).
  { subst integral1. destruct (0 <? B64.ki pid)%float eqn:Hpos; [| reflexivity].
    destruct (zero_within_limit integral0 L) as [H1 H2].
    - by rewrite Hint0.
    - by apply integral_limit_not_neg.
    - by rewrite H1, H2. }
  rewrite Hint1. clearbody integral1. clear Hint1 integral1.
  assert (Hz0 : sf_zero (Prim2SF integral0)) by (by rewrite Hint0).
  assert (Hze : sf_zero (Prim2SF error)) by (by rewrite Herr).
  set (derivative := ((error - 0) / dt')%float).
  assert (Hder : sf_zero (Prim2SF derivative)).
  { subst derivative. rewrite (div_zero_pos _ _ m e); [done | | exact Hstep].
    by apply sub_pos_zeros. }
  set (output0 := (B64.kp pid * error + B64.ki pid * integral0
                   + B64.kd pid * derivative)%float).
  assert (Hout0 : sf_zero (Prim2SF output0)).
  { subst output0. apply add_zeros; [apply add_zeros |]; by apply mul_zero_r. }
  rewrite (add_zero_40 output0 Hout0).
  assert (H1 : (40 <? B64.output_min pid)%float = false).
  { revert Hlo. generalize (B64.output_min pid). intros lo Hlo.
    assert (K40 : fkey 40 = Some (1, -47, 5629499534213120)) by reflexivity.
    rewrite ?ltb_key, ?leb_key in *. rewrite K40 in *.
    destruct (fkey lo) as [[[a b] c] |]; [| reflexivity].
    repeat case_bool_decide; try discriminate; try reflexivity;
      unfold key_lt, key_le in *; cbn [fst snd] in *; lia. }
  rewrite H1.
  assert (H2 : (B64.output_max pid <? 40)%float = false).
  { revert Hhi. generalize (B64.output_max pid). intros hi Hhi.
    assert (K40 : fkey 40 = Some (1, -47, 5629499534213120)) by reflexivity.
    rewrite ?ltb_key, ?leb_key in *. rewrite K40 in *.
    destruct (fkey hi) as [[[a b] c] |]; [| reflexivity].
    repeat case_bool_decide; try discriminate; try reflexivity;
      unfold key_lt, key_le in *; cbn [fst snd] in *; lia. }
  rewrite H2. split; reflexivity.
Qed.

(** *** The output within its limits *)

Lemma b64_pid_compute_output_clamped (pid : B64.pid_state_t)
    (current_temp dt : float) :
  (B64.output_min pid <? B64.output_max pid)%float = true ->
  B64.output (fst (B64.pid_compute pid current_temp dt))
  = snd (B64.pid_compute pid current_temp dt) /\
  output_within_limits (fst (B64.pid_compute pid current_temp dt)).
Proof.
  intros Hlim. split; [reflexivity |].
  unfold output_within_limits, B64.pid_compute.
  cbn [fst B64.output B64.output_min B64.output_max].
  match goal with
  | |- context [((?o + 40.0) <? B64.output_min pid)%float] =>
      generalize (o + 40.0)%float
  end.
  revert Hlim. generalize (B64.output_min pid) (B64.output_max pid).
  clear. intros lo hi Hlim o.
  destruct (o <? lo)%float eqn:H1.
  - destruct (hi <? lo)%float eqn:H2; float_keys.
  - destruct (hi <? o)%float eqn:H2; float_keys.
Qed.

Lemma b64_pid_set_output_limits_inv (pid : B64.pid_state_t) (min max : float) :
  is_nan min = false -> is_nan max = false ->
  (B64.output_min pid <? B64.output_max pid)%float = true ->
  output_within_limits pid ->
  (B64.output_min (B64.pid_set_output_limits pid min max)
   <? B64.output_max (B64.pid_set_output_limits pid min max))%float = true /\
  output_within_limits (B64.pid_set_output_limits pid min max).
Proof.
  intros Hmin Hmax Hlim Hout. unfold B64.pid_set_output_limits.
  destruct (max <=? min)%float eqn:Hrej; [by split |].
  unfold output_within_limits.
  cbn [B64.output B64.output_min B64.output_max].
  clear Hout Hlim. generalize (B64.output pid). intros o.
  split.
  - float_keys.
  - destruct (o <? min)%float eqn:H1.
    + destruct (max <? min)%float eqn:H2; float_keys.
    + destruct (max <? o)%float eqn:H2; float_keys.
Qed.

Lemma b64_pid_run_inv (ops : list B64.pid_op) (pid : B64.pid_state_t) :
  Forall limits_not_nan ops ->
  (B64.output_min pid <? B64.output_max pid)%float = true ->
  output_within_limits pid ->
  (B64.output_min (B64.pid_run pid ops)
   <? B64.output_max (B64.pid_run pid ops))%float = true /\
  output_within_limits (B64.pid_run pid ops).
Proof.
  unfold B64.pid_run. intros Hops. revert pid.
  induction Hops as [| op rest Hop _ IH]; intros pid Hlim Hout; [by split |].
  cbn [foldl].
  destruct op as [t dt | | min max]; cbn [B64.pid_apply limits_not_nan] in *.
  - apply IH; [exact Hlim |].
    apply (b64_pid_compute_output_clamped pid t dt Hlim).
  - apply IH; [exact Hlim | exact Hout].
  - destruct Hop as [Hmin Hmax].
    destruct (b64_pid_set_output_limits_inv pid min max Hmin Hmax Hlim Hout)
      as [Hlim' Hout'].
    by apply IH.
Qed.

(** In every state the controller reaches from [pid_init] by calls of
    [pid_compute], [pid_reset] and [pid_set_output_limits], the limits
    passed to the latter being numbers, the output limits are strictly
    ordered and the stored output is within them or a NaN; a further
    [pid_compute], with any temperature and time step, returns a value
    within the limits or a NaN. *)
Theorem pid_run_output_within_bounds (pid0 : B64.pid_state_t)
    (kp ki kd setpoint : float) (ops : list B64.pid_op)
    (current_temp dt : float) :
  Forall limits_not_nan ops ->
  let pid := B64.pid_run (B64.pid_init pid0 kp ki kd setpoint) ops in
  let out := snd (B64.pid_compute pid current_temp dt) in
  (B64.output_min pid <? B64.output_max pid)%float = true /\
  output_within_limits pid /\
  (is_nan out = true \/
   ((B64.output_min pid <=? out)%float = true /\
    (out <=? B64.output_max pid)%float = true)).
Proof.
  intros Hops pid out.
  destruct (b64_pid_run_inv ops (B64.pid_init pid0 kp ki kd setpoint) Hops)
    as [Hlim Hout].
  { reflexivity. }
  { right. split; reflexivity. }
  fold pid in Hlim, Hout.
  split; [exact Hlim |]. split; [exact Hout |].
  destruct (b64_pid_compute_output_clamped pid current_temp dt Hlim)
    as [_ H].
  exact H.
Qed.

(** *** The physical limits of a reading *)

(** Whatever the reading, the fan duty and the noise, NaN and the
    infinities among them: the temperature a poll stores is a NaN or lies
    in [5, 105], the voltage and the fan speed it stores are a NaN or not
    negative, and a power reading is left as it is. *)
Theorem sensor_next_value_physical_limits (ty : sensor_type_t)
    (value base_value fan_duty noise : float) :
  let v := B64.sensor_next_value ty value base_value fan_duty noise in
  match ty with
  | SENSOR_TYPE_TEMPERATURE =>
      is_nan v = true \/ ((5 <=? v)%float = true /\ (v <=? 105)%float = true)
  | SENSOR_TYPE_VOLTAGE | SENSOR_TYPE_FAN_RPM =>
      is_nan v = true \/ (0 <=? v)%float = true
  | SENSOR_TYPE_POWER => v = value
  end.
Proof.
  destruct ty; cbn [B64.sensor_next_value]; [| | | reflexivity].
  - cbv zeta.
    generalize (value + (base_value + 15 - fan_duty / 100 * 25 - value) * 0.1
                + noise)%float.
    intros v2.
    assert (K5 : fkey 5 = Some (1, -50, 5629499534213120)) by reflexivity.
    assert (K105 : fkey 105 = Some (1, -46, 7388718138654720)) by reflexivity.
    destruct (v2 <? 5)%float eqn:H1.
    + destruct (105 <? 5)%float eqn:H2; [discriminate H2 |].
      right. split; reflexivity.
    + destruct (105 <? v2)%float eqn:H2.
      * right. split; reflexivity.
      * rewrite ?ltb_key, ?leb_key, ?is_nan_key in *.
        rewrite K5, K105 in *.
        destruct (fkey v2) as [[[a b] c] |]; [| left; reflexivity].
        right. repeat case_bool_decide; try discriminate;
          unfold key_lt, key_le in *; cbn [fst snd] in *; lia.
  - cbv zeta. generalize (base_value + noise)%float. intros v.
    assert (K0 : fkey 0 = Some (0, 0, 0)) by reflexivity.
    destruct (v <? 0)%float eqn:H1; [right; reflexivity |].
    rewrite ?ltb_key, ?leb_key, ?is_nan_key in *. rewrite K0 in *.
    destruct (fkey v) as [[[a b] c] |]; [| left; reflexivity].
    right. repeat case_bool_decide; try discriminate;
      unfold key_lt, key_le in *; cbn [fst snd] in *; lia.
  - cbv zeta. generalize (fan_duty / 100 * (base_value * 2) + noise)%float.
    intros v.
    assert (K0 : fkey 0 = Some (0, 0, 0)) by reflexivity.
    destruct (v <? 0)%float eqn:H1; [right; reflexivity |].
    rewrite ?ltb_key, ?leb_key, ?is_nan_key in *. rewrite K0 in *.
    destruct (fkey v) as [[[a b] c] |]; [| left; reflexivity].
    right. repeat case_bool_decide; try discriminate;
      unfold key_lt, key_le in *; cbn [fst snd] in *; lia.
Qed.

(** ** Arrays *)

Lemma array_get_set {A : Type} (a : list A) (i j : Z) (x y : A) :
  array_get (array_set a i x) j = Some y ->
  (i = j /\ y = x) \/ array_get a j = Some y.
Proof.
  unfold array_get, array_set.
  destruct (i <? 0) eqn:Hi; [auto |].
  destruct (j <? 0) eqn:Hj; [discriminate |].
  apply Z.ltb_ge in Hi, Hj.
  destruct (decide (i = j)) as [-> | Hne].
  - intros H. apply list_lookup_insert_Some in H.
    destruct H as [(_ & <- & _) | (Hneq & _)]; [auto | congruence].
  - rewrite list_lookup_insert_ne by lia. auto.
Qed.

Lemma array_get_set_same {A : Type} (a : list A) (i : Z) (x y : A) :
  array_get (array_set a i x) i = Some y -> y = x.
Proof.
  unfold array_get, array_set.
  destruct (i <? 0) eqn:Hi; [discriminate |].
  intros H. apply list_lookup_insert_Some in H.
  destruct H as [(_ & <- & _) | (Hneq & _)]; [reflexivity | congruence].
Qed.

Lemma array_get_set_ne {A : Type} (a : list A) (i j : Z) (x : A) :
  i <> j -> array_get (array_set a i x) j = array_get a j.
Proof.
  intros Hne. unfold array_get, array_set.
  destruct (i <? 0) eqn:Hi; [reflexivity |].
  destruct (j <? 0) eqn:Hj; [reflexivity |].
  apply Z.ltb_ge in Hi, Hj.
  apply list_lookup_insert_ne. lia.
Qed.

Lemma array_get_set_eq {A : Type} (a : list A) (i : Z) (x : A) :
  0 <= i < Z.of_nat (length a) ->
  array_get (array_set a i x) i = Some x.
Proof.
  intros Hi. unfold array_get, array_set.
  destruct (i <? 0) eqn:E; [apply Z.ltb_lt in E; lia |].
  apply list_lookup_insert_eq. lia.
Qed.

Lemma array_set_length {A : Type} (a : list A) (i : Z) (x : A) :
  length (array_set a i x) = length a.
Proof.
  unfold array_set. destruct (i <? 0); [reflexivity | apply length_insert].
Qed.

Lemma array_get_Some {A : Type} (a : list A) (i : Z) (x : A) :
  array_get a i = Some x -> 0 <= i < Z.of_nat (length a).
Proof.
  unfold array_get. destruct (i <? 0) eqn:E; [discriminate |].
  apply Z.ltb_ge in E. intros H. apply lookup_lt_Some in H. lia.
Qed.

Lemma array_get_lookup {A : Type} (a : list A) (j : nat) :
  array_get a (Z.of_nat j) = a !! j.
Proof.
  unfold array_get. destruct (Z.of_nat j <? 0) eqn:E.
  - apply Z.ltb_lt in E. lia.
  - by rewrite Nat2Z.id.
Qed.

(** ** Loops that write one slot of an array per iteration *)

Section ArrayLoop.

Context {St A : Type}.
Variable arr : St -> list A.
Variable step : St -> Z -> St.
Variable P : A -> Prop.
Variable covered : Z -> Prop.

(** An iteration leaves the array alone or stores, at its index, an element
    with the property [P]. *)
Hypothesis step_writes :
  forall st i,
    arr (step st i) = arr st \/
    exists x, P x /\ arr (step st i) = array_set (arr st) i x.

(** At a covered index an iteration stores such an element, if the slot
    exists. *)
Hypothesis step_covers :
  forall st i, covered i ->
    (array_get (arr st) i = None /\ arr (step st i) = arr st) \/
    exists x, P x /\ arr (step st i) = array_set (arr st) i x.

Lemma loop_keeps (idx : list Z) (st : St) (j : Z) :
  (forall y, array_get (arr st) j = Some y -> P y) ->
  forall y, array_get (arr (foldl step st idx)) j = Some y -> P y.
Proof.
  revert st. induction idx as [| i rest IH]; intros st Hst; [exact Hst |].
  cbn [foldl]. apply IH. intros y Hy.
  destruct (step_writes st i) as [E | (x & Hx & E)]; rewrite E in Hy.
  - auto.
  - apply array_get_set in Hy. destruct Hy as [[_ ->] | Hy]; auto.
Qed.

Lemma loop_establishes (idx : list Z) (st : St) (j : Z) :
  In j idx -> covered j ->
  forall y, array_get (arr (foldl step st idx)) j = Some y -> P y.
Proof.
  revert st. induction idx as [| i rest IH]; intros st Hin Hcov; [destruct Hin |].
  cbn [foldl]. destruct Hin as [-> | Hin]; [| by apply IH].
  apply loop_keeps. intros y Hy.
  destruct (step_covers st j Hcov) as [[Hnone E] | (x & Hx & E)]; rewrite E in Hy.
  - congruence.
  - apply array_get_set_same in Hy. by subst y.
Qed.

End ArrayLoop.

(** ** The event log leaves the rest of the state alone *)

Lemma sel_add_entry_frame (state : bmc_state_t) (now : Z)
    (sev : sel_severity_t) (src msg : string) :
  let state' := fst (sel_add_entry state now sev src msg) in
  sensors state' = sensors state /\
  sensor_count state' = sensor_count state /\
  pid state' = pid state /\
  fan_duty_percent state' = fan_duty_percent state /\
  fw_images state' = fw_images state /\
  fw_image_count state' = fw_image_count state /\
  secure_boot_passed state' = secure_boot_passed state /\
  running state' = running state.
Proof.
  unfold sel_add_entry.
  destruct (sel_count state >=? MAX_SEL_ENTRIES); cbn; repeat split.
Qed.

Lemma sel_add_entry_sensors (state : bmc_state_t) (now : Z)
    (sev : sel_severity_t) (src msg : string) :
  sensors (fst (sel_add_entry state now sev src msg)) = sensors state.
Proof. apply sel_add_entry_frame. Qed.

Lemma sel_add_entry_sensor_count (state : bmc_state_t) (now : Z)
    (sev : sel_severity_t) (src msg : string) :
  sensor_count (fst (sel_add_entry state now sev src msg)) = sensor_count state.
Proof. apply sel_add_entry_frame. Qed.

Lemma sel_add_entry_fw_images (state : bmc_state_t) (now : Z)
    (sev : sel_severity_t) (src msg : string) :
  fw_images (fst (sel_add_entry state now sev src msg)) = fw_images state.
Proof. apply sel_add_entry_frame. Qed.

Lemma sel_add_entry_fw_image_count (state : bmc_state_t) (now : Z)
    (sev : sel_severity_t) (src msg : string) :
  fw_image_count (fst (sel_add_entry state now sev src msg)) = fw_image_count state.
Proof. apply sel_add_entry_frame. Qed.

(** ** Sensors *)

Lemma evaluate_status_not_absent (s : sensor_reading_t) :
  evaluate_status s <> SENSOR_STATUS_ABSENT.
Proof.
  unfold evaluate_status.
  destruct (type s);
    repeat match goal with
           | |- context [if ?c then _ else _] => destruct c
           end; discriminate.
Qed.

(** [evaluate_status] computes the classification. *)
Lemma evaluate_status_classification (s : sensor_reading_t) :
  status s = evaluate_status s -> status_classification s.
Proof.
  unfold status_classification, evaluate_status. intros ->.
  destruct (type s); cbv zeta;
    repeat match goal with
           | |- context [if ?c then _ else _] => case_cmp c
           end;
    repeat split; intros; try discriminate; try reflexivity; lra.
Qed.

Lemma sensor_poll_reading_status (s : sensor_reading_t) (cfg : sensor_config_t)
    (fan_duty z : Q) (now : Z) :
  status (sensor_poll_reading s cfg fan_duty z now)
  = evaluate_status (sensor_poll_reading s cfg fan_duty z now).
Proof. reflexivity. Qed.

(** What an iteration of the poll loop does to the sensor array. *)
Lemma sensor_poll_step_sensors (fan_duty : Q) (now : Z) (draws : Z -> Q)
    (state : bmc_state_t) (i : Z) :
  sensors (sensor_poll_step fan_duty now draws state i)
  = match array_get (sensors state) i, array_get default_sensors i with
    | Some s, Some cfg =>
        array_set (sensors state) i
                  (sensor_poll_reading s cfg fan_duty (draws i) now)
    | _, _ => sensors state
    end.
Proof.
  unfold sensor_poll_step.
  destruct (array_get (sensors state) i) as [s |]; [| reflexivity].
  destruct (array_get default_sensors i) as [cfg |]; [| reflexivity].
  cbv zeta.
  destruct (bool_decide _ && bool_decide _); [| reflexivity].
  by rewrite sel_add_entry_sensors.
Qed.

Lemma sensor_poll_step_sensor_count (fan_duty : Q) (now : Z) (draws : Z -> Q)
    (state : bmc_state_t) (i : Z) :
  sensor_count (sensor_poll_step fan_duty now draws state i) = sensor_count state.
Proof.
  unfold sensor_poll_step.
  destruct (array_get (sensors state) i) as [s |]; [| reflexivity].
  destruct (array_get default_sensors i) as [cfg |]; [| reflexivity].
  cbv zeta.
  destruct (bool_decide _ && bool_decide _); [| reflexivity].
  by rewrite sel_add_entry_sensor_count.
Qed.

Lemma default_sensors_covered (i : Z) :
  0 <= i < MAX_SENSORS -> exists cfg, array_get default_sensors i = Some cfg.
Proof.
  unfold MAX_SENSORS. intros Hi.
  assert (Hcases : i = 0 \/ i = 1 \/ i = 2 \/ i = 3 \/ i = 4 \/ i = 5
                   \/ i = 6 \/ i = 7) by lia.
  repeat (destruct Hcases as [-> | Hcases]; [eexists; reflexivity |]).
  subst i. eexists; reflexivity.
Qed.

Section PollLoop.

Variable P : sensor_reading_t -> Prop.
Hypothesis polled :
  forall s cfg fan_duty z now, P (sensor_poll_reading s cfg fan_duty z now).

Lemma sensor_poll_step_writes (fan_duty : Q) (now : Z) (draws : Z -> Q)
    (state : bmc_state_t) (i : Z) :
  sensors (sensor_poll_step fan_duty now draws state i) = sensors state \/
  exists x, P x /\
    sensors (sensor_poll_step fan_duty now draws state i)
    = array_set (sensors state) i x.
Proof.
  rewrite sensor_poll_step_sensors.
  destruct (array_get (sensors state) i) as [s |]; [| by left].
  destruct (array_get default_sensors i) as [cfg |]; [| by left].
  right. eexists. split; [apply polled | reflexivity].
Qed.

Lemma sensor_poll_step_covers (fan_duty : Q) (now : Z) (draws : Z -> Q)
    (state : bmc_state_t) (i : Z) :
  0 <= i < MAX_SENSORS ->
  (array_get (sensors state) i = None /\
   sensors (sensor_poll_step fan_duty now draws state i) = sensors state) \/
  exists x, P x /\
    sensors (sensor_poll_step fan_duty now draws state i)
    = array_set (sensors state) i x.
Proof.
  intros Hi. rewrite sensor_poll_step_sensors.
  destruct (default_sensors_covered i Hi) as [cfg ->].
  destruct (array_get (sensors state) i) as [s |]; [| by left].
  right. eexists. split; [apply polled | reflexivity].
Qed.

(** A poll keeps [P] at every slot where it held. *)
Lemma sensor_poll_keeps (state : bmc_state_t) (fan_duty : Q) (now : Z)
    (draws : Z -> Q) (j : Z) :
  (forall y, array_get (sensors state) j = Some y -> P y) ->
  forall y, array_get (sensors (sensor_poll state fan_duty now draws)) j = Some y ->
            P y.
Proof.
  unfold sensor_poll.
  apply (loop_keeps sensors (sensor_poll_step fan_duty now draws) P).
  intros st i. apply sensor_poll_step_writes.
Qed.

(** A poll establishes [P] at every slot below [sensor_count]. *)
Lemma sensor_poll_establishes (state : bmc_state_t) (fan_duty : Q) (now : Z)
    (draws : Z -> Q) (j : Z) :
  0 <= j < sensor_count state ->
  sensor_count state <= MAX_SENSORS ->
  forall y, array_get (sensors (sensor_poll state fan_duty now draws)) j = Some y ->
            P y.
Proof.
  intros Hj Hcount. unfold sensor_poll.
  apply (loop_establishes sensors (sensor_poll_step fan_duty now draws) P
           (fun i => 0 <= i < MAX_SENSORS)).
  - intros st i. apply sensor_poll_step_writes.
  - intros st i. apply sensor_poll_step_covers.
  - apply list_elem_of_In, elem_of_seqZ. lia.
  - lia.
Qed.

End PollLoop.

Lemma sensor_poll_sensor_count (state : bmc_state_t) (fan_duty : Q) (now : Z)
    (draws : Z -> Q) :
  sensor_count (sensor_poll state fan_duty now draws) = sensor_count state.
Proof.
  unfold sensor_poll. generalize (seqZ 0 (sensor_count state)) as idx.
  intros idx. revert state.
  induction idx as [| i rest IH]; intros state; [reflexivity |].
  cbn [foldl]. rewrite IH. apply sensor_poll_step_sensor_count.
Qed.

Lemma sensor_poll_length (state : bmc_state_t) (fan_duty : Q) (now : Z)
    (draws : Z -> Q) :
  length (sensors (sensor_poll state fan_duty now draws)) = length (sensors state).
Proof.
  unfold sensor_poll. generalize (seqZ 0 (sensor_count state)) as idx.
  intros idx. revert state.
  induction idx as [| i rest IH]; intros state; [reflexivity |].
  cbn [foldl]. rewrite IH, sensor_poll_step_sensors.
  destruct (array_get (sensors state) i); [| reflexivity].
  destruct (array_get default_sensors i); [| reflexivity].
  apply array_set_length.
Qed.

(** C6.  After a poll, the status of every sensor below [sensor_count] is
    the classification of its value against its thresholds: a fan is
    Critical iff [value < min_valid] or [value > max_critical], else
    Warning iff [value > max_warning], else Ok; any other sensor is
    Critical iff [value >= max_critical], else Warning iff
    [value >= max_warning] or [value < min_valid], else Ok. *)
Theorem sensor_poll_classifies (state : bmc_state_t) (fan_duty : Q) (now : Z)
    (draws : Z -> Q) (i : Z) (s : sensor_reading_t) :
  0 <= i < sensor_count state ->
  sensor_count state <= MAX_SENSORS ->
  array_get (sensors (sensor_poll state fan_duty now draws)) i = Some s ->
  status s = evaluate_status s /\ status_classification s.
Proof.
  intros Hi Hcount Hs.
  apply (sensor_poll_establishes
           (fun s => status s = evaluate_status s /\ status_classification s))
    with (state := state) (fan_duty := fan_duty) (now := now) (draws := draws)
         (j := i); try assumption.
  intros s0 cfg fd z t. split; [reflexivity |].
  apply evaluate_status_classification. reflexivity.
Qed.

(** What an iteration of the loop of [sensor_init] does to the array. *)
Lemma sensor_init_step_covers (now : Z) (state : bmc_state_t) (i : Z) :
  0 <= i < MAX_SENSORS ->
  exists x, status x = SENSOR_STATUS_OK /\
    sensors (sensor_init_step now state i) = array_set (sensors state) i x.
Proof.
  intros Hi. unfold sensor_init_step.
  destruct (default_sensors_covered i Hi) as [cfg ->].
  eexists. split; [| reflexivity]. reflexivity.
Qed.

Lemma sensor_init_step_writes (now : Z) (state : bmc_state_t) (i : Z) :
  sensors (sensor_init_step now state i) = sensors state \/
  exists x, status x = SENSOR_STATUS_OK /\
    sensors (sensor_init_step now state i) = array_set (sensors state) i x.
Proof.
  unfold sensor_init_step.
  destruct (array_get default_sensors i) as [cfg |]; [| by left].
  right. eexists. split; [| reflexivity]. reflexivity.
Qed.

Lemma sensor_init_step_frame (now : Z) (state : bmc_state_t) (i : Z) :
  sensor_count (sensor_init_step now state i) = sensor_count state /\
  length (sensors (sensor_init_step now state i)) = length (sensors state).
Proof.
  unfold sensor_init_step.
  destruct (array_get default_sensors i) as [cfg |]; [| by split].
  split; [reflexivity | apply array_set_length].
Qed.

Lemma sensor_init_loop_frame (now : Z) (idx : list Z) (state : bmc_state_t) :
  sensor_count (foldl (sensor_init_step now) state idx) = sensor_count state /\
  length (sensors (foldl (sensor_init_step now) state idx))
  = length (sensors state).
Proof.
  revert state. induction idx as [| i rest IH]; intros state; [by split |].
  cbn [foldl]. destruct (IH (sensor_init_step now state i)) as [-> ->].
  apply sensor_init_step_frame.
Qed.

Lemma sensor_init_frame (state : bmc_state_t) (now : Z) :
  sensor_count (fst (sensor_init state now)) = MAX_SENSORS /\
  length (sensors (fst (sensor_init state now))) = length (sensors state).
Proof.
  unfold sensor_init. cbn [fst].
  change (if NUM_DEFAULT_SENSORS >? MAX_SENSORS then MAX_SENSORS
          else NUM_DEFAULT_SENSORS) with MAX_SENSORS.
  destruct (sensor_init_loop_frame now (seqZ 0 MAX_SENSORS)
              (set_sensors state (sensors state) MAX_SENSORS)) as [-> ->].
  by split.
Qed.

(** [sensor_init] leaves every sensor Ok. *)
Lemma sensor_init_all_ok (state : bmc_state_t) (now : Z) (j : Z)
    (s : sensor_reading_t) :
  0 <= j < MAX_SENSORS ->
  array_get (sensors (fst (sensor_init state now))) j = Some s ->
  status s = SENSOR_STATUS_OK.
Proof.
  intros Hj. unfold sensor_init. cbn [fst].
  change (if NUM_DEFAULT_SENSORS >? MAX_SENSORS then MAX_SENSORS
          else NUM_DEFAULT_SENSORS) with MAX_SENSORS.
  apply (loop_establishes sensors (sensor_init_step now)
           (fun x => status x = SENSOR_STATUS_OK)
           (fun i => 0 <= i < MAX_SENSORS)).
  - intros st i. apply sensor_init_step_writes.
  - intros st i Hi. right. by apply sensor_init_step_covers.
  - apply list_elem_of_In, elem_of_seqZ. lia.
  - exact Hj.
Qed.

Lemma run_polls_sensor_count (state : bmc_state_t)
    (polls : list (Q * Z * (Z -> Q))) :
  sensor_count (run_polls state polls) = sensor_count state /\
  length (sensors (run_polls state polls)) = length (sensors state).
Proof.
  unfold run_polls. revert state.
  induction polls as [| [[fd now] draws] rest IH]; intros state; [by split |].
  cbn [foldl]. destruct (IH (sensor_poll state fd now draws)) as [-> ->].
  split; [apply sensor_poll_sensor_count | apply sensor_poll_length].
Qed.

Lemma run_polls_keeps (P : sensor_reading_t -> Prop) :
  (forall s cfg fan_duty z now, P (sensor_poll_reading s cfg fan_duty z now)) ->
  forall (polls : list (Q * Z * (Z -> Q))) (state : bmc_state_t) (j : Z),
    (forall y, array_get (sensors state) j = Some y -> P y) ->
    forall y, array_get (sensors (run_polls state polls)) j = Some y -> P y.
Proof.
  intros HP polls. unfold run_polls.
  induction polls as [| [[fd now] draws] rest IH]; intros state j Hst; [exact Hst |].
  cbn [foldl]. apply IH. by apply sensor_poll_keeps.
Qed.

(** C8.  The status Absent is never reached: [evaluate_status] returns Ok,
    Warning or Critical; [sensor_init] leaves each of the [MAX_SENSORS]
    sensors Ok; and after [sensor_init] and any sequence of polls, no
    sensor below [sensor_count] is Absent. *)
Theorem sensor_status_never_absent (state0 : bmc_state_t) (now0 : Z)
    (polls : list (Q * Z * (Z -> Q))) :
  let init := fst (sensor_init state0 now0) in
  let final := run_polls init polls in
  (forall s, evaluate_status s = SENSOR_STATUS_OK \/
             evaluate_status s = SENSOR_STATUS_WARNING \/
             evaluate_status s = SENSOR_STATUS_CRITICAL) /\
  sensor_count init = MAX_SENSORS /\
  Forall (fun s => status s = SENSOR_STATUS_OK)
         (take (Z.to_nat (sensor_count init)) (sensors init)) /\
  sensor_count final = MAX_SENSORS /\
  length (sensors final) = length (sensors state0) /\
  Forall (fun s => status s <> SENSOR_STATUS_ABSENT)
         (take (Z.to_nat (sensor_count final)) (sensors final)).
Proof.
  intros init final.
  destruct (sensor_init_frame state0 now0) as [Hcount Hlen].
  destruct (run_polls_sensor_count init polls) as [Hcount' Hlen'].
  fold init in Hcount, Hlen. fold final in Hcount', Hlen'.
  split; [| split; [exact Hcount | split; [| split; [congruence | split; [congruence |]]]]].
  - intros s. pose proof (evaluate_status_not_absent s).
    destruct (evaluate_status s); auto. congruence.
  - rewrite Hcount. apply Forall_lookup. intros j s Hs.
    apply lookup_take_Some in Hs. destruct Hs as [Hs Hj].
    apply (sensor_init_all_ok state0 now0 (Z.of_nat j)).
    + unfold MAX_SENSORS in *. lia.
    + by rewrite array_get_lookup.
  - rewrite Hcount', Hcount. apply Forall_lookup. intros j s Hs.
    apply lookup_take_Some in Hs. destruct Hs as [Hs Hj].
    apply (run_polls_keeps (fun s => status s <> SENSOR_STATUS_ABSENT))
      with (polls := polls) (state := init) (j := Z.of_nat j).
    + intros s0 cfg fd z t. apply evaluate_status_not_absent.
    + intros y Hy.
      rewrite (sensor_init_all_ok state0 now0 (Z.of_nat j) y); [discriminate | |].
      * unfold MAX_SENSORS in *. lia.
      * exact Hy.
    + by rewrite array_get_lookup.
Qed.

(** The thresholds of every row of the sensor table are in order, and so
    are those of every sensor after [sensor_init]. *)
Theorem sensor_thresholds_in_order (now : Z) :
  Forall (fun cfg => (cfg_min_valid cfg <= cfg_max_warning cfg)%Q /\
                     (cfg_max_warning cfg <= cfg_max_critical cfg)%Q)
         default_sensors /\
  Forall thresholds_ordered (sensors (fst (sensor_init bmc_state_init now))).
Proof.
  split.
  - repeat constructor; vm_compute; discriminate.
  - unfold sensor_init. cbn -[Qle thresholds_ordered].
    repeat constructor; vm_compute; discriminate.
Qed.

(** ** The event log *)

Lemma sel_entries_from_length (id0 : Z) (args : list sel_args) :
  length (sel_entries_from id0 args) = length args.
Proof.
  revert id0. induction args as [| a rest IH]; intros id0; [reflexivity |].
  cbn. by rewrite IH.
Qed.

Lemma sel_entries_from_ids (id0 : Z) (args : list sel_args) :
  map id (sel_entries_from id0 args) = seqZ id0 (Z.of_nat (length args)).
Proof.
  revert id0. induction args as [| a rest IH]; intros id0; [reflexivity |].
  cbn [sel_entries_from map length].
  rewrite IH, Nat2Z.inj_succ, (seqZ_cons id0) by lia.
  destruct a as [[[now sev] src] msg]. cbn [sel_entry_of id].
  rewrite Z.pred_succ. reflexivity.
Qed.

Lemma sel_entries_from_app (id0 : Z) (args1 args2 : list sel_args) :
  sel_entries_from id0 (args1 ++ args2)
  = sel_entries_from id0 args1
    ++ sel_entries_from (id0 + Z.of_nat (length args1)) args2.
Proof.
  revert id0. induction args1 as [| a rest IH]; intros id0.
  - cbn. by rewrite Z.add_0_r.
  - cbn [app sel_entries_from length]. rewrite IH. do 3 f_equal. lia.
Qed.

(** One append: the oldest entry leaves when the log is full, the new entry
    goes to the end. *)
Lemma sel_append_live (state : bmc_state_t) (a : sel_args) :
  sel_wf state ->
  sel_live (sel_append state a)
  = (if sel_count state >=? MAX_SEL_ENTRIES then drop 1 (sel_live state)
     else sel_live state)
    ++ [sel_entry_of (sel_next_id state) a].
Proof.
  intros [Hlen Hcount]. destruct a as [[[now sev] src] msg].
  unfold sel_append, sel_add_entry, sel_live, sel_entry_of.
  unfold MAX_SEL_ENTRIES in *.
  destruct (sel_count state >=? 256) eqn:Hfull; cbn [fst sel sel_count set_sel].
  - assert (Hc : sel_count state = 256) by lia. rewrite Hc.
    rewrite (take_ge (sel state)) by lia.
    unfold sel_shift_left, array_set, MAX_SEL_ENTRIES.
    change (255 <? 0) with false. cbv iota.
    rewrite (take_ge (drop 1 (sel state))) by (rewrite length_drop; lia).
    rewrite (insert_app_r_alt _ _ (Z.to_nat 255)) by (rewrite length_drop; lia).
    rewrite length_drop, Hlen.
    destruct (drop (Z.to_nat (256 - 1)) (sel state)) as [| x l] eqn:Hd.
    + apply (f_equal length) in Hd. rewrite length_drop in Hd. cbn in Hd. lia.
    + assert (l = []) as ->.
      { apply (f_equal length) in Hd. rewrite length_drop in Hd. cbn in Hd.
        destruct l; [reflexivity | cbn in Hd; lia]. }
      replace (Z.to_nat 255 - (Z.to_nat 256 - 1))%nat with 0%nat by lia.
      cbn [insert list_insert].
      apply take_ge. rewrite length_app, length_drop. cbn. lia.
  - assert (Hc : 0 <= sel_count state < 256) by lia.
    unfold array_set. destruct (sel_count state <? 0) eqn:E; [lia |].
    replace (Z.to_nat (sel_count state + 1)) with (S (Z.to_nat (sel_count state)))
      by lia.
    erewrite take_S_r; [| apply list_lookup_insert_eq; lia].
    by rewrite take_insert_ge by lia.
Qed.

Lemma sel_append_frame (state : bmc_state_t) (a : sel_args) :
  sel_wf state ->
  sel_wf (sel_append state a) /\
  sel_count (sel_append state a)
  = (if sel_count state >=? MAX_SEL_ENTRIES then MAX_SEL_ENTRIES
     else sel_count state + 1) /\
  sel_next_id (sel_append state a) = (sel_next_id state + 1) mod 2 ^ 32.
Proof.
  intros [Hlen Hcount]. destruct a as [[[now sev] src] msg].
  unfold sel_append, sel_add_entry, sel_wf. unfold MAX_SEL_ENTRIES in *.
  destruct (sel_count state >=? 256) eqn:Hfull;
    cbn [fst sel sel_count sel_next_id set_sel]; rewrite array_set_length.
  - repeat split; try lia.
    unfold sel_shift_left, MAX_SEL_ENTRIES.
    rewrite length_app, length_take, !length_drop. lia.
  - repeat split; try lia.
Qed.

(** The log after a sequence of appends: the entries present before and the
    new ones, in the order of insertion, cut down to the last
    [MAX_SEL_ENTRIES]. *)
Lemma sel_append_all_live (args : list sel_args) (state : bmc_state_t) :
  sel_wf state ->
  0 <= sel_next_id state ->
  sel_next_id state + Z.of_nat (length args) < 2 ^ 32 ->
  let all := sel_live state ++ sel_entries_from (sel_next_id state) args in
  sel_wf (sel_append_all state args) /\
  sel_live (sel_append_all state args)
  = drop (length all - Z.to_nat MAX_SEL_ENTRIES) all /\
  sel_count (sel_append_all state args)
  = Z.min (Z.of_nat (length all)) MAX_SEL_ENTRIES /\
  sel_next_id (sel_append_all state args)
  = sel_next_id state + Z.of_nat (length args).
Proof.
  revert state. induction args as [| a rest IH]; intros state Hwf Hid Hno all.
  - subst all. cbn [sel_append_all foldl sel_entries_from length].
    rewrite app_nil_r. destruct Hwf as [Hlen Hcount].
    assert (Hl : length (sel_live state) = Z.to_nat (sel_count state)).
    { unfold sel_live. rewrite length_take. unfold MAX_SEL_ENTRIES in *. lia. }
    repeat split; try assumption; try lia.
    rewrite Hl. unfold MAX_SEL_ENTRIES in *.
    replace (Z.to_nat (sel_count state) - Z.to_nat 256)%nat with 0%nat by lia.
    reflexivity.
  - cbn [length] in Hno.
    destruct (sel_append_frame state a Hwf) as (Hwf1 & Hcount1 & Hid1).
    pose proof (sel_append_live state a Hwf) as Hlive1.
    rewrite Z.mod_small in Hid1 by lia.
    specialize (IH (sel_append state a) Hwf1).
    rewrite Hid1 in IH.
    destruct IH as (Hwf' & Hlive' & Hcount' & Hid'); [lia | lia |].
    change (sel_append_all state (a :: rest))
      with (sel_append_all (sel_append state a) rest).
    destruct Hwf as [Hlen Hcount].
    assert (Hl : length (sel_live state) = Z.to_nat (sel_count state)).
    { unfold sel_live. rewrite length_take. unfold MAX_SEL_ENTRIES in *. lia. }
    assert (Hall : drop (length (sel_live (sel_append state a)
                                 ++ sel_entries_from (sel_next_id state + 1) rest)
                         - Z.to_nat MAX_SEL_ENTRIES)
                        (sel_live (sel_append state a)
                         ++ sel_entries_from (sel_next_id state + 1) rest)
                   = drop (length all - Z.to_nat MAX_SEL_ENTRIES) all
                   /\ Z.min (Z.of_nat (length (sel_live (sel_append state a)
                                 ++ sel_entries_from (sel_next_id state + 1) rest)))
                            MAX_SEL_ENTRIES
                      = Z.min (Z.of_nat (length all)) MAX_SEL_ENTRIES).
    { subst all. cbn [sel_entries_from]. rewrite Hlive1.
      unfold MAX_SEL_ENTRIES in *.
      destruct (sel_count state >=? 256) eqn:Hfull.
      - assert (Hc : sel_count state = 256) by lia.
        rewrite <- !app_assoc. cbn [app].
        rewrite !length_app, length_drop, Hl, Hc. cbn [length].
        rewrite !sel_entries_from_length.
        split; [| clear; lia].
        replace (Z.to_nat 256 - 1 + S (length rest) - Z.to_nat 256)%nat
          with (length rest) by lia.
        replace (Z.to_nat 256 + S (length rest) - Z.to_nat 256)%nat
          with (1 + length rest)%nat by lia.
        rewrite <- drop_drop. f_equal.
        rewrite drop_app_le by lia. reflexivity.
      - rewrite <- !app_assoc. cbn [app]. split; reflexivity. }
    destruct Hall as [Hall1 Hall2].
    repeat split; try apply Hwf'.
    + rewrite Hlive'. exact Hall1.
    + rewrite Hcount'. exact Hall2.
    + rewrite Hid'. cbn [length]. lia.
Qed.

Lemma drop_seqZ (n : nat) (m len : Z) :
  Z.of_nat n <= len ->
  drop n (seqZ m len) = seqZ (m + Z.of_nat n) (len - Z.of_nat n).
Proof.
  revert m len. induction n as [| n IH]; intros m len Hn.
  - rewrite drop_0. f_equal; lia.
  - rewrite (seqZ_cons m len) by lia. rewrite skipn_cons.
    rewrite IH by lia. f_equal; lia.
Qed.

Lemma seqZ_increasing (m len : Z) (i j : nat) (a b : Z) :
  (i < j)%nat -> seqZ m len !! i = Some a -> seqZ m len !! j = Some b -> a < b.
Proof.
  intros Hij Ha Hb.
  apply lookup_seqZ in Ha, Hb. lia.
Qed.

Lemma ids_increasing_seqZ (entries : list sel_entry_t) (m len : Z) :
  map id entries = seqZ m len -> ids_increasing entries.
Proof.
  intros Hids i j a b Hij Ha Hb.
  apply (seqZ_increasing m len i j); [exact Hij | |].
  - rewrite <- Hids. change (map id entries) with (id <$> entries).
    by rewrite list_lookup_fmap, Ha.
  - rewrite <- Hids. change (map id entries) with (id <$> entries).
    by rewrite list_lookup_fmap, Hb.
Qed.

(** The log after [k] appends to an empty one. *)
Lemma sel_append_all_from_empty (state : bmc_state_t) (args : list sel_args) :
  length (sel state) = Z.to_nat MAX_SEL_ENTRIES ->
  sel_count state = 0 ->
  sel_next_id state = 1 ->
  Z.of_nat (length args) < 2 ^ 32 - 1 ->
  let st := sel_append_all state args in
  let k := length args in
  sel_wf st /\
  sel_count st = Z.of_nat (Nat.min k 256) /\
  sel_live st = drop (k - 256) (sel_entries_from 1 args) /\
  map id (sel_live st)
  = seqZ (1 + Z.of_nat (k - 256)) (Z.of_nat (Nat.min k 256)) /\
  sel_next_id st = 1 + Z.of_nat k.
Proof.
  intros Hlen Hcount Hid Hk st k.
  assert (Hwf : sel_wf state).
  { split; [exact Hlen | rewrite Hcount; unfold MAX_SEL_ENTRIES; lia]. }
  destruct (sel_append_all_live args state Hwf) as (Hwf' & Hlive & Hcnt & Hnext);
    [lia | lia |].
  assert (Hempty : sel_live state = []).
  { unfold sel_live. by rewrite Hcount. }
  rewrite Hempty, Hid in *. cbn [app] in *.
  rewrite sel_entries_from_length in *.
  change (Z.to_nat MAX_SEL_ENTRIES) with 256%nat in *.
  fold st in Hwf', Hlive, Hcnt, Hnext. fold k in Hlive, Hcnt, Hnext.
  split; [exact Hwf' |].
  split; [rewrite Hcnt; unfold MAX_SEL_ENTRIES; lia |].
  split; [exact Hlive |].
  split; [| exact Hnext].
  rewrite Hlive. change (map id ?l) with (id <$> l).
  rewrite fmap_drop. change (id <$> ?l) with (map id l).
  rewrite sel_entries_from_ids. fold k.
  rewrite drop_seqZ by lia. f_equal; lia.
Qed.

(** C4.  From an empty log (count 0, next id 1), 300 appends leave
    [sel_count = 256] with the live entries being the last 256 inserted, in
    the order of insertion, their ids exactly 45..300; the next append gets
    id 301.  After each of the appends the count is at most 256, the live
    entries are the last (at most 256) inserted, oldest first, and their
    ids are consecutive, hence strictly increasing. *)
Theorem sel_ring_overflow (state : bmc_state_t) (args : list sel_args) :
  length (sel state) = Z.to_nat MAX_SEL_ENTRIES ->
  sel_count state = 0 ->
  sel_next_id state = 1 ->
  length args = 300%nat ->
  let final := sel_append_all state args in
  sel_count final = 256 /\
  sel_live final = drop 44 (sel_entries_from 1 args) /\
  map id (sel_live final) = seqZ 45 256 /\
  sel_next_id final = 301 /\
  (forall now sev src msg,
      let next := sel_add_entry final now sev src msg in
      snd next = 301 /\
      last (sel_live (fst next)) = Some (sel_entry_of 301 (now, sev, src, msg)) /\
      sel_count (fst next) = 256) /\
  (forall k : nat, (k <= 300)%nat ->
      let st := sel_append_all state (take k args) in
      sel_count st = Z.of_nat (Nat.min k 256) /\
      sel_count st <= MAX_SEL_ENTRIES /\
      sel_live st = drop (k - 256) (sel_entries_from 1 (take k args)) /\
      map id (sel_live st)
      = seqZ (1 + Z.of_nat (k - 256)) (Z.of_nat (Nat.min k 256)) /\
      ids_increasing (sel_live st)).
Proof.
  intros Hlen Hcount Hid Hargs final.
  destruct (sel_append_all_from_empty state args Hlen Hcount Hid)
    as (Hwf & Hcnt & Hlive & Hids & Hnext); [rewrite Hargs; lia |].
  fold final in Hwf, Hcnt, Hlive, Hids, Hnext.
  rewrite Hargs in Hcnt, Hlive, Hids, Hnext.
  change (Z.of_nat (Nat.min 300 256)) with 256 in *.
  change (300 - 256)%nat with 44%nat in *.
  change (1 + Z.of_nat 44) with 45 in *.
  change (1 + Z.of_nat 300) with 301 in *.
  repeat split; try assumption.
  - unfold sel_add_entry. rewrite Hnext.
    destruct (sel_count final >=? MAX_SEL_ENTRIES); reflexivity.
  - pose proof (sel_append_live final (now, sev, src, msg) Hwf) as Hl.
    unfold sel_append in Hl. rewrite Hl, Hnext. apply last_snoc.
  - destruct (sel_append_frame final (now, sev, src, msg) Hwf) as (_ & Hc & _).
    unfold sel_append in Hc. rewrite Hc, Hcnt. reflexivity.
  - destruct (sel_append_all_from_empty state (take k args) Hlen Hcount Hid)
      as (_ & Hc & _); [rewrite length_take; lia |].
    rewrite length_take, Hargs in Hc.
    replace (Nat.min k 300) with k in Hc by lia. exact Hc.
  - destruct (sel_append_all_from_empty state (take k args) Hlen Hcount Hid)
      as (_ & Hc & _); [rewrite length_take; lia |].
    rewrite Hc. unfold MAX_SEL_ENTRIES. lia.
  - destruct (sel_append_all_from_empty state (take k args) Hlen Hcount Hid)
      as (_ & _ & Hl & _); [rewrite length_take; lia |].
    rewrite length_take, Hargs in Hl.
    replace (Nat.min k 300) with k in Hl by lia. exact Hl.
  - destruct (sel_append_all_from_empty state (take k args) Hlen Hcount Hid)
      as (_ & _ & _ & Hi & _); [rewrite length_take; lia |].
    rewrite length_take, Hargs in Hi.
    replace (Nat.min k 300) with k in Hi by lia. exact Hi.
  - destruct (sel_append_all_from_empty state (take k args) Hlen Hcount Hid)
      as (_ & _ & _ & Hi & _); [rewrite length_take; lia |].
    eapply ids_increasing_seqZ. exact Hi.
Qed.

(** ** IPMI *)

(** The two bytes the handler stores for an [int16_t]. *)
Lemma int16_bytes (raw : Z) :
  [to_uint8 (Z.shiftr raw 8); to_uint8 (Z.land raw 0xFF)] = int16_be raw.
Proof.
  unfold int16_be, to_uint8.
  rewrite Z.shiftr_div_pow2 by lia.
  change 0xFF with (Z.ones 8). rewrite Z.land_ones by lia.
  change (2 ^ 16) with (2 ^ 8 * 2 ^ 8).
  rewrite Z.rem_mul_r by lia.
  change (2 ^ 8) with 256.
  pose proof (Z.mod_pos_bound raw 256 ltac:(lia)) as Hr.
  pose proof (Z.mod_pos_bound (raw / 256) 256 ltac:(lia)) as Hq.
  f_equal; [| f_equal].
  - rewrite Z.mul_comm, Z.div_add by lia.
    rewrite (Z.div_small (raw mod 256)) by lia. lia.
  - rewrite Z.mod_mod by lia.
    rewrite Z.mul_comm, Z.mod_add by lia.
    rewrite Z.mod_mod by lia. reflexivity.
Qed.

Lemma take4_inserts (d : list Z) (b0 b1 b2 b3 : Z) :
  (4 <= length d)%nat ->
  take 4 (<[3%nat := b3]> (<[2%nat := b2]> (<[1%nat := b1]> (<[0%nat := b0]> d))))
  = [b0; b1; b2; b3].
Proof.
  intros Hlen.
  destruct d as [| x0 [| x1 [| x2 [| x3 d]]]]; cbn in Hlen; try lia.
  reflexivity.
Qed.

(** C5, as amended.  A Get Sensor Reading request (netfn 0x04, cmd 0x2D)
    that carries its parameter ([data_len >= 1]) is answered as follows.
    If [data[0]] is not below [sensor_count], the completion code is 0xC9.
    If [data[0]] indexes a sensor and the integral part of [value * 256]
    is an [int16_t], the completion code is 0x00, [data_len] is 4, bytes
    0..1 are that integral part (the fraction of [value * 256] is cut off,
    not rounded) as a signed 16-bit big-endian number, byte 2 is the
    status enumerator and byte 3 the type enumerator.  The state is
    unchanged in both cases. *)
Theorem get_sensor_reading_response (state : bmc_state_t)
    (req : ipmi_request_t) (now : Z) :
  netfn req = IPMI_NETFN_SENSOR ->
  cmd req = IPMI_CMD_GET_SENSOR_READING ->
  1 <= data_len req ->
  (sensor_count state <= req_byte req 0 ->
   ipmi_handle_command state req now
   = Some (state, set_cc zero_response IPMI_CC_INVALID_PARAM)) /\
  (forall s : sensor_reading_t,
      req_byte req 0 < sensor_count state ->
      array_get (sensors state) (req_byte req 0) = Some s ->
      -32768 <= Qtrunc (value s * 256.0)%Q <= 32767 ->
      exists resp : ipmi_response_t,
        ipmi_handle_command state req now = Some (state, resp) /\
        completion_code resp = IPMI_CC_OK /\
        resp_data_len resp = 4 /\
        take 4 (resp_data resp)
        = sensor_encoding (value s)
          ++ [sensor_status_to_Z (status s); sensor_type_to_Z (type s)]).
Proof.
  intros Hnetfn Hcmd Hlen.
  unfold ipmi_handle_command. rewrite Hnetfn, Hcmd. cbn [Z.eqb Pos.eqb].
  change (IPMI_NETFN_SENSOR =? IPMI_NETFN_APP) with false.
  change (IPMI_NETFN_SENSOR =? IPMI_NETFN_SENSOR) with true.
  change (IPMI_CMD_GET_SENSOR_READING =? IPMI_CMD_GET_SENSOR_READING) with true.
  cbv iota. unfold handle_get_sensor_reading.
  destruct (data_len req <? 1) eqn:Hshort; [lia |].
  split.
  - intros Hout.
    destruct (req_byte req 0 >=? sensor_count state) eqn:E; [reflexivity | lia].
  - intros s Hin Hs Hrange.
    destruct (req_byte req 0 >=? sensor_count state) eqn:E; [lia |].
    rewrite Hs. unfold double_to_int16. cbv zeta.
    destruct ((-32768 <=? Qtrunc (value s * 256.0)) &&
              (Qtrunc (value s * 256.0) <=? 32767)) eqn:Hfit; [| lia].
    cbn [option_map]. eexists. split; [reflexivity |].
    cbn [completion_code resp_data_len resp_data].
    split; [reflexivity | split; [reflexivity |]].
    rewrite take4_inserts by (cbn; lia).
    unfold sensor_encoding. rewrite <- int16_bytes. cbn [app].
    f_equal. f_equal. f_equal; [| f_equal].
    + unfold to_uint8. destruct (status s); reflexivity.
    + unfold to_uint8. destruct (type s); reflexivity.
Qed.

(** The request of the specification's scenario: with CPU_Temp at 55.0 the
    answer is 0x00 with the bytes 0x37 0x00, Ok, Temperature. *)
Example get_sensor_reading_cpu_temp :
  option_map (fun r => (completion_code (snd r), take 4 (resp_data (snd r)),
                        resp_data_len (snd r)))
             (ipmi_handle_command (fst (sensor_init bmc_state_init 0))
                (mk_ipmi_request 0x04 0x2D [0] 1) 0)
  = Some (0x00, [0x37; 0x00; 0; 0], 4).
Proof. vm_compute. reflexivity. Qed.

(** The reading of a fan does not fit the 8.8 format: 3000 rpm times 256
    is no [int16_t], and the conversion in the handler is undefined. *)
Lemma get_sensor_reading_fan_undefined :
  ipmi_handle_command (fst (sensor_init bmc_state_init 0))
    (mk_ipmi_request IPMI_NETFN_SENSOR IPMI_CMD_GET_SENSOR_READING [6] 1) 0
  = None.
Proof. vm_compute. reflexivity. Qed.

(** C10.  A request shorter than the parameters of its command is rejected
    with completion code 0xC9 (and an otherwise zeroed response), and the
    state is unchanged: Get Sensor Reading and Set Fan Duty with
    [data_len < 1], Get SEL Entry with [data_len < 2].  The same holds of
    each handler on the response record it is given. *)
Theorem ipmi_short_request_rejected (state : bmc_state_t)
    (req : ipmi_request_t) (now : Z) :
  (netfn req = IPMI_NETFN_SENSOR /\ cmd req = IPMI_CMD_GET_SENSOR_READING
   /\ data_len req < 1) \/
  (netfn req = IPMI_NETFN_SENSOR /\ cmd req = IPMI_CMD_SET_FAN_DUTY
   /\ data_len req < 1) \/
  (netfn req = IPMI_NETFN_STORAGE /\ cmd req = IPMI_CMD_GET_SEL_ENTRY
   /\ data_len req < 2) ->
  ipmi_handle_command state req now
  = Some (state, {| completion_code := IPMI_CC_INVALID_PARAM;
                    resp_data := replicate 256 0;
                    resp_data_len := 0 |}) /\
  (forall resp : ipmi_response_t,
      (data_len req < 1 ->
       handle_get_sensor_reading state req resp
       = Some (set_cc resp IPMI_CC_INVALID_PARAM) /\
       handle_set_fan_duty state req resp now
       = (state, set_cc resp IPMI_CC_INVALID_PARAM)) /\
      (data_len req < 2 ->
       handle_get_sel_entry state req resp
       = set_cc resp IPMI_CC_INVALID_PARAM)).
Proof.
  intros Hreq. split.
  - unfold ipmi_handle_command.
    destruct Hreq as [(Hn & Hc & Hl) | [(Hn & Hc & Hl) | (Hn & Hc & Hl)]];
      rewrite Hn, Hc.
    + change (IPMI_NETFN_SENSOR =? IPMI_NETFN_APP) with false.
      change (IPMI_NETFN_SENSOR =? IPMI_NETFN_SENSOR) with true.
      change (IPMI_CMD_GET_SENSOR_READING =? IPMI_CMD_GET_SENSOR_READING) with true.
      cbv iota. unfold handle_get_sensor_reading.
      destruct (data_len req <? 1) eqn:E; [reflexivity | lia].
    + change (IPMI_NETFN_SENSOR =? IPMI_NETFN_APP) with false.
      change (IPMI_NETFN_SENSOR =? IPMI_NETFN_SENSOR) with true.
      change (IPMI_CMD_SET_FAN_DUTY =? IPMI_CMD_GET_SENSOR_READING) with false.
      change (IPMI_CMD_SET_FAN_DUTY =? IPMI_CMD_SET_FAN_DUTY) with true.
      cbv iota. unfold handle_set_fan_duty.
      destruct (data_len req <? 1) eqn:E; [reflexivity | lia].
    + change (IPMI_NETFN_STORAGE =? IPMI_NETFN_APP) with false.
      change (IPMI_NETFN_STORAGE =? IPMI_NETFN_SENSOR) with false.
      change (IPMI_NETFN_STORAGE =? IPMI_NETFN_STORAGE) with true.
      change (IPMI_CMD_GET_SEL_ENTRY =? IPMI_CMD_GET_SEL_ENTRY) with true.
      cbv iota. unfold handle_get_sel_entry.
      destruct (data_len req <? 2) eqn:E; [reflexivity | lia].
  - intros resp. split.
    + intros Hl. unfold handle_get_sensor_reading, handle_set_fan_duty.
      destruct (data_len req <? 1) eqn:E; [by split | lia].
    + intros Hl. unfold handle_get_sel_entry.
      destruct (data_len req <? 2) eqn:E; [reflexivity | lia].
Qed.

(** Get Device ID (netfn 0x06, cmd 0x01) answers, whatever the request
    carries, with completion code 0x00 and the five bytes 0x20, 0x01, 0x02,
    0x05, 0x02; the state is unchanged. *)
Theorem ipmi_get_device_id_response (state : bmc_state_t) (data : list Z)
    (len now : Z) :
  ipmi_handle_command state
    (mk_ipmi_request IPMI_NETFN_APP IPMI_CMD_GET_DEVICE_ID data len) now
  = Some (state,
          {| completion_code := IPMI_CC_OK;
             resp_data := [0x20; 0x01; 0x02; 0x05; 0x02] ++ replicate 251 0;
             resp_data_len := 5 |}).
Proof. reflexivity. Qed.

(** A request outside the dispatch matrix is answered with completion code
    0xC1 and no data; the state is unchanged. *)
Theorem ipmi_invalid_command (state : bmc_state_t) (req : ipmi_request_t)
    (now : Z) :
  ~ (netfn req = IPMI_NETFN_APP /\ cmd req = IPMI_CMD_GET_DEVICE_ID) ->
  ~ (netfn req = IPMI_NETFN_SENSOR /\
     (cmd req = IPMI_CMD_GET_SENSOR_READING \/ cmd req = IPMI_CMD_SET_FAN_DUTY)) ->
  ~ (netfn req = IPMI_NETFN_STORAGE /\ cmd req = IPMI_CMD_GET_SEL_ENTRY) ->
  ipmi_handle_command state req now
  = Some (state,
          {| completion_code := IPMI_CC_INVALID_CMD;
             resp_data := replicate 256 0;
             resp_data_len := 0 |}).
Proof.
  intros Happ Hsensor Hstorage. unfold ipmi_handle_command.
  destruct (netfn req =? IPMI_NETFN_APP) eqn:E1.
  { apply Z.eqb_eq in E1.
    destruct (cmd req =? IPMI_CMD_GET_DEVICE_ID) eqn:E2; [| reflexivity].
    apply Z.eqb_eq in E2. tauto. }
  destruct (netfn req =? IPMI_NETFN_SENSOR) eqn:E3.
  { apply Z.eqb_eq in E3.
    destruct (cmd req =? IPMI_CMD_GET_SENSOR_READING) eqn:E4;
      [apply Z.eqb_eq in E4; tauto |].
    destruct (cmd req =? IPMI_CMD_SET_FAN_DUTY) eqn:E5; [| reflexivity].
    apply Z.eqb_eq in E5. tauto. }
  destruct (netfn req =? IPMI_NETFN_STORAGE) eqn:E6; [| reflexivity].
  apply Z.eqb_eq in E6.
  destruct (cmd req =? IPMI_CMD_GET_SEL_ENTRY) eqn:E7; [| reflexivity].
  apply Z.eqb_eq in E7. tauto.
Qed.

(** ** Secure boot *)

Section SecureBootProperties.

Variable SHA256 : list Z -> list Z.
Variable rand_stream : Z -> nat -> Z.

(** One iteration on an image whose blob cannot be read: the image is
    marked, and the loop goes on with the indices that remain. *)
Lemma verify_step_unreadable (fs : filesystem) (now : Z) (i : Z) (rest : list Z)
    (state : bmc_state_t) (all_passed : bool) (fw : fw_image_t) :
  array_get (fw_images state) i = Some fw ->
  fs !! fw_path (fw_name fw) = None ->
  exists state',
    secure_boot_verify_loop SHA256 fs now (i :: rest) state all_passed
    = secure_boot_verify_loop SHA256 fs now rest state' false /\
    fw_images state' = array_set (fw_images state) i (fw_unreadable fw) /\
    fw_image_count state' = fw_image_count state.
Proof.
  intros Hfw Hfs. cbn [secure_boot_verify_loop].
  rewrite Hfw. unfold compute_file_hash. rewrite Hfs.
  eexists. split; [reflexivity |].
  rewrite sel_add_entry_fw_images, sel_add_entry_fw_image_count.
  split; reflexivity.
Qed.

(** One iteration on a readable image whose hash matches: the loop goes
    on. *)
Lemma verify_step_pass (fs : filesystem) (now : Z) (i : Z) (rest : list Z)
    (state : bmc_state_t) (all_passed : bool) (fw : fw_image_t)
    (content : list Z) :
  array_get (fw_images state) i = Some fw ->
  fs !! fw_path (fw_name fw) = Some content ->
  expected_hash fw = hex_digest (SHA256 content) ->
  exists state',
    secure_boot_verify_loop SHA256 fs now (i :: rest) state all_passed
    = secure_boot_verify_loop SHA256 fs now rest state' all_passed /\
    fw_images state'
    = array_set (fw_images state) i (fw_checked fw (hex_digest (SHA256 content))) /\
    passed (fw_checked fw (hex_digest (SHA256 content))) = true /\
    fw_image_count state' = fw_image_count state.
Proof.
  intros Hfw Hfs Hhash. cbn [secure_boot_verify_loop].
  rewrite Hfw. unfold compute_file_hash. rewrite Hfs.
  cbn [passed]. rewrite Hhash, String.eqb_refl.
  eexists. split; [reflexivity |].
  rewrite sel_add_entry_fw_images, sel_add_entry_fw_image_count.
  unfold fw_checked. rewrite Hhash, String.eqb_refl.
  repeat split; reflexivity.
Qed.

(** One iteration on a readable image whose hash differs: the loop stops. *)
Lemma verify_step_mismatch (fs : filesystem) (now : Z) (i : Z) (rest : list Z)
    (state : bmc_state_t) (all_passed : bool) (fw : fw_image_t)
    (content : list Z) :
  array_get (fw_images state) i = Some fw ->
  fs !! fw_path (fw_name fw) = Some content ->
  expected_hash fw <> hex_digest (SHA256 content) ->
  exists state',
    secure_boot_verify_loop SHA256 fs now (i :: rest) state all_passed
    = (state', false) /\
    fw_images state'
    = array_set (fw_images state) i (fw_checked fw (hex_digest (SHA256 content))) /\
    passed (fw_checked fw (hex_digest (SHA256 content))) = false /\
    fw_image_count state' = fw_image_count state.
Proof.
  intros Hfw Hfs Hhash. cbn [secure_boot_verify_loop].
  rewrite Hfw. unfold compute_file_hash. rewrite Hfs.
  apply String.eqb_neq in Hhash.
  cbn [passed]. rewrite Hhash.
  eexists. split; [reflexivity |].
  rewrite sel_add_entry_fw_images, sel_add_entry_fw_image_count.
  unfold fw_checked. rewrite Hhash.
  repeat split; reflexivity.
Qed.

(** The loop over the indices [a .. a + n - 1]. *)
Lemma verify_loop_chain (fs : filesystem) (now : Z) (n : nat) :
  forall (a : Z) (state : bmc_state_t) (all_passed : bool),
    0 <= a ->
    chain_ready fs state a n ->
    let state' :=
      fst (secure_boot_verify_loop SHA256 fs now (seqZ a (Z.of_nat n))
                                   state all_passed) in
    (forall j, j < a \/ a + Z.of_nat n <= j ->
               array_get (fw_images state') j = array_get (fw_images state) j) /\
    (forall i j fwi fwj,
        a <= i < j -> j < a + Z.of_nat n ->
        array_get (fw_images state') i = Some fwi ->
        passed fwi = false ->
        array_get (fw_images state') j = Some fwj ->
        verified fwj = false).
Proof.
  induction n as [| n IH]; intros a state all_passed Ha Hready state'.
  - subst state'. cbn. split; [reflexivity | intros; lia].
  - subst state'. rewrite Nat2Z.inj_succ, (seqZ_cons a) by lia.
    rewrite Z.pred_succ.
    destruct (array_get (fw_images state) a) as [fw |] eqn:Hfw.
    2:{ cbn [secure_boot_verify_loop]. rewrite Hfw. cbn [fst].
        split; [reflexivity |].
        intros i j fwi fwj Hij Hj _ _ Hfwj.
        apply (Hready j fwj); [lia | exact Hfwj]. }
    destruct (Hready a fw ltac:(lia) Hfw) as [Hunv [content Hfs]].
    destruct (decide (expected_hash fw = hex_digest (SHA256 content)))
      as [Hhash | Hhash].
    + destruct (verify_step_pass fs now a (seqZ (Z.succ a) (Z.of_nat n))
                  state all_passed fw content Hfw Hfs Hhash)
        as (state1 & -> & Himgs & Hpass & _).
      assert (Hready1 : chain_ready fs state1 (Z.succ a) n).
      { intros j fwj Hj Hfwj. rewrite Himgs in Hfwj.
        rewrite array_get_set_ne in Hfwj by lia.
        apply (Hready j fwj); [lia | exact Hfwj]. }
      destruct (IH (Z.succ a) state1 all_passed ltac:(lia) Hready1)
        as [Hframe Hchain].
      split.
      * intros j Hj. rewrite Hframe by lia. rewrite Himgs.
        apply array_get_set_ne. lia.
      * intros i j fwi fwj Hij Hj Hfwi Hpi Hfwj.
        destruct (decide (i = a)) as [-> | Hne].
        -- rewrite Hframe in Hfwi by lia. rewrite Himgs in Hfwi.
           apply array_get_set_same in Hfwi. subst fwi. congruence.
        -- apply (Hchain i j fwi fwj); try assumption; lia.
    + destruct (verify_step_mismatch fs now a (seqZ (Z.succ a) (Z.of_nat n))
                  state all_passed fw content Hfw Hfs Hhash)
        as (state1 & -> & Himgs & Hpass & _).
      cbn [fst]. split.
      * intros j Hj. rewrite Himgs. apply array_get_set_ne. lia.
      * intros i j fwi fwj Hij Hj _ _ Hfwj.
        rewrite Himgs in Hfwj. rewrite array_get_set_ne in Hfwj by lia.
        apply (Hready j fwj); [lia | exact Hfwj].
Qed.

Lemma hex_digest_length (digest : list Z) :
  String.length (hex_digest digest) = 64%nat.
Proof. reflexivity. Qed.

Lemma fw_path_values :
  fw_path "bootloader" = "/tmp/bmc_fw_images/bootloader.bin"%string /\
  fw_path "bmc_firmware" = "/tmp/bmc_fw_images/bmc_firmware.bin"%string /\
  fw_path "application" = "/tmp/bmc_fw_images/application.bin"%string /\
  fw_path "config_data" = "/tmp/bmc_fw_images/config_data.bin"%string.
Proof. repeat split. Qed.


Lemma secure_boot_init_step_result (fs : filesystem) (state : bmc_state_t)
    (i : Z) (fw : fw_image_t) (cfg : fw_config_t) :
  array_get (fw_images state) i = Some fw ->
  array_get fw_configs i = Some cfg ->
  secure_boot_init_step SHA256 rand_stream (fs, state) i
  = (<[fw_path (truncate 63 (fwc_name cfg)) := fw_blob rand_stream (42 + i)]> fs,
     set_fw_images state
       (array_set (fw_images state) i
                  (init_image SHA256 rand_stream (truncate 63 (fwc_name cfg)) (42 + i) fw))
       (fw_image_count state)).
Proof.
  intros Hfw Hcfg. unfold secure_boot_init_step. rewrite Hfw, Hcfg.
  unfold compute_file_hash, generate_fw_image. cbn [fst].
  rewrite lookup_insert_eq. reflexivity.
Qed.

Lemma secure_boot_init_result (fs0 : filesystem) (state0 : bmc_state_t) (now : Z)
    (f0 f1 f2 f3 : fw_image_t) :
  fw_images state0 = [f0; f1; f2; f3] ->
  let r := secure_boot_init SHA256 rand_stream fs0 state0 now in
  fw_image_count (snd (fst r)) = 4 /\
  fw_images (snd (fst r))
  = [init_image SHA256 rand_stream "bootloader" 42 f0; init_image SHA256 rand_stream "bmc_firmware" 43 f1;
     init_image SHA256 rand_stream "application" 44 f2; init_image SHA256 rand_stream "config_data" 45 f3] /\
  fst (fst r)
  = <[fw_path "config_data" := fw_blob rand_stream 45]>
      (<[fw_path "application" := fw_blob rand_stream 44]>
         (<[fw_path "bmc_firmware" := fw_blob rand_stream 43]>
            (<[fw_path "bootloader" := fw_blob rand_stream 42]> fs0))).
Proof.
  intros Himgs r. subst r. unfold secure_boot_init.
  change (if NUM_FW_IMAGES >? MAX_FW_IMAGES then MAX_FW_IMAGES else NUM_FW_IMAGES)
    with 4.
  change (seqZ 0 4) with [0; 1; 2; 3].
  rewrite Himgs. cbn [foldl].
  erewrite (secure_boot_init_step_result _ _ 0) by reflexivity.
  erewrite (secure_boot_init_step_result _ _ 1) by reflexivity.
  erewrite (secure_boot_init_step_result _ _ 2) by reflexivity.
  erewrite (secure_boot_init_step_result _ _ 3) by reflexivity.
  cbn [fst snd]. rewrite sel_add_entry_fw_images, sel_add_entry_fw_image_count.
  repeat split.
Qed.

Lemma init_fs_lookup (fs0 : filesystem) :
  init_fs rand_stream fs0 !! fw_path "bootloader" = Some (fw_blob rand_stream 42) /\
  init_fs rand_stream fs0 !! fw_path "bmc_firmware" = Some (fw_blob rand_stream 43) /\
  init_fs rand_stream fs0 !! fw_path "application" = Some (fw_blob rand_stream 44) /\
  init_fs rand_stream fs0 !! fw_path "config_data" = Some (fw_blob rand_stream 45).
Proof.
  unfold init_fs. destruct fw_path_values as (-> & -> & -> & ->).
  repeat split.
  - by rewrite !lookup_insert_ne, lookup_insert_eq by done.
  - by rewrite !lookup_insert_ne, lookup_insert_eq by done.
  - by rewrite !lookup_insert_ne, lookup_insert_eq by done.
  - by rewrite lookup_insert_eq.
Qed.

Lemma secure_boot_verify_unfold (fs : filesystem) (state : bmc_state_t) (now : Z) :
  secure_boot_verify SHA256 fs state now
  = (set_secure_boot_passed
       (fst (secure_boot_verify_loop SHA256 fs now
               (seqZ 0 (fw_image_count state)) state true))
       (snd (secure_boot_verify_loop SHA256 fs now
               (seqZ 0 (fw_image_count state)) state true)),
     snd (secure_boot_verify_loop SHA256 fs now
            (seqZ 0 (fw_image_count state)) state true)).
Proof.
  unfold secure_boot_verify.
  destruct (secure_boot_verify_loop SHA256 fs now _ state true). reflexivity.
Qed.

Lemma secure_boot_inject_tamper_result (fs : filesystem) (state : bmc_state_t)
    (i : Z) (now : Z) (fw : fw_image_t) (content : list Z) :
  0 <= i < fw_image_count state ->
  array_get (fw_images state) i = Some fw ->
  fs !! fw_path (fw_name fw) = Some content ->
  exists state',
    secure_boot_inject_tamper fs state i now
    = (<[fw_path (fw_name fw) := 255 :: drop 1 content]> fs, state', 0) /\
    fw_images state' = fw_images state /\
    fw_image_count state' = fw_image_count state.
Proof.
  intros Hi Hfw Hfs. unfold secure_boot_inject_tamper.
  destruct ((i <? 0) || (i >=? fw_image_count state)) eqn:E; [lia |].
  rewrite Hfw, Hfs. eexists. split; [reflexivity |].
  by rewrite sel_add_entry_fw_images, sel_add_entry_fw_image_count.
Qed.

(** The tamper scenario: [secure_boot_init], then [tamper(1)], then one
    [secure_boot_verify]. *)
Lemma tamper_scenario (fs0 : filesystem) (state0 : bmc_state_t)
    (now0 now1 now2 : Z) :
  length (fw_images state0) = Z.to_nat MAX_FW_IMAGES ->
  hex_digest (SHA256 (255 :: drop 1 (fw_blob rand_stream 43)))
  <> hex_digest (SHA256 (fw_blob rand_stream 43)) ->
  let r1 := secure_boot_init SHA256 rand_stream fs0 state0 now0 in
  let r2 := secure_boot_inject_tamper (fst (fst r1)) (snd (fst r1)) 1 now1 in
  let r3 := secure_boot_verify SHA256 (fst (fst r2)) (snd (fst r2)) now2 in
  snd r2 = 0 /\
  map (fun fw => (fw_name fw, verified fw, passed fw)) (fw_images (fst r3))
  = [("bootloader"%string, true, true); ("bmc_firmware"%string, true, false);
     ("application"%string, false, false); ("config_data"%string, false, false)] /\
  secure_boot_passed (fst r3) = false /\
  snd r3 = false.
Proof.
  intros Hlen Hdiff r1 r2 r3.
  destruct (fw_images state0) as [| f0 [| f1 [| f2 [| f3 [| f4 l]]]]] eqn:Himgs;
    try discriminate Hlen.
  destruct (secure_boot_init_result fs0 state0 now0 f0 f1 f2 f3 Himgs)
    as (Hcount1 & Himgs1 & Hfs1).
  fold r1 in Hcount1, Himgs1, Hfs1. fold (init_fs rand_stream fs0) in Hfs1.
  destruct (init_fs_lookup fs0) as (Hp0 & Hp1 & Hp2 & Hp3).
  destruct (secure_boot_inject_tamper_result (fst (fst r1)) (snd (fst r1)) 1 now1
              (init_image SHA256 rand_stream "bmc_firmware" 43 f1) (fw_blob rand_stream 43))
    as (state2 & Hr2 & Himgs2 & Hcount2).
  { rewrite Hcount1. lia. }
  { rewrite Himgs1. reflexivity. }
  { rewrite Hfs1. exact Hp1. }
  fold r2 in Hr2. cbn [fw_name init_image] in Hr2.
  subst r3. rewrite Hr2. cbn [fst snd].
  rewrite secure_boot_verify_unfold, Hcount2, Hcount1.
  change (seqZ 0 4) with [0; 1; 2; 3].
  rewrite Himgs1 in Himgs2.
  edestruct (verify_step_pass (<[fw_path "bmc_firmware" := 255 :: drop 1 (fw_blob rand_stream 43)]> (fst (fst r1)))
               now2 0 [1; 2; 3] state2 true) as (state3 & -> & Himgs3 & _ & Hcount3).
  { rewrite Himgs2. reflexivity. }
  { cbn [fw_name init_image]. rewrite lookup_insert_ne by done.
    rewrite Hfs1. exact Hp0. }
  { reflexivity. }
  edestruct (verify_step_mismatch (<[fw_path "bmc_firmware" := 255 :: drop 1 (fw_blob rand_stream 43)]> (fst (fst r1)))
               now2 1 [2; 3] state3 true) as (state4 & -> & Himgs4 & _ & Hcount4).
  { rewrite Himgs3, Himgs2. reflexivity. }
  { cbn [fw_name init_image]. apply lookup_insert_eq. }
  { cbn [expected_hash init_image]. congruence. }
  cbn [fst snd secure_boot_passed set_secure_boot_passed fw_images].
  rewrite Himgs4, Himgs3, Himgs2.
  apply not_eq_sym, String.eqb_neq in Hdiff.
  change (Z.to_nat 1) with 1%nat. change (Z.to_nat 0) with 0%nat.
  unfold fw_checked, init_image.
  cbn [insert list_insert map fw_name verified passed expected_hash].
  rewrite Hdiff, String.eqb_refl. repeat split.
Qed.

Lemma fw_checked_again (fw : fw_image_t) (h : string) :
  fw_checked (fw_checked fw h) h = fw_checked fw h.
Proof. reflexivity. Qed.

(** A verification of four readable images whose hashes all match. *)
Lemma verify_four_pass (fs : filesystem) (state : bmc_state_t) (now : Z)
    (i0 i1 i2 i3 : fw_image_t) (c0 c1 c2 c3 : list Z) :
  fw_image_count state = 4 ->
  fw_images state = [i0; i1; i2; i3] ->
  fs !! fw_path (fw_name i0) = Some c0 ->
  fs !! fw_path (fw_name i1) = Some c1 ->
  fs !! fw_path (fw_name i2) = Some c2 ->
  fs !! fw_path (fw_name i3) = Some c3 ->
  expected_hash i0 = hex_digest (SHA256 c0) ->
  expected_hash i1 = hex_digest (SHA256 c1) ->
  expected_hash i2 = hex_digest (SHA256 c2) ->
  expected_hash i3 = hex_digest (SHA256 c3) ->
  let r := secure_boot_verify SHA256 fs state now in
  snd r = true /\
  secure_boot_passed (fst r) = true /\
  fw_image_count (fst r) = 4 /\
  fw_images (fst r)
  = [fw_checked i0 (hex_digest (SHA256 c0)); fw_checked i1 (hex_digest (SHA256 c1));
     fw_checked i2 (hex_digest (SHA256 c2)); fw_checked i3 (hex_digest (SHA256 c3))].
Proof.
  intros Hcount Himgs Hf0 Hf1 Hf2 Hf3 He0 He1 He2 He3 r. subst r.
  rewrite secure_boot_verify_unfold, Hcount.
  change (seqZ 0 4) with [0; 1; 2; 3].
  edestruct (verify_step_pass fs now 0 [1; 2; 3] state true)
    as (sa & -> & Ha & _ & Hca); [by rewrite Himgs | exact Hf0 | exact He0 |].
  rewrite Himgs in Ha.
  edestruct (verify_step_pass fs now 1 [2; 3] sa true)
    as (sb & -> & Hb & _ & Hcb); [by rewrite Ha | exact Hf1 | exact He1 |].
  rewrite Ha in Hb.
  edestruct (verify_step_pass fs now 2 [3] sb true)
    as (sc & -> & Hc & _ & Hcc); [by rewrite Hb | exact Hf2 | exact He2 |].
  rewrite Hb in Hc.
  edestruct (verify_step_pass fs now 3 [] sc true)
    as (sd & -> & Hd & _ & Hcd); [by rewrite Hc | exact Hf3 | exact He3 |].
  rewrite Hc in Hd.
  cbn [secure_boot_verify_loop fst snd fw_images fw_image_count
       set_secure_boot_passed secure_boot_passed].
  repeat split; [congruence | exact Hd].
Qed.

(** The stale-flag scenario: [secure_boot_init], a first
    [secure_boot_verify] (every image passes), [tamper(1)], and a second
    [secure_boot_verify]. *)
Lemma reverify_scenario (fs0 : filesystem) (state0 : bmc_state_t)
    (now0 now1 now2 now3 : Z) :
  length (fw_images state0) = Z.to_nat MAX_FW_IMAGES ->
  hex_digest (SHA256 (255 :: drop 1 (fw_blob rand_stream 43)))
  <> hex_digest (SHA256 (fw_blob rand_stream 43)) ->
  let r1 := secure_boot_init SHA256 rand_stream fs0 state0 now0 in
  let r2 := secure_boot_verify SHA256 (fst (fst r1)) (snd (fst r1)) now1 in
  let r3 := secure_boot_inject_tamper (fst (fst r1)) (fst r2) 1 now2 in
  let r4 := secure_boot_verify SHA256 (fst (fst r3)) (snd (fst r3)) now3 in
  snd r2 = true /\
  map (fun fw => (fw_name fw, verified fw, passed fw)) (fw_images (fst r4))
  = [("bootloader"%string, true, true); ("bmc_firmware"%string, true, false);
     ("application"%string, true, true); ("config_data"%string, true, true)] /\
  snd r4 = false.
Proof.
  intros Hlen Hdiff r1 r2 r3 r4.
  destruct (fw_images state0) as [| f0 [| f1 [| f2 [| f3 [| f4 l]]]]] eqn:Himgs;
    try discriminate Hlen.
  destruct (secure_boot_init_result fs0 state0 now0 f0 f1 f2 f3 Himgs)
    as (Hcount1 & Himgs1 & Hfs1).
  fold r1 in Hcount1, Himgs1, Hfs1. fold (init_fs rand_stream fs0) in Hfs1.
  destruct (init_fs_lookup fs0) as (Hp0 & Hp1 & Hp2 & Hp3).
  rewrite <- Hfs1 in Hp0, Hp1, Hp2, Hp3.
  (* the first verification *)
  destruct (verify_four_pass (fst (fst r1)) (snd (fst r1)) now1 _ _ _ _ _ _ _ _
              Hcount1 Himgs1 Hp0 Hp1 Hp2 Hp3 eq_refl eq_refl eq_refl eq_refl)
    as (Hok2 & _ & Hcount2 & Himgs2).
  fold r2 in Hok2, Hcount2, Himgs2.
  (* the tamper *)
  destruct (secure_boot_inject_tamper_result (fst (fst r1)) (fst r2) 1 now2
              (fw_checked (init_image SHA256 rand_stream "bmc_firmware" 43 f1)
                          (hex_digest (SHA256 (fw_blob rand_stream 43))))
              (fw_blob rand_stream 43))
    as (state3 & Hr3 & Himgs3 & Hcount3).
  { rewrite Hcount2. lia. }
  { rewrite Himgs2. reflexivity. }
  { exact Hp1. }
  split; [exact Hok2 |].
  subst r4 r3. rewrite Hr3. cbn [fst snd fw_name fw_checked init_image].
  rewrite Himgs2 in Himgs3.
  (* the second verification *)
  rewrite secure_boot_verify_unfold, Hcount3, Hcount2.
  change (seqZ 0 4) with [0; 1; 2; 3].
  edestruct (verify_step_pass
               (<[fw_path "bmc_firmware" := 255 :: drop 1 (fw_blob rand_stream 43)]>
                  (fst (fst r1)))
               now3 0 [1; 2; 3] state3 true) as (sa & -> & Ha & _ & Hca).
  { rewrite Himgs3. reflexivity. }
  { cbn [fw_name fw_checked init_image]. rewrite lookup_insert_ne by done.
    exact Hp0. }
  { reflexivity. }
  rewrite Himgs3 in Ha.
  edestruct (verify_step_mismatch
               (<[fw_path "bmc_firmware" := 255 :: drop 1 (fw_blob rand_stream 43)]>
                  (fst (fst r1)))
               now3 1 [2; 3] sa true) as (sb & -> & Hb & _ & Hcb).
  { rewrite Ha. reflexivity. }
  { cbn [fw_name fw_checked init_image]. apply lookup_insert_eq. }
  { cbn [expected_hash fw_checked init_image]. congruence. }
  rewrite Ha in Hb.
  cbn [fst snd fw_images set_secure_boot_passed].
  rewrite Hb.
  apply not_eq_sym, String.eqb_neq in Hdiff.
  change (Z.to_nat 1) with 1%nat. change (Z.to_nat 0) with 0%nat.
  unfold fw_checked, init_image.
  cbn [array_set Z.ltb Z.compare insert list_insert map fw_name verified passed
       expected_hash].
  rewrite Hdiff, !String.eqb_refl. repeat split.
Qed.

(** The unreadable-image scenario: [secure_boot_init], the file of image 0
    removed, then [secure_boot_verify]. *)
Lemma unreadable_scenario (fs0 : filesystem) (state0 : bmc_state_t)
    (now0 now1 : Z) :
  length (fw_images state0) = Z.to_nat MAX_FW_IMAGES ->
  let r1 := secure_boot_init SHA256 rand_stream fs0 state0 now0 in
  let fs2 := delete (fw_path "bootloader") (fst (fst r1)) in
  let r2 := secure_boot_verify SHA256 fs2 (snd (fst r1)) now1 in
  compute_file_hash SHA256 fs2 (fw_path "bootloader") = None /\
  map (fun fw => (fw_name fw, verified fw, passed fw)) (fw_images (snd (fst r1)))
  = [("bootloader"%string, false, false); ("bmc_firmware"%string, false, false);
     ("application"%string, false, false); ("config_data"%string, false, false)] /\
  map (fun fw => (fw_name fw, verified fw, passed fw)) (fw_images (fst r2))
  = [("bootloader"%string, true, false); ("bmc_firmware"%string, true, true);
     ("application"%string, true, true); ("config_data"%string, true, true)] /\
  map actual_hash (fw_images (snd (fst r1))) = map actual_hash (fw_images state0) /\
  map actual_hash (drop 1 (fw_images (fst r2)))
  = map expected_hash (drop 1 (fw_images (snd (fst r1)))) /\
  Forall (fun fw => String.length (actual_hash fw) = 64%nat)
         (drop 1 (fw_images (fst r2))) /\
  secure_boot_passed (fst r2) = false /\
  snd r2 = false.
Proof.
  intros Hlen r1 fs2 r2.
  destruct (fw_images state0) as [| f0 [| f1 [| f2 [| f3 [| f4 l]]]]] eqn:Himgs;
    try discriminate Hlen.
  destruct (secure_boot_init_result fs0 state0 now0 f0 f1 f2 f3 Himgs)
    as (Hcount1 & Himgs1 & Hfs1).
  fold r1 in Hcount1, Himgs1, Hfs1. fold (init_fs rand_stream fs0) in Hfs1.
  destruct (init_fs_lookup fs0) as (Hp0 & Hp1 & Hp2 & Hp3).
  rewrite <- Hfs1 in Hp0, Hp1, Hp2, Hp3.
  pose proof hex_digest_length as Hhl.
  assert (Hq0 : fs2 !! fw_path "bootloader" = None) by apply lookup_delete_eq.
  assert (Hq1 : fs2 !! fw_path "bmc_firmware" = Some (fw_blob rand_stream 43)).
  { unfold fs2. rewrite lookup_delete_ne by done. exact Hp1. }
  assert (Hq2 : fs2 !! fw_path "application" = Some (fw_blob rand_stream 44)).
  { unfold fs2. rewrite lookup_delete_ne by done. exact Hp2. }
  assert (Hq3 : fs2 !! fw_path "config_data" = Some (fw_blob rand_stream 45)).
  { unfold fs2. rewrite lookup_delete_ne by done. exact Hp3. }
  split; [unfold compute_file_hash; by rewrite Hq0 |].
  split; [by rewrite Himgs1 |].
  subst r2. rewrite secure_boot_verify_unfold, Hcount1.
  change (seqZ 0 4) with [0; 1; 2; 3].
  edestruct (verify_step_unreadable fs2 now1 0 [1; 2; 3]
               (snd (fst r1)) true) as (sa & -> & Ha & Hca);
    [by rewrite Himgs1 | exact Hq0 |].
  rewrite Himgs1 in Ha.
  edestruct (verify_step_pass fs2 now1 1 [2; 3] sa false)
    as (sb & -> & Hb & _ & Hcb);
    [by rewrite Ha | exact Hq1 | reflexivity |].
  rewrite Ha in Hb.
  edestruct (verify_step_pass fs2 now1 2 [3] sb false)
    as (sc & -> & Hc & _ & Hcc);
    [by rewrite Hb | exact Hq2 | reflexivity |].
  rewrite Hb in Hc.
  edestruct (verify_step_pass fs2 now1 3 [] sc false)
    as (sd & -> & Hd & _ & Hcd);
    [by rewrite Hc | exact Hq3 | reflexivity |].
  rewrite Hc in Hd.
  cbn [secure_boot_verify_loop fst snd fw_images set_secure_boot_passed
       secure_boot_passed].
  rewrite Hd, Himgs1.
  change (Z.to_nat 3) with 3%nat. change (Z.to_nat 2) with 2%nat.
  change (Z.to_nat 1) with 1%nat. change (Z.to_nat 0) with 0%nat.
  unfold fw_checked, fw_unreadable, init_image.
  cbn [array_set Z.ltb Z.compare insert list_insert map drop fw_name verified
       passed expected_hash actual_hash].
  rewrite !String.eqb_refl. repeat split.
  repeat constructor; apply Hhl.
Qed.

(** [secure_boot_verify] is idempotent when no tampering intervenes: after
    [secure_boot_init], a verification passes, and a second verification
    passes too and leaves every image as the first one left it. *)
Theorem secure_boot_verify_idempotent (fs0 : filesystem) (now0 now1 now2 : Z) :
  let r1 := secure_boot_init SHA256 rand_stream fs0 bmc_state_init now0 in
  let r2 := secure_boot_verify SHA256 (fst (fst r1)) (snd (fst r1)) now1 in
  let r3 := secure_boot_verify SHA256 (fst (fst r1)) (fst r2) now2 in
  snd r2 = true /\ secure_boot_passed (fst r2) = true /\
  snd r3 = true /\ secure_boot_passed (fst r3) = true /\
  fw_images (fst r3) = fw_images (fst r2) /\
  Forall (fun fw => verified fw = true /\ passed fw = true
                    /\ actual_hash fw = expected_hash fw)
         (fw_images (fst r2)).
Proof.
  intros r1 r2 r3.
  destruct (secure_boot_init_result fs0 bmc_state_init now0
              zero_fw_image zero_fw_image zero_fw_image zero_fw_image eq_refl)
    as (Hcount1 & Himgs1 & Hfs1).
  fold r1 in Hcount1, Himgs1, Hfs1. fold (init_fs rand_stream fs0) in Hfs1.
  destruct (init_fs_lookup fs0) as (Hp0 & Hp1 & Hp2 & Hp3).
  rewrite <- Hfs1 in Hp0, Hp1, Hp2, Hp3.
  destruct (verify_four_pass (fst (fst r1)) (snd (fst r1)) now1 _ _ _ _ _ _ _ _
              Hcount1 Himgs1 Hp0 Hp1 Hp2 Hp3 eq_refl eq_refl eq_refl eq_refl)
    as (Hok2 & Hpass2 & Hcount2 & Himgs2).
  fold r2 in Hok2, Hpass2, Hcount2, Himgs2.
  destruct (verify_four_pass (fst (fst r1)) (fst r2) now2 _ _ _ _ _ _ _ _
              Hcount2 Himgs2 Hp0 Hp1 Hp2 Hp3 eq_refl eq_refl eq_refl eq_refl)
    as (Hok3 & Hpass3 & Hcount3 & Himgs3).
  fold r3 in Hok3, Hpass3, Hcount3, Himgs3.
  rewrite !fw_checked_again in Himgs3.
  repeat split; try assumption; [congruence |].
  rewrite Himgs2. unfold fw_checked, init_image.
  repeat constructor; cbn [verified passed actual_hash expected_hash];
    apply String.eqb_refl.
Qed.

(** After [secure_boot_init], every image is unverified and its blob can be
    read. *)
Lemma chain_ready_init (fs0 : filesystem) (state0 : bmc_state_t) (now0 : Z) :
  length (fw_images state0) = Z.to_nat MAX_FW_IMAGES ->
  let r1 := secure_boot_init SHA256 rand_stream fs0 state0 now0 in
  chain_ready (fst (fst r1)) (snd (fst r1)) 0
              (Z.to_nat (fw_image_count (snd (fst r1)))).
Proof.
  intros Hlen r1.
  destruct (fw_images state0) as [| f0 [| f1 [| f2 [| f3 [| f4 l]]]]] eqn:Himgs;
    try discriminate Hlen.
  destruct (secure_boot_init_result fs0 state0 now0 f0 f1 f2 f3 Himgs)
    as (Hcount1 & Himgs1 & Hfs1).
  fold r1 in Hcount1, Himgs1, Hfs1. fold (init_fs rand_stream fs0) in Hfs1.
  destruct (init_fs_lookup fs0) as (Hp0 & Hp1 & Hp2 & Hp3).
  rewrite <- Hfs1 in Hp0, Hp1, Hp2, Hp3.
  rewrite Hcount1. intros j fw Hj Hfw. rewrite Himgs1 in Hfw.
  assert (Hcases : j = 0 \/ j = 1 \/ j = 2 \/ j = 3) by lia.
  destruct Hcases as [-> | [-> | [-> | ->]]];
    injection Hfw as <-; (split; [reflexivity |]); cbn [fw_name init_image]; eauto.
Qed.

(** C1 (what the code does).  After [secure_boot_init], remove the blob of
    image 0 and call [secure_boot_verify].  The blob of image 0 cannot be
    read; the image is marked [verified = true], [passed = false] and the
    verification fails.  But the loop does not stop there: the images after
    it, unverified and with an empty [actual_hash] before the call, are
    hashed and marked [verified = true], [passed = true], their
    [actual_hash] now the 64 hexadecimal digits of the expected hash. *)
Theorem secure_boot_verify_unreadable_goes_on (now0 now1 : Z) :
  let r1 := secure_boot_init SHA256 rand_stream ∅ bmc_state_init now0 in
  let fs2 := delete (fw_path "bootloader") (fst (fst r1)) in
  let r2 := secure_boot_verify SHA256 fs2 (snd (fst r1)) now1 in
  compute_file_hash SHA256 fs2 (fw_path "bootloader") = None /\
  map (fun fw => (fw_name fw, verified fw, passed fw)) (fw_images (snd (fst r1)))
  = [("bootloader"%string, false, false); ("bmc_firmware"%string, false, false);
     ("application"%string, false, false); ("config_data"%string, false, false)] /\
  map (fun fw => (fw_name fw, verified fw, passed fw)) (fw_images (fst r2))
  = [("bootloader"%string, true, false); ("bmc_firmware"%string, true, true);
     ("application"%string, true, true); ("config_data"%string, true, true)] /\
  map actual_hash (fw_images (snd (fst r1)))
  = [""%string; ""%string; ""%string; ""%string] /\
  map actual_hash (drop 1 (fw_images (fst r2)))
  = map expected_hash (drop 1 (fw_images (snd (fst r1)))) /\
  Forall (fun fw => String.length (actual_hash fw) = 64%nat)
         (drop 1 (fw_images (fst r2))) /\
  secure_boot_passed (fst r2) = false /\
  snd r2 = false.
Proof.
  apply (unreadable_scenario ∅ bmc_state_init now0 now1). reflexivity.
Qed.

(** C2, as amended.  Let [secure_boot_verify] be called on a state in which
    every image is unverified ([verified = false], as after
    [secure_boot_init]) and the blob of every image can be read.  If after
    the call image [i] has [passed = false], every image [j > i] has
    [verified = false].  In particular, after [secure_boot_init] followed
    by [tamper(1)] and one [secure_boot_verify], image 0 has
    [passed = true], image 1 has [passed = false], images 2 and 3 have
    [verified = false], and [secure_boot_passed = false]; this holds
    whenever the digest of the tampered blob differs from the digest of
    the original. *)
Theorem secure_boot_verify_chain_break (fs : filesystem) (state : bmc_state_t)
    (now : Z) (fs0 : filesystem) (state0 : bmc_state_t) (now0 now1 now2 : Z) :
  chain_ready fs state 0 (Z.to_nat (fw_image_count state)) ->
  length (fw_images state0) = Z.to_nat MAX_FW_IMAGES ->
  hex_digest (SHA256 (255 :: drop 1 (fw_blob rand_stream 43)))
  <> hex_digest (SHA256 (fw_blob rand_stream 43)) ->
  (forall (i j : Z) (fwi fwj : fw_image_t),
      0 <= i < j -> j < fw_image_count state ->
      array_get (fw_images (fst (secure_boot_verify SHA256 fs state now))) i
      = Some fwi ->
      passed fwi = false ->
      array_get (fw_images (fst (secure_boot_verify SHA256 fs state now))) j
      = Some fwj ->
      verified fwj = false) /\
  (let r1 := secure_boot_init SHA256 rand_stream fs0 state0 now0 in
   let r2 := secure_boot_inject_tamper (fst (fst r1)) (snd (fst r1)) 1 now1 in
   let r3 := secure_boot_verify SHA256 (fst (fst r2)) (snd (fst r2)) now2 in
   snd r2 = 0 /\
   map (fun fw => (fw_name fw, verified fw, passed fw)) (fw_images (fst r3))
   = [("bootloader"%string, true, true); ("bmc_firmware"%string, true, false);
      ("application"%string, false, false); ("config_data"%string, false, false)] /\
   secure_boot_passed (fst r3) = false /\
   snd r3 = false).
Proof.
  intros Hready Hlen Hdiff. split.
  - intros i j fwi fwj Hij Hj Hfwi Hpi Hfwj.
    rewrite secure_boot_verify_unfold in Hfwi, Hfwj.
    cbn [fst fw_images set_secure_boot_passed] in Hfwi, Hfwj.
    destruct (Z_lt_le_dec (fw_image_count state) 0) as [Hneg | Hpos]; [lia |].
    pose proof (verify_loop_chain fs now (Z.to_nat (fw_image_count state)) 0
                  state true ltac:(lia) Hready) as [_ Hchain].
    rewrite Z2Nat.id in Hchain by lia.
    apply (Hchain i j fwi fwj); try assumption; lia.
  - apply tamper_scenario; assumption.
Qed.

End SecureBootProperties.

(** * Further properties *)

(** ** The controller as a function of the temperature *)




(** ** Lookup in the event log *)

(** Case analysis on the integer comparisons of the goal. *)
Ltac case_Zcmp :=
  repeat match goal with
         | |- context [?a <=? ?b] => destruct (Z.leb_spec a b)
         | |- context [?a <? ?b] => destruct (Z.ltb_spec a b)
         | |- context [?a >=? ?b] => rewrite (Z.geb_leb a b)
         | |- context [?a >? ?b] => rewrite (Z.gtb_ltb a b)
         | |- context [?a =? ?b] => destruct (Z.eqb_spec a b)
         end;
  cbn [andb orb negb].

(** A scan of entries whose ids are consecutive finds the entry by its
    offset. *)
Lemma sel_scan_consecutive (entries : list sel_entry_t) :
  forall (m k : Z),
    map id entries = seqZ m (Z.of_nat (length entries)) ->
    sel_scan entries k
    = if (m <=? k) && (k <? m + Z.of_nat (length entries))
      then entries !! Z.to_nat (k - m) else None.
Proof.
  induction entries as [| e rest IH]; intros m k Hids.
  - cbn [sel_scan]. by destruct (_ && _).
  - cbn [length] in Hids. rewrite Nat2Z.inj_succ, (seqZ_cons m) in Hids by lia.
    rewrite Z.pred_succ in Hids. cbn [map] in Hids.
    injection Hids as Hid Hrest.
    cbn [sel_scan length]. rewrite Hid, (IH (Z.succ m) k Hrest).
    case_Zcmp; try lia; try reflexivity.
    + replace (Z.to_nat (k - m)) with (S (Z.to_nat (k - Z.succ m))) by lia.
      reflexivity.
    + replace (Z.to_nat (k - m)) with 0%nat by lia. reflexivity.
Qed.

Lemma sel_entries_from_lookup (args : list sel_args) :
  forall (id0 : Z) (i : nat),
    sel_entries_from id0 args !! i
    = option_map (sel_entry_of (id0 + Z.of_nat i)) (args !! i).
Proof.
  induction args as [| a rest IH]; intros id0 i.
  - reflexivity.
  - destruct i as [| i].
    + cbn. by rewrite Z.add_0_r.
    + cbn [sel_entries_from lookup list_lookup]. rewrite IH.
      replace (id0 + 1 + Z.of_nat i) with (id0 + Z.of_nat (S i)) by lia.
      reflexivity.
Qed.

(** Lookup by id after [sel_init] and a sequence of appends, in closed
    form. *)
Lemma sel_get_entry_window (state : bmc_state_t) (args : list sel_args) (k : Z) :
  length (sel state) = Z.to_nat MAX_SEL_ENTRIES ->
  Z.of_nat (length args) < 2 ^ 32 - 1 ->
  let n := Z.of_nat (length args) in
  sel_get_entry (sel_append_all (fst (sel_init state)) args) k
  = if (Z.max 1 (n - 255) <=? k) && (k <=? n)
    then option_map (sel_entry_of k) (args !! Z.to_nat (k - 1))
    else None.
Proof.
  intros Hlen Hn n.
  set (st := sel_append_all (fst (sel_init state)) args).
  destruct (sel_append_all_from_empty (fst (sel_init state)) args Hlen
              eq_refl eq_refl Hn) as (_ & Hcount & Hlive & Hids & _).
  fold st in Hcount, Hlive, Hids.
  assert (Hll : length (sel_live st) = Nat.min (length args) 256).
  { rewrite <- (length_map id), Hids, length_seqZ. lia. }
  unfold sel_get_entry.
  rewrite (sel_scan_consecutive (sel_live st) (1 + Z.of_nat (length args - 256)) k)
    by (rewrite Hll; exact Hids).
  rewrite Hll. subst n. case_Zcmp; try lia; try reflexivity.
  rewrite Hlive, lookup_drop, sel_entries_from_lookup.
  replace (length args - 256 + Z.to_nat (k - (1 + Z.of_nat (length args - 256))))%nat
    with (Z.to_nat (k - 1)) by lia.
  replace (1 + Z.of_nat (Z.to_nat (k - 1))) with k by lia.
  reflexivity.
Qed.

(** Lookup by id in the log: after [sel_init] and [n] appends, the ids
    [max 1 (n - 255) .. n] are found, each with the entry of the append
    that was given that id; any other id is not found. *)
Theorem sel_get_entry_after_appends (state : bmc_state_t)
    (args : list sel_args) (k : Z) :
  length (sel state) = Z.to_nat MAX_SEL_ENTRIES ->
  Z.of_nat (length args) < 2 ^ 32 - 1 ->
  let st := sel_append_all (fst (sel_init state)) args in
  let n := Z.of_nat (length args) in
  (Z.max 1 (n - 255) <= k <= n ->
   exists a, args !! Z.to_nat (k - 1) = Some a /\
             sel_get_entry st k = Some (sel_entry_of k a)) /\
  (k < Z.max 1 (n - 255) \/ n < k -> sel_get_entry st k = None).
Proof.
  intros Hlen Hn st n. subst st.
  rewrite (sel_get_entry_window state args k Hlen Hn). fold n. split.
  - intros Hk. case_Zcmp; try lia.
    destruct (args !! Z.to_nat (k - 1)) as [a |] eqn:Ha.
    + exists a. by split.
    + apply lookup_ge_None in Ha. lia.
  - intros Hk. case_Zcmp; try lia; reflexivity.
Qed.

(** ** The poll loop in closed form *)

Lemma sel_append_sel_part (s1 s2 : bmc_state_t) (a : sel_args) :
  sel_part s1 = sel_part s2 ->
  sel_part (sel_append s1 a) = sel_part (sel_append s2 a).
Proof.
  unfold sel_part. intros H. injection H as Hsel Hcount Hnext.
  destruct a as [[[now sev] src] msg].
  unfold sel_append, sel_add_entry. rewrite Hsel, Hcount, Hnext.
  destruct (sel_count s2 >=? MAX_SEL_ENTRIES); reflexivity.
Qed.

Lemma sel_append_all_sel_part (args : list sel_args) :
  forall s1 s2 : bmc_state_t,
    sel_part s1 = sel_part s2 ->
    sel_part (sel_append_all s1 args) = sel_part (sel_append_all s2 args).
Proof.
  induction args as [| a rest IH]; intros s1 s2 H; [exact H |].
  apply IH, sel_append_sel_part, H.
Qed.

(** An iteration of the poll loop, as an append to the log. *)
Lemma sensor_poll_step_sel_part (fan_duty : Q) (now : Z) (draws : Z -> Q)
    (state : bmc_state_t) (i : Z) :
  sel_part (sensor_poll_step fan_duty now draws state i)
  = sel_part (match sensor_poll_event fan_duty now draws state i with
              | Some a => sel_append state a
              | None => state
              end).
Proof.
  unfold sensor_poll_step, sensor_poll_event.
  destruct (array_get (sensors state) i) as [s |]; [| reflexivity].
  destruct (array_get default_sensors i) as [cfg |]; [| reflexivity].
  cbv zeta.
  destruct (bool_decide _ && bool_decide _); [| reflexivity].
  unfold sel_append.
  unfold sel_part, sel_add_entry. cbn [sel sel_count sel_next_id set_sensors].
  destruct (sel_count state >=? MAX_SEL_ENTRIES); reflexivity.
Qed.

Lemma sensor_poll_step_slot (fan_duty : Q) (now : Z) (draws : Z -> Q)
    (state : bmc_state_t) (i j : Z) :
  array_get (sensors (sensor_poll_step fan_duty now draws state i)) j
  = if i =? j then sensor_poll_slot fan_duty now draws state j
    else array_get (sensors state) j.
Proof.
  rewrite sensor_poll_step_sensors. unfold sensor_poll_slot.
  destruct (Z.eqb_spec i j) as [-> | Hne].
  - destruct (array_get (sensors state) j) as [s |] eqn:Hs.
    + destruct (array_get default_sensors j) as [cfg |]; [| exact Hs].
      apply array_get_set_eq. eapply array_get_Some, Hs.
    + by destruct (array_get default_sensors j).
  - destruct (array_get (sensors state) i) as [s |]; [| reflexivity].
    destruct (array_get default_sensors i) as [cfg |]; [| reflexivity].
    by apply array_get_set_ne.
Qed.

(** The loop of [sensor_poll] over the indices [a .. a + n - 1], in closed
    form: each slot in the range holds the polled reading of what it held
    before the loop, the others are as they were, and the log has grown by
    the events of the range, in order. *)
Lemma sensor_poll_loop_closed (fan_duty : Q) (now : Z) (draws : Z -> Q) (n : nat) :
  forall (a : Z) (state : bmc_state_t),
    let state' :=
      foldl (sensor_poll_step fan_duty now draws) state (seqZ a (Z.of_nat n)) in
    (forall j,
        array_get (sensors state') j
        = if (a <=? j) && (j <? a + Z.of_nat n)
          then sensor_poll_slot fan_duty now draws state j
          else array_get (sensors state) j) /\
    sel_part state'
    = sel_part (sel_append_all state
                  (omap (sensor_poll_event fan_duty now draws state)
                        (seqZ a (Z.of_nat n)))).
Proof.
  induction n as [| n IH]; intros a state state'.
  - subst state'. cbn. split; [| reflexivity].
    intros j. case_Zcmp; try lia; reflexivity.
  - subst state'. rewrite Nat2Z.inj_succ, (seqZ_cons a) by lia.
    rewrite Z.pred_succ. cbn [foldl].
    set (st1 := sensor_poll_step fan_duty now draws state a).
    destruct (IH (Z.succ a) st1) as [Hslots Hsel].
    assert (Hlater : forall j, a <> j ->
               array_get (sensors st1) j = array_get (sensors state) j).
    { intros j Hj. unfold st1. rewrite sensor_poll_step_slot.
      destruct (Z.eqb_spec a j); [contradiction | reflexivity]. }
    split.
    + intros j. rewrite Hslots.
      destruct (Z.eq_dec a j) as [<- | Hne].
      * case_Zcmp; try lia.
        unfold st1. rewrite sensor_poll_step_slot, Z.eqb_refl. reflexivity.
      * unfold sensor_poll_slot. rewrite (Hlater j Hne).
        case_Zcmp; try lia; reflexivity.
    + rewrite Hsel. cbn [omap list_omap].
      assert (Hev : omap (sensor_poll_event fan_duty now draws st1)
                         (seqZ (Z.succ a) (Z.of_nat n))
                    = omap (sensor_poll_event fan_duty now draws state)
                           (seqZ (Z.succ a) (Z.of_nat n))).
      { apply list_omap_ext. apply Forall2_same_length_lookup_2; [reflexivity |].
        intros k x y Hx Hy. rewrite Hx in Hy. injection Hy as <-.
        apply lookup_seqZ in Hx. unfold sensor_poll_event.
        rewrite (Hlater x) by lia. reflexivity. }
      rewrite Hev.
      pose proof (sensor_poll_step_sel_part fan_duty now draws state a) as Hstep.
      fold st1 in Hstep.
      destruct (sensor_poll_event fan_duty now draws state a) as [ev |].
      * cbn [sel_append_all foldl]. apply sel_append_all_sel_part, Hstep.
      * apply sel_append_all_sel_part, Hstep.
Qed.

(** [sensor_poll] in closed form. *)
Lemma sensor_poll_closed (state : bmc_state_t) (fan_duty : Q) (now : Z)
    (draws : Z -> Q) :
  let state' := sensor_poll state fan_duty now draws in
  (forall j,
      array_get (sensors state') j
      = if (0 <=? j) && (j <? sensor_count state)
        then sensor_poll_slot fan_duty now draws state j
        else array_get (sensors state) j) /\
  sel_part state'
  = sel_part (sel_append_all state (sensor_poll_events fan_duty now draws state)).
Proof.
  intros state'. subst state'. unfold sensor_poll, sensor_poll_events.
  destruct (Z_lt_le_dec (sensor_count state) 0) as [Hneg | Hpos].
  - rewrite seqZ_nil by lia. cbn. split; [| reflexivity].
    intros j. case_Zcmp; try lia; reflexivity.
  - pose proof (sensor_poll_loop_closed fan_duty now draws
                  (Z.to_nat (sensor_count state)) 0 state) as H.
    rewrite Z2Nat.id in H by lia. exact H.
Qed.

Lemma sensor_poll_step_others (fan_duty : Q) (now : Z) (draws : Z -> Q)
    (state : bmc_state_t) (i : Z) :
  let state' := sensor_poll_step fan_duty now draws state i in
  pid state' = pid state /\
  fan_duty_percent state' = fan_duty_percent state /\
  fw_images state' = fw_images state /\
  fw_image_count state' = fw_image_count state /\
  secure_boot_passed state' = secure_boot_passed state /\
  running state' = running state.
Proof.
  unfold sensor_poll_step.
  destruct (array_get (sensors state) i) as [s |]; [| by repeat split].
  destruct (array_get default_sensors i) as [cfg |]; [| by repeat split].
  cbv zeta.
  destruct (bool_decide _ && bool_decide _); [| by repeat split].
  match goal with
  | |- context [sel_add_entry ?st ?t ?sev ?src ?msg] =>
      destruct (sel_add_entry_frame st t sev src msg)
        as (_ & _ & -> & -> & -> & -> & -> & ->)
  end.
  by repeat split.
Qed.

Lemma sensor_poll_others (state : bmc_state_t) (fan_duty : Q) (now : Z)
    (draws : Z -> Q) :
  let state' := sensor_poll state fan_duty now draws in
  pid state' = pid state /\
  fan_duty_percent state' = fan_duty_percent state /\
  fw_images state' = fw_images state /\
  fw_image_count state' = fw_image_count state /\
  secure_boot_passed state' = secure_boot_passed state /\
  running state' = running state.
Proof.
  unfold sensor_poll. generalize (seqZ 0 (sensor_count state)) as idx.
  intros idx. revert state.
  induction idx as [| i rest IH]; intros state; [by repeat split |].
  cbn [foldl].
  destruct (IH (sensor_poll_step fan_duty now draws state i))
    as (-> & -> & -> & -> & -> & ->).
  apply sensor_poll_step_others.
Qed.

(** A poll keeps what identifies a sensor: its name, its type and its
    three thresholds. *)
Lemma sensor_poll_identity (state : bmc_state_t) (fan_duty : Q) (now : Z)
    (draws : Z -> Q) (j : Z) (s' : sensor_reading_t) :
  array_get (sensors (sensor_poll state fan_duty now draws)) j = Some s' ->
  exists s,
    array_get (sensors state) j = Some s /\
    name s' = name s /\ type s' = type s /\
    min_valid s' = min_valid s /\ max_warning s' = max_warning s /\
    max_critical s' = max_critical s.
Proof.
  intros Hs'.
  destruct (sensor_poll_closed state fan_duty now draws) as [Hslots _].
  rewrite Hslots in Hs'.
  destruct ((0 <=? j) && (j <? sensor_count state)); [| by exists s'].
  unfold sensor_poll_slot in Hs'.
  destruct (array_get default_sensors j) as [cfg |]; [| by exists s'].
  destruct (array_get (sensors state) j) as [s |]; [| discriminate Hs'].
  injection Hs' as <-. exists s. by repeat split.
Qed.

(** What a poll leaves alone: the number of sensors and the size of the
    array, the controller, the fan duty, the firmware images and the two
    flags; of each sensor its name, its type and its three thresholds; and
    every slot at or above [sensor_count].  A polled sensor carries the
    time of the poll. *)
Theorem sensor_poll_frame (state : bmc_state_t) (fan_duty : Q) (now : Z)
    (draws : Z -> Q) :
  let state' := sensor_poll state fan_duty now draws in
  sensor_count state' = sensor_count state /\
  length (sensors state') = length (sensors state) /\
  pid state' = pid state /\
  fan_duty_percent state' = fan_duty_percent state /\
  fw_images state' = fw_images state /\
  fw_image_count state' = fw_image_count state /\
  secure_boot_passed state' = secure_boot_passed state /\
  running state' = running state /\
  (forall j s',
      array_get (sensors state') j = Some s' ->
      exists s,
        array_get (sensors state) j = Some s /\
        name s' = name s /\ type s' = type s /\
        min_valid s' = min_valid s /\ max_warning s' = max_warning s /\
        max_critical s' = max_critical s) /\
  (forall j s',
      0 <= j < sensor_count state -> sensor_count state <= MAX_SENSORS ->
      array_get (sensors state') j = Some s' -> last_updated s' = now) /\
  (forall j,
      j < 0 \/ sensor_count state <= j ->
      array_get (sensors state') j = array_get (sensors state) j).
Proof.
  intros state'.
  destruct (sensor_poll_others state fan_duty now draws)
    as (Hpid & Hfan & Himgs & Hcount & Hpassed & Hrun).
  destruct (sensor_poll_closed state fan_duty now draws) as [Hslots _].
  fold state' in Hpid, Hfan, Himgs, Hcount, Hpassed, Hrun, Hslots.
  split; [apply sensor_poll_sensor_count |].
  split; [apply sensor_poll_length |].
  repeat (split; [assumption |]).
  split; [| split].
  - apply sensor_poll_identity.
  - intros j s' Hj Hle Hs'. rewrite Hslots in Hs'.
    destruct (default_sensors_covered j ltac:(lia)) as [cfg Hcfg].
    unfold sensor_poll_slot in Hs'. rewrite Hcfg in Hs'.
    revert Hs'. case_Zcmp; try lia. intros Hs'.
    destruct (array_get (sensors state) j) as [s |]; [| discriminate Hs'].
    by injection Hs' as <-.
  - intros j Hj. rewrite Hslots. case_Zcmp; try lia; reflexivity.
Qed.

Lemma sensor_poll_event_transition (state : bmc_state_t) (fan_duty : Q)
    (now : Z) (draws : Z -> Q) (i : Z) :
  0 <= i < sensor_count state ->
  option_map (fun a : sel_args => (a.1.1.2, a.1.2))
             (sensor_poll_event fan_duty now draws state i)
  = sensor_poll_transition state (sensor_poll state fan_duty now draws) i.
Proof.
  intros Hi.
  destruct (sensor_poll_closed state fan_duty now draws) as [Hslots _].
  unfold sensor_poll_transition. rewrite Hslots.
  replace ((0 <=? i) && (i <? sensor_count state)) with true
    by (symmetry; apply andb_true_iff; split; [apply Z.leb_le | apply Z.ltb_lt]; lia).
  unfold sensor_poll_event, sensor_poll_slot.
  destruct (array_get (sensors state) i) as [s |]; [| reflexivity].
  destruct (array_get default_sensors i) as [cfg |].
  - cbn [option_map]. cbv zeta.
    destruct (bool_decide _ && bool_decide _); reflexivity.
  - cbn [option_map].
    rewrite bool_decide_eq_false_2 by (intros H; by apply H). reflexivity.
Qed.

Lemma omap_option_map {A B C : Type} (f : A -> option B) (g : B -> C)
    (l : list A) :
  map g (omap f l) = omap (fun x => option_map g (f x)) l.
Proof.
  induction l as [| x l IH]; [reflexivity |].
  cbn [omap list_omap]. destruct (f x); cbn [option_map map]; by rewrite IH.
Qed.

Lemma omap_ext_elem {A B : Type} (f g : A -> option B) (l : list A) :
  (forall x, x ∈ l -> f x = g x) -> omap f l = omap g l.
Proof.
  induction l as [| x l IH]; intros H; [reflexivity |].
  cbn [omap list_omap]. rewrite (H x) by apply list_elem_of_here.
  rewrite IH; [reflexivity |]. intros y Hy. apply H. by apply list_elem_of_further.
Qed.

(** The log after a poll is the log before it with one entry appended for
    each sensor, in index order, whose status the poll changed to Warning
    or Critical: a Critical entry for Critical and a Warning entry for
    Warning, each of source "Sensor". *)
Theorem sensor_poll_logs_transitions (state : bmc_state_t) (fan_duty : Q)
    (now : Z) (draws : Z -> Q) :
  let state' := sensor_poll state fan_duty now draws in
  exists entries : list sel_args,
    sel_part state' = sel_part (sel_append_all state entries) /\
    map (fun a : sel_args => (a.1.1.2, a.1.2)) entries
    = omap (sensor_poll_transition state state') (seqZ 0 (sensor_count state)).
Proof.
  intros state'.
  destruct (sensor_poll_closed state fan_duty now draws) as [_ Hsel].
  exists (sensor_poll_events fan_duty now draws state).
  split; [exact Hsel |].
  unfold sensor_poll_events. rewrite omap_option_map.
  apply omap_ext_elem. intros i Hi. apply elem_of_seqZ in Hi.
  apply sensor_poll_event_transition. lia.
Qed.

Lemma default_sensors_base_nonneg (i : Z) (cfg : sensor_config_t) :
  array_get default_sensors i = Some cfg -> (0 <= base_value cfg)%Q.
Proof.
  intros Hcfg. pose proof (array_get_Some _ _ _ Hcfg) as Hi.
  change (Z.of_nat (length default_sensors)) with 8 in Hi.
  assert (Hcases : i = 0 \/ i = 1 \/ i = 2 \/ i = 3 \/ i = 4 \/ i = 5
                   \/ i = 6 \/ i = 7) by lia.
  repeat (destruct Hcases as [-> | Hcases];
          [injection Hcfg as <-; cbn; unfold Qle; cbn; lia |]).
  subst i. injection Hcfg as <-. cbn. unfold Qle. cbn. lia.
Qed.

(** The value a poll computes, as a function of the fan duty: with the
    same reading and the same noise, more fan gives a temperature that is
    no higher and a fan speed that is no lower, and leaves a voltage
    where it is. *)
Lemma sensor_next_value_fan_duty (s : sensor_reading_t) (cfg : sensor_config_t)
    (d1 d2 z : Q) :
  (0 <= base_value cfg)%Q ->
  (d1 <= d2)%Q ->
  match type s with
  | SENSOR_TYPE_TEMPERATURE =>
      (sensor_next_value s cfg d2 z <= sensor_next_value s cfg d1 z)%Q
  | SENSOR_TYPE_FAN_RPM =>
      (sensor_next_value s cfg d1 z <= sensor_next_value s cfg d2 z)%Q
  | _ => sensor_next_value s cfg d1 z = sensor_next_value s cfg d2 z
  end.
Proof.
  intros Hbase Hd. unfold sensor_next_value, gaussian_noise.
  destruct (type s); try reflexivity.
  - cbv zeta.
    set (n := (0 + noise_stddev cfg * z)%Q).
    set (v1 := (value s + (base_value cfg + 15.0 - d1 / 100.0 * 25.0 - value s) * 0.1 + n)%Q).
    set (v2 := (value s + (base_value cfg + 15.0 - d2 / 100.0 * 25.0 - value s) * 0.1 + n)%Q).
    assert (Hv : (v2 <= v1)%Q)
      by (subst v1 v2; unfold Qdiv; cbn [Qinv Qnum Qden]; lra).
    clearbody v1 v2.
    case_cmp (Qltb v1 5.0); case_cmp (Qltb v2 5.0);
      try case_cmp (Qgtb 5.0 105.0);
      try case_cmp (Qgtb v1 105.0); try case_cmp (Qgtb v2 105.0); lra.
  - cbv zeta.
    set (n := (0 + noise_stddev cfg * z)%Q).
    assert (Hm : (d1 / 100.0 * (base_value cfg * 2.0)
                  <= d2 / 100.0 * (base_value cfg * 2.0))%Q).
    { unfold Qdiv. cbn [Qinv Qnum Qden].
      assert (H : (0 <= (base_value cfg * 2.0) * (d2 * (10 # 1000) - d1 * (10 # 1000)))%Q)
        by (apply Qmult_le_0_compat; lra).
      lra. }
    set (v1 := (d1 / 100.0 * (base_value cfg * 2.0) + n)%Q).
    set (v2 := (d2 / 100.0 * (base_value cfg * 2.0) + n)%Q).
    assert (Hv : (v1 <= v2)%Q) by (subst v1 v2; lra).
    clearbody v1 v2.
    case_cmp (Qltb v1 0); case_cmp (Qltb v2 0); lra.
Qed.

(** Cooling is monotone in the fan duty: of two polls of the same state
    with the same noise, the one with the higher duty leaves every
    temperature no higher, every fan speed no lower and every voltage the
    same. *)
Theorem sensor_poll_fan_duty_monotone (state : bmc_state_t) (d1 d2 : Q)
    (now : Z) (draws : Z -> Q) (i : Z) (s1 s2 : sensor_reading_t) :
  (d1 <= d2)%Q ->
  array_get (sensors (sensor_poll state d1 now draws)) i = Some s1 ->
  array_get (sensors (sensor_poll state d2 now draws)) i = Some s2 ->
  type s2 = type s1 /\
  match type s1 with
  | SENSOR_TYPE_TEMPERATURE => (value s2 <= value s1)%Q
  | SENSOR_TYPE_FAN_RPM => (value s1 <= value s2)%Q
  | _ => value s1 = value s2
  end.
Proof.
  intros Hd Hs1 Hs2.
  destruct (sensor_poll_closed state d1 now draws) as [Hslots1 _].
  destruct (sensor_poll_closed state d2 now draws) as [Hslots2 _].
  rewrite Hslots1 in Hs1. rewrite Hslots2 in Hs2.
  assert (Hsame : type s1 = type s1 /\
             match type s1 with
             | SENSOR_TYPE_TEMPERATURE => (value s1 <= value s1)%Q
             | SENSOR_TYPE_FAN_RPM => (value s1 <= value s1)%Q
             | _ => value s1 = value s1
             end).
  { split; [reflexivity |]. destruct (type s1); lra || reflexivity. }
  destruct ((0 <=? i) && (i <? sensor_count state)).
  2:{ rewrite Hs1 in Hs2. injection Hs2 as <-. exact Hsame. }
  unfold sensor_poll_slot in Hs1, Hs2.
  destruct (array_get default_sensors i) as [cfg |] eqn:Hcfg.
  2:{ rewrite Hs1 in Hs2. injection Hs2 as <-. exact Hsame. }
  clear Hsame.
  destruct (array_get (sensors state) i) as [s |]; [| discriminate Hs1].
  injection Hs1 as <-. injection Hs2 as <-.
  split; [reflexivity |].
  cbn [sensor_poll_reading type value].
  apply sensor_next_value_fan_duty; [| exact Hd].
  eapply default_sensors_base_nonneg, Hcfg.
Qed.

(** ** The command handlers *)

(** *** Bytes *)

Lemma byte_pair_lor (b0 b1 : Z) :
  0 <= b1 < 256 -> Z.lor (Z.shiftl b0 8) b1 = b0 * 256 + b1.
Proof.
  intros Hb1. rewrite Z.shiftl_mul_pow2 by lia. change (2 ^ 8) with 256.
  symmetry. apply Z.add_nocarry_lor.
  apply Z.bits_inj'. intros n Hn.
  rewrite Z.land_spec, Z.bits_0.
  destruct (Z_lt_le_dec n 8) as [Hlt | Hge].
  - change 256 with (2 ^ 8). rewrite Z.mul_pow2_bits_low by lia. reflexivity.
  - rewrite (Z.bits_above_log2 b1 n), andb_false_r; [reflexivity | lia |].
    destruct (Z.eq_dec b1 0) as [-> | Hnz]; [cbn; lia |].
    apply Z.lt_le_trans with 8; [| exact Hge].
    apply Z.log2_lt_pow2; lia.
Qed.

Lemma byte_pair_split (b0 b1 : Z) :
  0 <= b0 < 256 -> 0 <= b1 < 256 ->
  to_uint8 (Z.shiftr (b0 * 256 + b1) 8) = b0 /\
  to_uint8 (Z.land (b0 * 256 + b1) 0xFF) = b1.
Proof.
  intros Hb0 Hb1. unfold to_uint8.
  rewrite Z.shiftr_div_pow2 by lia. change (2 ^ 8) with 256.
  change 0xFF with (Z.ones 8). rewrite Z.land_ones by lia.
  change (2 ^ 8) with 256.
  rewrite Z.div_add_l, (Z.div_small b1), Z.add_0_r by lia.
  rewrite (Z.add_comm (b0 * 256)), Z.mod_add, (Z.mod_small b1) by lia.
  split; apply Z.mod_small; lia.
Qed.

Lemma to_uint8_range (z : Z) : 0 <= to_uint8 z < 256.
Proof. unfold to_uint8. apply Z.mod_pos_bound. lia. Qed.

Lemma string_bytes_range (s : string) :
  Forall (fun b => 0 <= b < 256) (string_bytes s).
Proof.
  unfold string_bytes. apply Forall_map, Forall_forall. intros c _. cbn.
  pose proof (N_ascii_bounded c). lia.
Qed.

(** *** [memcpy] into a buffer *)

Lemma memcpy_at_spec (bytes : list Z) :
  forall (a : list Z) (off : nat),
    (off + length bytes <= length a)%nat ->
    memcpy_at a off bytes = take off a ++ bytes ++ drop (off + length bytes) a.
Proof.
  induction bytes as [| b rest IH]; intros a off Hlen.
  - cbn [memcpy_at length app]. rewrite Nat.add_0_r. symmetry. apply take_drop.
  - cbn [memcpy_at length] in *.
    rewrite IH by (rewrite length_insert; lia).
    rewrite drop_insert_lt by lia.
    rewrite (take_S_r (<[off:=b]> a) off b)
      by (apply list_lookup_insert_eq; lia).
    rewrite take_insert_ge by lia.
    rewrite <- app_assoc. cbn [app].
    replace (S off + length rest)%nat with (off + S (length rest))%nat by lia.
    reflexivity.
Qed.

(** *** Lookup in the log *)

Lemma sel_scan_Some (entries : list sel_entry_t) (k : Z) (e : sel_entry_t) :
  sel_scan entries k = Some e -> id e = k /\ e ∈ entries.
Proof.
  induction entries as [| e0 rest IH]; [discriminate |].
  cbn [sel_scan]. destruct (Z.eqb_spec (id e0) k) as [Heq | Hne].
  - intros [= <-]. split; [exact Heq | left].
  - intros H. destruct (IH H) as [Hid Hin]. split; [exact Hid | by right].
Qed.

(** *** [printf] of a whole number *)

Lemma string_app_nil_r (s : string) : (s ++ "")%string = s.
Proof.
  induction s as [| c s IH]; [reflexivity |].
  change (String c (s ++ "") = String c s). by rewrite IH.
Qed.

Lemma format_fixed_0_whole (n : Z) :
  0 <= n -> format_fixed 0 (inject_Z n) = string_of_Z n.
Proof.
  intros Hn. unfold format_fixed.
  change (10 ^ Z.of_nat 0) with 1.
  assert (Hneg : Qltb (inject_Z n) 0 = false).
  { apply Qltb_false. unfold Qle, inject_Z. cbn. lia. }
  rewrite Hneg.
  assert (Hround : round_half_even (Qabs (inject_Z n) * inject_Z 1)%Q = n).
  { unfold round_half_even.
    assert (Hfl : Qfloor (Qabs (inject_Z n) * inject_Z 1)%Q = n).
    { unfold Qfloor, Qabs, inject_Z, Qmult. cbn [Qnum Qden].
      rewrite Z.abs_eq by lia. rewrite Z.mul_1_r. apply Z.div_1_r. }
    rewrite Hfl.
    assert (Hr : Qltb (Qabs (inject_Z n) * inject_Z 1 - inject_Z n)%Q (1 # 2) = true).
    { apply Qltb_true.
      assert (Habs : (Qabs (inject_Z n) == inject_Z n)%Q).
      { apply Qabs_pos. unfold Qle, inject_Z. cbn. lia. }
      assert (E : (Qabs (inject_Z n) * inject_Z 1 - inject_Z n == 0)%Q)
        by (rewrite Habs; change (inject_Z 1) with 1%Q; ring).
      rewrite E. reflexivity. }
    rewrite Hr. reflexivity. }
  rewrite Hround, Z.div_1_r.
  change (string_of_Z n ++ "" = string_of_Z n)%string. apply string_app_nil_r.
Qed.

(** [handle_get_sel_entry] on a zeroed response, in closed form. *)
Lemma handle_get_sel_entry_zero (state : bmc_state_t) (req : ipmi_request_t) :
  2 <= data_len req ->
  let k := Z.lor (Z.shiftl (req_byte req 0) 8) (req_byte req 1) mod 2 ^ 16 in
  handle_get_sel_entry state req zero_response
  = match sel_get_entry state k with
    | None => set_cc zero_response IPMI_CC_INVALID_PARAM
    | Some e =>
        let msg := take 200 (string_bytes (message e)) in
        {| completion_code := IPMI_CC_OK;
           resp_data :=
             [to_uint8 (Z.shiftr (id e) 8); to_uint8 (Z.land (id e) 0xFF);
              to_uint8 (sel_severity_to_Z (severity e))]
             ++ msg ++ replicate (253 - length msg) 0;
           resp_data_len := 3 + Z.of_nat (length msg) |}
    end.
Proof.
  intros Hlen k. unfold handle_get_sel_entry.
  destruct (Z.ltb_spec (data_len req) 2) as [Hlt | _]; [lia |].
  fold k. destruct (sel_get_entry state k) as [e |]; [| reflexivity].
  cbv zeta.
  set (bytes := string_bytes (message e)).
  set (len := if Z.of_nat (length bytes) >? 200 then 200 else Z.of_nat (length bytes)).
  assert (Htake : take (Z.to_nat len) bytes = take 200 bytes).
  { subst len. destruct (Z.gtb_spec (Z.of_nat (length bytes)) 200) as [Hgt | Hle].
    - reflexivity.
    - rewrite Nat2Z.id, !take_ge by lia. reflexivity. }
  assert (Hlen' : Z.of_nat (length (take 200 bytes)) = len).
  { subst len. rewrite length_take.
    destruct (Z.gtb_spec (Z.of_nat (length bytes)) 200); lia. }
  rewrite Htake. f_equal.
  - rewrite memcpy_at_spec.
    2:{ rewrite !length_insert. cbn [zero_response resp_data].
        rewrite length_replicate, length_take. lia. }
    cbn [zero_response resp_data].
    change (take 3 (<[2%nat:=?c]> (<[1%nat:=?b]> (<[0%nat:=?a]> (replicate 256 0)))))
      with [a; b; c].
    cbn [app]. do 3 f_equal. apply (f_equal (app (take 200 bytes))).
    rewrite 3!drop_insert_lt by lia. by rewrite drop_replicate.
  - rewrite <- Hlen'. unfold to_uint8. apply Z.mod_small.
    rewrite length_take. lia.
Qed.

(** The dispatcher on a Get SEL Entry request with the data bytes [b0, b1]. *)
Lemma ipmi_get_sel_entry_dispatch (state : bmc_state_t) (req : ipmi_request_t)
    (now : Z) :
  netfn req = IPMI_NETFN_STORAGE ->
  cmd req = IPMI_CMD_GET_SEL_ENTRY ->
  2 <= data_len req ->
  0 <= req_byte req 0 < 256 ->
  0 <= req_byte req 1 < 256 ->
  let b0 := req_byte req 0 in
  let b1 := req_byte req 1 in
  ipmi_handle_command state req now
  = Some (state,
          match sel_get_entry state (b0 * 256 + b1) with
          | None => set_cc zero_response IPMI_CC_INVALID_PARAM
          | Some e =>
              let msg := take 200 (string_bytes (message e)) in
              {| completion_code := IPMI_CC_OK;
                 resp_data :=
                   [b0; b1; sel_severity_to_Z (severity e)]
                   ++ msg ++ replicate (253 - length msg) 0;
                 resp_data_len := 3 + Z.of_nat (length msg) |}
          end).
Proof.
  intros Hnetfn Hcmd Hlen Hb0 Hb1 b0 b1.
  unfold ipmi_handle_command. rewrite Hnetfn, Hcmd. cbn [Z.eqb Pos.eqb].
  rewrite (handle_get_sel_entry_zero state req Hlen).
  fold b0 b1. rewrite byte_pair_lor by exact Hb1.
  rewrite Z.mod_small by (change (2 ^ 16) with 65536; lia).
  destruct (sel_get_entry state (b0 * 256 + b1)) as [e |] eqn:He; [| reflexivity].
  cbv zeta.
  destruct (sel_scan_Some _ _ _ He) as [Hid _].
  rewrite Hid. destruct (byte_pair_split b0 b1 Hb0 Hb1) as [-> ->].
  do 4 f_equal. by destruct (severity e).
Qed.

(** Get SEL Entry (netfn 0x0A, cmd 0x43) with at least two data bytes
    [b0, b1]: the entry looked up has the 16-bit id [b0 * 256 + b1].  When the
    log has no live entry with that id the answer is 0xC9; otherwise it is
    0x00 with the two id bytes of the request, the severity, and the first
    200 bytes of the message, the rest of the buffer zero, and [data_len]
    3 plus the number of message bytes.  The state is the same after the
    command. *)
Theorem ipmi_get_sel_entry_response (state : bmc_state_t) (req : ipmi_request_t)
    (now : Z) :
  netfn req = IPMI_NETFN_STORAGE ->
  cmd req = IPMI_CMD_GET_SEL_ENTRY ->
  2 <= data_len req ->
  0 <= req_byte req 0 < 256 ->
  0 <= req_byte req 1 < 256 ->
  let b0 := req_byte req 0 in
  let b1 := req_byte req 1 in
  match sel_get_entry state (b0 * 256 + b1) with
  | None =>
      ipmi_handle_command state req now
      = Some (state, set_cc zero_response IPMI_CC_INVALID_PARAM)
  | Some e =>
      let msg := take 200 (string_bytes (message e)) in
      id e = b0 * 256 + b1 /\
      ipmi_handle_command state req now
      = Some (state,
              {| completion_code := IPMI_CC_OK;
                 resp_data :=
                   [b0; b1; sel_severity_to_Z (severity e)]
                   ++ msg ++ replicate (253 - length msg) 0;
                 resp_data_len := 3 + Z.of_nat (length msg) |})
  end.
Proof.
  intros Hnetfn Hcmd Hlen Hb0 Hb1 b0 b1.
  pose proof (ipmi_get_sel_entry_dispatch state req now Hnetfn Hcmd Hlen Hb0 Hb1)
    as H.
  cbv zeta in H. fold b0 b1 in H.
  destruct (sel_get_entry state (b0 * 256 + b1)) as [e |] eqn:He; [| exact H].
  split; [| exact H]. by destruct (sel_scan_Some _ _ _ He).
Qed.

(** What a command that returns leaves of the state. *)
Lemma ipmi_handle_command_frame (state : bmc_state_t) (req : ipmi_request_t)
    (now : Z) (state' : bmc_state_t) (resp : ipmi_response_t) :
  ipmi_handle_command state req now = Some (state', resp) ->
  (~ (netfn req = IPMI_NETFN_SENSOR /\ cmd req = IPMI_CMD_SET_FAN_DUTY) ->
   state' = state) /\
  sensors state' = sensors state /\
  sensor_count state' = sensor_count state /\
  pid state' = pid state /\
  fw_images state' = fw_images state /\
  fw_image_count state' = fw_image_count state /\
  secure_boot_passed state' = secure_boot_passed state /\
  running state' = running state.
Proof.
  unfold ipmi_handle_command. intros H.
  assert (Hsame : state' = state ->
            (~ (netfn req = IPMI_NETFN_SENSOR /\ cmd req = IPMI_CMD_SET_FAN_DUTY) ->
             state' = state) /\
            sensors state' = sensors state /\
            sensor_count state' = sensor_count state /\
            pid state' = pid state /\
            fw_images state' = fw_images state /\
            fw_image_count state' = fw_image_count state /\
            secure_boot_passed state' = secure_boot_passed state /\
            running state' = running state).
  { intros ->. by repeat split. }
  destruct (Z.eqb_spec (netfn req) IPMI_NETFN_APP) as [Happ | Hnapp].
  { apply Hsame. destruct (cmd req =? _); by injection H as <- _. }
  destruct (Z.eqb_spec (netfn req) IPMI_NETFN_SENSOR) as [Hsens | Hnsens].
  - destruct (Z.eqb_spec (cmd req) IPMI_CMD_GET_SENSOR_READING) as [Hget | Hnget].
    { apply Hsame.
      destruct (handle_get_sensor_reading state req zero_response);
        [by injection H as <- _ | discriminate H]. }
    destruct (Z.eqb_spec (cmd req) IPMI_CMD_SET_FAN_DUTY) as [Hset | Hnset].
    2:{ apply Hsame. by injection H as <- _. }
    injection H as H. unfold handle_set_fan_duty in H.
    destruct (data_len req <? 1); [apply Hsame; by injection H as <- _ |].
    destruct (Qltb _ 0 || Qgtb _ 100); [apply Hsame; by injection H as <- _ |].
    injection H as <- _. split; [intros []; by split |].
    match goal with
    | |- context [sel_add_entry ?st ?t ?sev ?src ?msg] =>
        destruct (sel_add_entry_frame st t sev src msg)
          as (-> & -> & -> & _ & -> & -> & -> & ->)
    end.
    by repeat split.
  - apply Hsame.
    destruct (netfn req =? IPMI_NETFN_STORAGE); [| by injection H as <- _].
    destruct (cmd req =? _); by injection H as <- _.
Qed.

(** Set Fan Duty (netfn 0x04, cmd 0x30) with at least one data byte [b]:
    for [b <= 100] the fan duty becomes [b], one Info entry of source
    "IPMI" with the message "Fan duty manually set to b%" is appended to
    the log, and the answer is 0x00 with no data; for [b > 100] the answer
    is 0xC9 and the state is left as it was. *)
Theorem ipmi_set_fan_duty (state : bmc_state_t) (req : ipmi_request_t) (now : Z) :
  netfn req = IPMI_NETFN_SENSOR ->
  cmd req = IPMI_CMD_SET_FAN_DUTY ->
  1 <= data_len req ->
  0 <= req_byte req 0 ->
  let b := req_byte req 0 in
  (b <= 100 ->
   ipmi_handle_command state req now
   = Some (sel_append (set_fan_duty_percent state (inject_Z b))
                      (now, SEL_SEVERITY_INFO, "IPMI",
                       "Fan duty manually set to " ++ string_of_Z b ++ "%")%string,
           zero_response)) /\
  (100 < b ->
   ipmi_handle_command state req now
   = Some (state, set_cc zero_response IPMI_CC_INVALID_PARAM)).
Proof.
  intros Hnetfn Hcmd Hlen Hb b.
  unfold ipmi_handle_command. rewrite Hnetfn, Hcmd. cbn [Z.eqb Pos.eqb].
  unfold handle_set_fan_duty.
  destruct (Z.ltb_spec (data_len req) 1) as [Hlt | _]; [lia |].
  fold b.
  assert (Hneg : Qltb (inject_Z b) 0 = false).
  { apply Qltb_false. unfold Qle, inject_Z. cbn. lia. }
  rewrite Hneg. cbn [orb]. split; intros Hrange.
  - assert (Hgt : Qgtb (inject_Z b) 100 = false).
    { apply Qgtb_false. unfold Qle, inject_Z. cbn. lia. }
    rewrite Hgt, format_fixed_0_whole by lia. reflexivity.
  - assert (Hgt : Qgtb (inject_Z b) 100 = true).
    { apply Qgtb_true. unfold Qlt, inject_Z. cbn. lia. }
    rewrite Hgt. reflexivity.
Qed.

Lemma Some_pair_inv {A B : Type} (a a' : A) (b b' : B) :
  Some (a, b) = Some (a', b') -> a = a' /\ b = b'.
Proof. by intros [= -> ->]. Qed.

Lemma response_well_formed_cc (cc : Z) :
  0 <= cc < 256 -> response_well_formed (set_cc zero_response cc).
Proof.
  intros Hcc. unfold response_well_formed.
  cbn [set_cc zero_response resp_data resp_data_len completion_code].
  repeat split; try lia; try reflexivity. apply Forall_replicate. lia.
Qed.

(** The shape of the response of a command that returns. *)
Lemma ipmi_handle_command_well_formed (state : bmc_state_t) (req : ipmi_request_t)
    (now : Z) (state' : bmc_state_t) (resp : ipmi_response_t) :
  ipmi_handle_command state req now = Some (state', resp) ->
  response_well_formed resp.
Proof.
  unfold ipmi_handle_command. intros H.
  pose proof (response_well_formed_cc IPMI_CC_INVALID_CMD ltac:(unfold IPMI_CC_INVALID_CMD; lia)) as Hcmd.
  pose proof (response_well_formed_cc IPMI_CC_INVALID_PARAM ltac:(unfold IPMI_CC_INVALID_PARAM; lia)) as Hparam.
  destruct (netfn req =? IPMI_NETFN_APP).
  { destruct (cmd req =? _); injection H as _ <-; [| exact Hcmd].
    unfold response_well_formed, handle_get_device_id.
    cbn [zero_response resp_data resp_data_len completion_code].
    split; [reflexivity |]. split; [lia |]. split; [unfold IPMI_CC_OK; lia |].
    split; [| reflexivity].
    do 5 (apply Forall_insert; [| lia]). apply Forall_replicate. lia. }
  destruct (netfn req =? IPMI_NETFN_SENSOR).
  - destruct (cmd req =? IPMI_CMD_GET_SENSOR_READING).
    { unfold handle_get_sensor_reading in H.
      destruct (data_len req <? 1); [injection H as _ <-; exact Hparam |].
      destruct (req_byte req 0 >=? sensor_count state);
        [injection H as _ <-; exact Hparam |].
      destruct (array_get (sensors state) (req_byte req 0)) as [s |];
        [| discriminate H].
      destruct (double_to_int16 _) as [raw |]; [| discriminate H].
      cbn [option_map] in H. destruct (Some_pair_inv _ _ _ _ H) as [_ <-].
      unfold response_well_formed.
      cbn [resp_data resp_data_len completion_code zero_response].
      split; [reflexivity |]. split; [lia |]. split; [unfold IPMI_CC_OK; lia |].
      split; [| reflexivity].
      do 4 (apply Forall_insert; [| apply to_uint8_range]).
      apply Forall_replicate. lia. }
    destruct (cmd req =? IPMI_CMD_SET_FAN_DUTY); [| injection H as _ <-; exact Hcmd].
    injection H as H. unfold handle_set_fan_duty in H.
    destruct (data_len req <? 1); [injection H as _ <-; exact Hparam |].
    destruct (Qltb _ 0 || Qgtb _ 100); [injection H as _ <-; exact Hparam |].
    injection H as _ <-. apply (response_well_formed_cc 0). lia.
  - destruct (netfn req =? IPMI_NETFN_STORAGE); [| injection H as _ <-; exact Hcmd].
    destruct (cmd req =? _); injection H as _ <-; [| exact Hcmd].
    destruct (Z.ltb_spec (data_len req) 2) as [Hlt | Hge].
    { unfold handle_get_sel_entry.
      destruct (Z.ltb_spec (data_len req) 2); [exact Hparam | lia]. }
    rewrite (handle_get_sel_entry_zero state req Hge).
    destruct (sel_get_entry state _) as [e |]; [| exact Hparam].
    cbv zeta. set (msg := take 200 (string_bytes (message e))).
    assert (Hmsg : (length msg <= 200)%nat) by (subst msg; rewrite length_take; lia).
    unfold response_well_formed.
    cbn [resp_data resp_data_len completion_code].
    split; [| split; [| split; [| split]]].
    + cbn [app length]. rewrite length_app, length_replicate. lia.
    + lia.
    + unfold IPMI_CC_OK. lia.
    + do 3 (constructor; [apply to_uint8_range |]).
      apply Forall_app. split.
      * apply Forall_take, string_bytes_range.
      * apply Forall_replicate. lia.
    + replace (Z.to_nat (3 + Z.of_nat (length msg))) with (3 + length msg)%nat by lia.
      cbn [app Nat.add drop]. rewrite drop_app_length. f_equal.
Qed.

(** *** Commands with a defined outcome *)

Lemma ipmi_handle_command_None (state : bmc_state_t) (req : ipmi_request_t)
    (now : Z) :
  ipmi_handle_command state req now = None <->
  sensor_reading_undefined state req = true.
Proof.
  unfold ipmi_handle_command, sensor_reading_undefined.
  destruct (netfn req =? IPMI_NETFN_APP).
  { cbn [negb andb]. by destruct (cmd req =? _). }
  cbn [negb andb].
  destruct (netfn req =? IPMI_NETFN_SENSOR).
  - cbn [andb].
    destruct (cmd req =? IPMI_CMD_GET_SENSOR_READING).
    + cbn [andb]. unfold handle_get_sensor_reading.
      destruct (data_len req <? 1); [done |].
      destruct (req_byte req 0 >=? sensor_count state); [done |].
      cbn [negb andb].
      destruct (array_get (sensors state) (req_byte req 0)) as [s |]; [| done].
      unfold double_to_int16. cbv zeta.
      by destruct ((-32768 <=? _) && (_ <=? 32767)).
    + cbn [andb]. destruct (cmd req =? IPMI_CMD_SET_FAN_DUTY); [| done].
      by destruct (handle_set_fan_duty state req zero_response now).
  - cbn [andb]. destruct (netfn req =? IPMI_NETFN_STORAGE); [| done].
    by destruct (cmd req =? _).
Qed.

Lemma ipmi_handle_command_defined (state : bmc_state_t) (req : ipmi_request_t)
    (now : Z) :
  sensor_reading_undefined state req = false ->
  exists state' resp, ipmi_handle_command state req now = Some (state', resp).
Proof.
  intros Hdef.
  destruct (ipmi_handle_command state req now) as [[state' resp] |] eqn:H;
    [by eexists _, _ |].
  apply ipmi_handle_command_None in H. congruence.
Qed.

(** A fan at 3000 rpm is read by such a request; a voltage is not. *)
Example sensor_reading_undefined_fan :
  sensor_reading_undefined (fst (sensor_init bmc_state_init 0))
    (mk_ipmi_request IPMI_NETFN_SENSOR IPMI_CMD_GET_SENSOR_READING [6] 1) = true /\
  sensor_reading_undefined (fst (sensor_init bmc_state_init 0))
    (mk_ipmi_request IPMI_NETFN_SENSOR IPMI_CMD_GET_SENSOR_READING [3] 1) = false.
Proof. split; reflexivity. Qed.

(** A command that does not run into the undefined conversion of Get
    Sensor Reading returns, and leaves the state as it is unless it is Set
    Fan Duty, which changes the fan duty and the event log only. *)
Theorem ipmi_commands_frame (state : bmc_state_t) (req : ipmi_request_t)
    (now : Z) :
  sensor_reading_undefined state req = false ->
  exists state' resp,
    ipmi_handle_command state req now = Some (state', resp) /\
    (~ (netfn req = IPMI_NETFN_SENSOR /\ cmd req = IPMI_CMD_SET_FAN_DUTY) ->
     state' = state) /\
    sensors state' = sensors state /\
    sensor_count state' = sensor_count state /\
    pid state' = pid state /\
    fw_images state' = fw_images state /\
    fw_image_count state' = fw_image_count state /\
    secure_boot_passed state' = secure_boot_passed state /\
    running state' = running state.
Proof.
  intros Hdef.
  destruct (ipmi_handle_command_defined state req now Hdef)
    as (state' & resp & H).
  exists state', resp. split; [exact H |].
  exact (ipmi_handle_command_frame state req now state' resp H).
Qed.

(** Every response [ipmi_handle_command] writes, to a command that does
    not run into the undefined conversion of Get Sensor Reading, is a
    buffer of 256 bytes with [data_len <= 203] whose bytes at and after
    [data_len] are zero: what the listener sends past the payload is never
    left over from the state or from an earlier command. *)
Theorem ipmi_response_well_formed (state : bmc_state_t) (req : ipmi_request_t)
    (now : Z) :
  sensor_reading_undefined state req = false ->
  exists state' resp,
    ipmi_handle_command state req now = Some (state', resp) /\
    response_well_formed resp.
Proof.
  intros Hdef.
  destruct (ipmi_handle_command_defined state req now Hdef)
    as (state' & resp & H).
  exists state', resp. split; [exact H |].
  exact (ipmi_handle_command_well_formed state req now state' resp H).
Qed.

(** An entry written by [sel_add_entry] is read back by Get SEL Entry: after
    [sel_init] and [n] appends, for an id [k] of the last 256 appends that
    fits 16 bits, the request with the data bytes [k / 256], [k mod 256] is
    answered 0x00 with these two bytes, the severity of the [k]-th append
    and the first 200 bytes of its message. *)
Theorem ipmi_get_sel_entry_round_trip (state : bmc_state_t)
    (args : list sel_args) (k now t : Z) (sev : sel_severity_t)
    (src msg : string) :
  length (sel state) = Z.to_nat MAX_SEL_ENTRIES ->
  Z.of_nat (length args) < 2 ^ 32 - 1 ->
  let st := sel_append_all (fst (sel_init state)) args in
  let n := Z.of_nat (length args) in
  Z.max 1 (n - 255) <= k <= n ->
  k < 65536 ->
  args !! Z.to_nat (k - 1) = Some (t, sev, src, msg) ->
  let payload := take 200 (string_bytes (truncate 255 msg)) in
  ipmi_handle_command st
    (mk_ipmi_request IPMI_NETFN_STORAGE IPMI_CMD_GET_SEL_ENTRY
                     [k / 256; k mod 256] 2) now
  = Some (st,
          {| completion_code := IPMI_CC_OK;
             resp_data :=
               [k / 256; k mod 256; sel_severity_to_Z sev]
               ++ payload ++ replicate (253 - length payload) 0;
             resp_data_len := 3 + Z.of_nat (length payload) |}).
Proof.
  intros Hlen Hn st n Hk Hk16 Harg payload.
  set (req := mk_ipmi_request IPMI_NETFN_STORAGE IPMI_CMD_GET_SEL_ENTRY
                              [k / 256; k mod 256] 2).
  assert (Hb0 : 0 <= k / 256 < 256).
  { split; [apply Z.div_pos; lia | apply Z.div_lt_upper_bound; lia]. }
  assert (Hb1 : 0 <= k mod 256 < 256) by (apply Z.mod_pos_bound; lia).
  pose proof (ipmi_get_sel_entry_dispatch st req now eq_refl eq_refl
                ltac:(cbn; lia) Hb0 Hb1) as H.
  cbv zeta in H. change (req_byte req 0) with (k / 256) in H.
  change (req_byte req 1) with (k mod 256) in H.
  replace (k / 256 * 256 + k mod 256) with k in H
    by (rewrite (Z.div_mod k 256) at 1; lia).
  pose proof (sel_get_entry_window state args k Hlen Hn) as Hget.
  cbv zeta in Hget. fold st n in Hget.
  destruct (Z.leb_spec (Z.max 1 (n - 255)) k) as [_ | Hlt]; [| lia].
  destruct (Z.leb_spec k n) as [_ | Hlt]; [| lia].
  cbn [andb] in Hget.
  assert (Ha : option_map (sel_entry_of k) (args !! Z.to_nat (k - 1))
               = Some (sel_entry_of k (t, sev, src, msg))).
  { pose proof (f_equal (option_map (sel_entry_of k)) Harg) as E. exact E. }
  rewrite Ha in Hget. rewrite Hget in H. exact H.
Qed.

(** ** The verdict of the verifier *)

Section SecureBootVerdict.

Variable SHA256 : list Z -> list Z.
Variable rand_stream : Z -> nat -> Z.

Lemma image_intact_dec (fs : filesystem) (fw : fw_image_t) :
  {image_intact SHA256 fs fw} + {~ image_intact SHA256 fs fw}.
Proof.
  unfold image_intact.
  destruct (fs !! fw_path (fw_name fw)) as [content |].
  - destruct (decide (expected_hash fw = hex_digest (SHA256 content))) as [H | H].
    + left. by exists content.
    + right. intros (c & [= <-] & Hc). contradiction.
  - right. intros (c & Hc & _). discriminate Hc.
Qed.

(** The loop of [secure_boot_verify] over the indices [a .. a + n - 1] of
    an array that holds them: what it returns and what it leaves in the
    array. *)
Lemma verify_loop_result (fs : filesystem) (now : Z) (n : nat) :
  forall (a : Z) (state : bmc_state_t) (all_passed : bool),
    0 <= a ->
    a + Z.of_nat n <= Z.of_nat (length (fw_images state)) ->
    let r := secure_boot_verify_loop SHA256 fs now (seqZ a (Z.of_nat n))
                                     state all_passed in
    length (fw_images (fst r)) = length (fw_images state) /\
    fw_image_count (fst r) = fw_image_count state /\
    (forall j, j < a ->
               array_get (fw_images (fst r)) j = array_get (fw_images state) j) /\
    (snd r = true ->
     all_passed = true /\
     forall j fw0, a <= j < a + Z.of_nat n ->
                   array_get (fw_images state) j = Some fw0 ->
                   image_intact SHA256 fs fw0 /\
                   array_get (fw_images (fst r)) j
                   = Some (fw_checked fw0 (expected_hash fw0))) /\
    (snd r = false ->
     all_passed = false \/
     exists j fw0 fw,
       a <= j < a + Z.of_nat n /\
       array_get (fw_images state) j = Some fw0 /\
       ~ image_intact SHA256 fs fw0 /\
       array_get (fw_images (fst r)) j = Some fw /\
       verified fw = true /\ passed fw = false).
Proof.
  induction n as [| n IH]; intros a state all_passed Ha Hlen r.
  - subst r. change (seqZ a (Z.of_nat 0)) with (@nil Z).
    cbn [secure_boot_verify_loop fst snd].
    split; [reflexivity |]. split; [reflexivity |]. split; [reflexivity |].
    split.
    + intros ->. split; [reflexivity |]. intros j fw0 Hj. lia.
    + intros ->. by left.
  - subst r. rewrite Nat2Z.inj_succ, (seqZ_cons a) by lia.
    rewrite Z.pred_succ.
    destruct (array_get (fw_images state) a) as [fw |] eqn:Hfw.
    2:{ unfold array_get in Hfw. destruct (Z.ltb_spec a 0); [lia |].
        apply lookup_ge_None in Hfw. lia. }
    assert (Hset : forall x, length (array_set (fw_images state) a x)
                             = length (fw_images state))
      by (intros x; apply array_set_length).
    assert (Hin : 0 <= a < Z.of_nat (length (fw_images state))) by lia.
    destruct (fs !! fw_path (fw_name fw)) as [content |] eqn:Hfs.
    + destruct (decide (expected_hash fw = hex_digest (SHA256 content)))
        as [Hhash | Hhash].
      * (* the image passes *)
        destruct (verify_step_pass SHA256 fs now a (seqZ (Z.succ a) (Z.of_nat n))
                    state all_passed fw content Hfw Hfs Hhash)
          as (state1 & -> & Himgs & _ & Hcount).
        destruct (IH (Z.succ a) state1 all_passed ltac:(lia)
                     ltac:(rewrite Himgs, Hset; lia))
          as (Hl & Hc & Hbefore & Htrue & Hfalse).
        rewrite Himgs in Hl, Hbefore. rewrite Hset in Hl.
        split; [exact Hl |]. split; [congruence |].
        split; [| split].
        -- intros j Hj. rewrite Hbefore by lia. apply array_get_set_ne. lia.
        -- intros Hr. destruct (Htrue Hr) as [Hap Hall].
           split; [exact Hap |]. intros j fw0 Hj Hfw0.
           destruct (Z.eq_dec j a) as [-> | Hne].
           ++ rewrite Hfw in Hfw0. injection Hfw0 as <-.
              split; [by exists content |].
              rewrite Hbefore by lia. rewrite array_get_set_eq by exact Hin.
              by rewrite Hhash.
           ++ apply Hall; [lia |]. rewrite Himgs.
              rewrite array_get_set_ne by lia. exact Hfw0.
        -- intros Hr. destruct (Hfalse Hr) as [Hap | (j & fw0 & fw1 & Hj & Hfw0 & Hrest)].
           ++ by left.
           ++ right. exists j, fw0, fw1. split; [lia |].
              split; [| exact Hrest].
              rewrite Himgs in Hfw0. rewrite array_get_set_ne in Hfw0 by lia.
              exact Hfw0.
      * (* the hash differs: the loop stops *)
        destruct (verify_step_mismatch SHA256 fs now a (seqZ (Z.succ a) (Z.of_nat n))
                    state all_passed fw content Hfw Hfs Hhash)
          as (state1 & -> & Himgs & Hpassed & Hcount).
        cbn [fst snd]. rewrite Himgs, Hset.
        split; [reflexivity |]. split; [exact Hcount |].
        split; [| split].
        -- intros j Hj. apply array_get_set_ne. lia.
        -- discriminate.
        -- intros _. right. exists a, fw, (fw_checked fw (hex_digest (SHA256 content))).
           split; [lia |]. split; [exact Hfw |]. split.
           ++ intros (c & Hfc & Hh). rewrite Hfs in Hfc. injection Hfc as <-.
              contradiction.
           ++ split; [apply array_get_set_eq, Hin |]. split; [reflexivity | exact Hpassed].
    + (* the blob cannot be read: the loop goes on *)
      destruct (verify_step_unreadable SHA256 fs now a (seqZ (Z.succ a) (Z.of_nat n))
                  state all_passed fw Hfw Hfs)
        as (state1 & -> & Himgs & Hcount).
      destruct (IH (Z.succ a) state1 false ltac:(lia)
                   ltac:(rewrite Himgs, Hset; lia))
        as (Hl & Hc & Hbefore & Htrue & Hfalse).
      rewrite Himgs in Hl, Hbefore. rewrite Hset in Hl.
      split; [exact Hl |]. split; [congruence |].
      split; [| split].
      * intros j Hj. rewrite Hbefore by lia. apply array_get_set_ne. lia.
      * intros Hr. destruct (Htrue Hr) as [Hap _]. discriminate Hap.
      * intros _. right. exists a, fw, (fw_unreadable fw).
        split; [lia |]. split; [exact Hfw |]. split.
        -- intros (c & Hfc & _). rewrite Hfs in Hfc. discriminate Hfc.
        -- split; [| by split].
           rewrite Hbefore by lia. apply array_get_set_eq, Hin.
Qed.

(** The verdict of [secure_boot_verify]: it passes exactly when every image
    is intact. *)
Lemma secure_boot_verify_verdict (fs : filesystem) (state : bmc_state_t)
    (now : Z) :
  0 <= fw_image_count state <= Z.of_nat (length (fw_images state)) ->
  snd (secure_boot_verify SHA256 fs state now) = true <->
  forall i fw, 0 <= i < fw_image_count state ->
               array_get (fw_images state) i = Some fw ->
               image_intact SHA256 fs fw.
Proof.
  intros Hcount. rewrite secure_boot_verify_unfold. cbn [snd].
  destruct (verify_loop_result fs now (Z.to_nat (fw_image_count state)) 0 state
              true ltac:(lia) ltac:(lia))
    as (_ & _ & _ & Htrue & Hfalse).
  rewrite Z2Nat.id in Htrue, Hfalse by lia.
  set (r := secure_boot_verify_loop SHA256 fs now
              (seqZ 0 (fw_image_count state)) state true) in *.
  split.
  - intros Hr i fw Hi Hfw. destruct (Htrue Hr) as [_ Hall].
    apply (Hall i fw); [lia | exact Hfw].
  - intros Hall. destruct (snd r) eqn:Hr; [reflexivity |].
    destruct (Hfalse eq_refl) as [Hap | (j & fw0 & fw & Hj & Hfw0 & Hbad & _)];
      [discriminate Hap |].
    exfalso. apply Hbad, (Hall j fw0); [lia | exact Hfw0].
Qed.

(** What [secure_boot_verify] returns.  On a state whose image count lies
    within the array, the verification passes exactly when the blob of
    every image can be read and hashes to the expected hash of the image.
    The flag [secure_boot_passed] is the returned value; when it is true
    every image is left [verified], [passed] and with its [actual_hash]
    equal to its [expected_hash]; when it is false some image is left
    [verified] and not [passed]. *)
Theorem secure_boot_verify_result (fs : filesystem) (state : bmc_state_t)
    (now : Z) :
  0 <= fw_image_count state <= Z.of_nat (length (fw_images state)) ->
  let r := secure_boot_verify SHA256 fs state now in
  secure_boot_passed (fst r) = snd r /\
  (snd r = true <->
   forall i fw, 0 <= i < fw_image_count state ->
                array_get (fw_images state) i = Some fw ->
                image_intact SHA256 fs fw) /\
  (snd r = true ->
   forall i fw, 0 <= i < fw_image_count state ->
                array_get (fw_images (fst r)) i = Some fw ->
                verified fw = true /\ passed fw = true /\
                actual_hash fw = expected_hash fw) /\
  (snd r = false ->
   exists i fw, 0 <= i < fw_image_count state /\
                array_get (fw_images (fst r)) i = Some fw /\
                verified fw = true /\ passed fw = false).
Proof.
  intros Hcount r. subst r. rewrite secure_boot_verify_unfold.
  cbn [fst snd secure_boot_passed set_secure_boot_passed fw_images].
  destruct (verify_loop_result fs now (Z.to_nat (fw_image_count state)) 0 state
              true ltac:(lia) ltac:(lia))
    as (Hl & _ & _ & Htrue & Hfalse).
  rewrite Z2Nat.id in Htrue, Hfalse, Hl by lia.
  set (r := secure_boot_verify_loop SHA256 fs now
              (seqZ 0 (fw_image_count state)) state true) in *.
  split; [reflexivity |]. split; [| split].
  - pose proof (secure_boot_verify_verdict fs state now Hcount) as Hv.
    rewrite secure_boot_verify_unfold in Hv. exact Hv.
  - intros Hr i fw Hi Hfw. destruct (Htrue Hr) as [_ Hall].
    destruct (array_get (fw_images state) i) as [fw0 |] eqn:Hfw0.
    2:{ unfold array_get in Hfw0. destruct (Z.ltb_spec i 0); [lia |].
        apply lookup_ge_None in Hfw0. lia. }
    destruct (Hall i fw0 ltac:(lia) Hfw0) as [_ Hget].
    rewrite Hget in Hfw. injection Hfw as <-.
    unfold fw_checked. cbn [verified passed actual_hash expected_hash].
    by rewrite String.eqb_refl.
  - intros Hr.
    destruct (Hfalse Hr) as [Hap | (j & fw0 & fw & Hj & _ & _ & Hfw & Hv & Hp)];
      [discriminate Hap |].
    exists j, fw. split; [lia |]. by repeat split.
Qed.

End SecureBootVerdict.

Section SecureBootRepair.

Variable SHA256 : list Z -> list Z.
Variable rand_stream : Z -> nat -> Z.

Lemma fw_blob_first_byte (seed : Z) :
  rand_stream seed 0 mod 256 = 255 ->
  255 :: drop 1 (fw_blob rand_stream seed) = fw_blob rand_stream seed.
Proof.
  intros Hfirst. unfold fw_blob, FW_IMAGE_SIZE.
  change (seq 0 4096) with (0%nat :: seq 1 4095).
  cbn [map]. rewrite Hfirst. reflexivity.
Qed.

(** The images and their files after [secure_boot_init]: image [i] expects
    the hash of the blob of seed [42 + i], which is the content of its
    file, and no two images share a file. *)
Lemma secure_boot_init_images (fs0 : filesystem) (state0 : bmc_state_t) (now0 : Z) :
  length (fw_images state0) = Z.to_nat MAX_FW_IMAGES ->
  let r1 := secure_boot_init SHA256 rand_stream fs0 state0 now0 in
  fw_image_count (snd (fst r1)) = 4 /\
  length (fw_images (snd (fst r1))) = 4%nat /\
  (forall i, 0 <= i < 4 ->
     exists fw,
       array_get (fw_images (snd (fst r1))) i = Some fw /\
       expected_hash fw = hex_digest (SHA256 (fw_blob rand_stream (42 + i))) /\
       fst (fst r1) !! fw_path (fw_name fw) = Some (fw_blob rand_stream (42 + i))) /\
  (forall i j fwi fwj,
     array_get (fw_images (snd (fst r1))) i = Some fwi ->
     array_get (fw_images (snd (fst r1))) j = Some fwj ->
     i <> j -> fw_path (fw_name fwi) <> fw_path (fw_name fwj)).
Proof.
  intros Hlen r1.
  destruct (fw_images state0) as [| f0 [| f1 [| f2 [| f3 [| f4 l]]]]] eqn:Himgs;
    try discriminate Hlen.
  destruct (secure_boot_init_result SHA256 rand_stream fs0 state0 now0 f0 f1 f2 f3 Himgs)
    as (Hcount1 & Himgs1 & Hfs1).
  fold r1 in Hcount1, Himgs1, Hfs1. fold (init_fs rand_stream fs0) in Hfs1.
  destruct (init_fs_lookup rand_stream fs0) as (Hp0 & Hp1 & Hp2 & Hp3).
  rewrite <- Hfs1 in Hp0, Hp1, Hp2, Hp3.
  split; [exact Hcount1 |]. split; [by rewrite Himgs1 |]. split.
  - intros i Hi. rewrite Himgs1.
    assert (Hcases : i = 0 \/ i = 1 \/ i = 2 \/ i = 3) by lia.
    destruct Hcases as [-> | [-> | [-> | ->]]];
      (eexists; split; [reflexivity |]; split; [reflexivity |]);
      cbn [fw_name init_image]; assumption.
  - intros i j fwi fwj Hi Hj Hne. rewrite Himgs1 in Hi, Hj.
    pose proof (array_get_Some _ _ _ Hi) as Hri.
    pose proof (array_get_Some _ _ _ Hj) as Hrj.
    cbn [length] in Hri, Hrj.
    assert (Hci : i = 0 \/ i = 1 \/ i = 2 \/ i = 3) by lia.
    assert (Hcj : j = 0 \/ j = 1 \/ j = 2 \/ j = 3) by lia.
    destruct Hci as [-> | [-> | [-> | ->]]];
      destruct Hcj as [-> | [-> | [-> | ->]]];
      try contradiction;
      injection Hi as <-; injection Hj as <-; cbn [fw_name init_image];
      discriminate.
Qed.

(** After [secure_boot_init], every image is intact. *)
Lemma secure_boot_init_intact (fs0 : filesystem) (state0 : bmc_state_t) (now0 : Z) :
  length (fw_images state0) = Z.to_nat MAX_FW_IMAGES ->
  let r1 := secure_boot_init SHA256 rand_stream fs0 state0 now0 in
  forall i fw, array_get (fw_images (snd (fst r1))) i = Some fw ->
               image_intact SHA256 (fst (fst r1)) fw.
Proof.
  intros Hlen r1 i fw Hfw.
  destruct (secure_boot_init_images fs0 state0 now0 Hlen)
    as (_ & Hl & Himg & _). fold r1 in Hl, Himg.
  pose proof (array_get_Some _ _ _ Hfw) as Hi. rewrite Hl in Hi.
  destruct (Himg i ltac:(lia)) as (fw' & Hfw' & Hexp & Hfile).
  rewrite Hfw in Hfw'. injection Hfw' as <-.
  exists (fw_blob rand_stream (42 + i)). by split.
Qed.

Lemma secure_boot_restore_result (fs : filesystem) (state : bmc_state_t)
    (i : Z) (now : Z) (fw : fw_image_t) :
  0 <= i < fw_image_count state ->
  array_get (fw_images state) i = Some fw ->
  exists state',
    secure_boot_restore rand_stream fs state i now
    = (<[fw_path (fw_name fw) := fw_blob rand_stream (42 + i)]> fs, state', 0) /\
    fw_images state' = fw_images state /\
    fw_image_count state' = fw_image_count state.
Proof.
  intros Hi Hfw. unfold secure_boot_restore.
  destruct ((i <? 0) || (i >=? fw_image_count state)) eqn:E; [lia |].
  rewrite Hfw. eexists. split; [reflexivity |].
  by rewrite sel_add_entry_fw_images, sel_add_entry_fw_image_count.
Qed.

(** [secure_boot_restore] repairs an image: after [secure_boot_init], let
    the file of image [i] be changed in any way, or removed, the other
    files being as [secure_boot_init] left them.  Then restoring image [i]
    gives back the files of [secure_boot_init], and a verification
    passes. *)
Theorem secure_boot_restore_repairs (fs0 : filesystem) (state0 : bmc_state_t)
    (now0 now1 now2 : Z) (i : Z) (fw : fw_image_t) (fs' : filesystem) :
  length (fw_images state0) = Z.to_nat MAX_FW_IMAGES ->
  let r1 := secure_boot_init SHA256 rand_stream fs0 state0 now0 in
  array_get (fw_images (snd (fst r1))) i = Some fw ->
  (forall p, p <> fw_path (fw_name fw) -> fs' !! p = fst (fst r1) !! p) ->
  let r2 := secure_boot_restore rand_stream fs' (snd (fst r1)) i now1 in
  snd r2 = 0 /\
  fst (fst r2) = fst (fst r1) /\
  fw_images (snd (fst r2)) = fw_images (snd (fst r1)) /\
  snd (secure_boot_verify SHA256 (fst (fst r2)) (snd (fst r2)) now2) = true.
Proof.
  intros Hlen r1 Hfw Hothers r2.
  destruct (secure_boot_init_images fs0 state0 now0 Hlen)
    as (Hcount & Hl & Himg & _). fold r1 in Hcount, Hl, Himg.
  pose proof (array_get_Some _ _ _ Hfw) as Hi. rewrite Hl in Hi.
  destruct (Himg i ltac:(lia)) as (fw' & Hfw' & _ & Hfile).
  rewrite Hfw in Hfw'. injection Hfw' as <-.
  destruct (secure_boot_restore_result fs' (snd (fst r1)) i now1 fw
              ltac:(lia) Hfw) as (state2 & Hr2 & Himgs2 & Hcount2).
  fold r2 in Hr2. rewrite Hr2. cbn [fst snd].
  assert (Hfs : <[fw_path (fw_name fw) := fw_blob rand_stream (42 + i)]> fs'
                = fst (fst r1)).
  { apply map_eq. intros p.
    destruct (decide (p = fw_path (fw_name fw))) as [-> | Hne].
    - by rewrite lookup_insert_eq, Hfile.
    - rewrite lookup_insert_ne by done. by apply Hothers. }
  rewrite Hfs. repeat split; try assumption.
  apply (secure_boot_verify_verdict SHA256);
    [rewrite Hcount2, Himgs2, Hcount, Hl; lia |].
  intros j fwj Hj Hfwj. rewrite Himgs2 in Hfwj.
  by apply (secure_boot_init_intact fs0 state0 now0 Hlen j).
Qed.

(** Tamper detection.  After [secure_boot_init], tampering with image [i]
    succeeds, and the verification that follows fails exactly when the
    tampered blob (the blob with its first byte set to 0xFF) and the
    original print different digests.  When the first byte of the blob is
    0xFF already, the tampering leaves the file as it was and the
    verification passes. *)
Theorem secure_boot_tamper_detection (fs0 : filesystem) (state0 : bmc_state_t)
    (now0 now1 now2 : Z) (i : Z) :
  length (fw_images state0) = Z.to_nat MAX_FW_IMAGES ->
  0 <= i < 4 ->
  let r1 := secure_boot_init SHA256 rand_stream fs0 state0 now0 in
  let r2 := secure_boot_inject_tamper (fst (fst r1)) (snd (fst r1)) i now1 in
  let r3 := secure_boot_verify SHA256 (fst (fst r2)) (snd (fst r2)) now2 in
  let blob := fw_blob rand_stream (42 + i) in
  snd r2 = 0 /\
  (snd r3 = false <->
   hex_digest (SHA256 (255 :: drop 1 blob)) <> hex_digest (SHA256 blob)) /\
  (rand_stream (42 + i) 0 mod 256 = 255 ->
   fst (fst r2) = fst (fst r1) /\ snd r3 = true).
Proof.
  intros Hlen Hi r1 r2 r3 blob.
  pose proof (fw_blob_first_byte (42 + i)) as Hhead. fold blob in Hhead.
  destruct (secure_boot_init_images fs0 state0 now0 Hlen)
    as (Hcount & Hl & Himg & Hdistinct). fold r1 in Hcount, Hl, Himg, Hdistinct.
  destruct (Himg i Hi) as (fw & Hfw & Hexp & Hfile). fold blob in Hexp, Hfile.
  clearbody blob.
  destruct (secure_boot_inject_tamper_result (fst (fst r1)) (snd (fst r1)) i now1
              fw blob ltac:(lia) Hfw Hfile) as (state2 & Hr2 & Himgs2 & Hcount2).
  fold r2 in Hr2. subst r3. rewrite Hr2. cbn [fst snd].
  set (fs2 := <[fw_path (fw_name fw) := 255 :: drop 1 blob]> (fst (fst r1))).
  pose proof (secure_boot_verify_verdict SHA256 fs2 state2 now2
                ltac:(rewrite Hcount2, Himgs2, Hcount, Hl; lia)) as Hiff.
  rewrite Hcount2, Himgs2, Hcount in Hiff.
  assert (Hothers : forall j fwj, j <> i ->
            array_get (fw_images (snd (fst r1))) j = Some fwj ->
            image_intact SHA256 fs2 fwj).
  { intros j fwj Hne Hfwj.
    destruct (secure_boot_init_intact fs0 state0 now0 Hlen j fwj Hfwj)
      as (c & Hc & Hh).
    exists c. split; [| exact Hh]. unfold fs2.
    rewrite lookup_insert_ne; [exact Hc |].
    apply not_eq_sym, (Hdistinct j i fwj fw Hfwj Hfw Hne). }
  assert (Hverdict : snd (secure_boot_verify SHA256 fs2 state2 now2) = true <->
            hex_digest (SHA256 (255 :: drop 1 blob)) = hex_digest (SHA256 blob)).
  { rewrite Hiff. split.
    - intros Hall. destruct (Hall i fw Hi Hfw) as (c & Hc & Hh).
      unfold fs2 in Hc. rewrite lookup_insert_eq in Hc.
      assert (Hcc : c = 255 :: drop 1 blob) by congruence. subst c.
      by rewrite <- Hh, Hexp.
    - intros Heq j fwj Hj Hfwj.
      destruct (Z.eq_dec j i) as [-> | Hne]; [| by apply (Hothers j)].
      rewrite Hfw in Hfwj. injection Hfwj as <-.
      exists (255 :: drop 1 blob). split; [apply lookup_insert_eq |].
      by rewrite Heq, Hexp. }
  split; [reflexivity |]. split.
  - rewrite <- Hverdict. by destruct (snd (secure_boot_verify SHA256 fs2 state2 now2)).
  - intros Hfirst.
    pose proof (Hhead Hfirst) as Hsame.
    split.
    + unfold fs2. rewrite Hsame. by apply insert_id.
    + apply Hverdict. by rewrite Hsame.
Qed.

End SecureBootRepair.

(** ** Printing a digest *)

Lemma hex_digit_code (n : Z) :
  0 <= n < 16 ->
  Z.of_N (N_of_ascii (hex_digit n)) = if n <? 10 then 48 + n else 87 + n.
Proof.
  intros Hn. unfold hex_digit.
  destruct (Z.ltb_spec n 10); rewrite N_ascii_embedding by lia; lia.
Qed.

Lemma hex_digit_inj (m n : Z) :
  0 <= m < 16 -> 0 <= n < 16 -> hex_digit m = hex_digit n -> m = n.
Proof.
  intros Hm Hn Heq.
  pose proof (hex_digit_code m Hm) as Cm. pose proof (hex_digit_code n Hn) as Cn.
  rewrite Heq in Cm. rewrite Cm in Cn.
  destruct (Z.ltb_spec m 10), (Z.ltb_spec n 10); lia.
Qed.

(** Two bytes that print the same two hexadecimal digits are equal. *)
Lemma hex2_inj (b c : Z) :
  0 <= b < 256 -> 0 <= c < 256 -> hex2 b = hex2 c -> b = c.
Proof.
  intros Hb Hc Heq. unfold hex2 in Heq. injection Heq as Hhi Hlo.
  apply hex_digit_inj in Hhi;
    [| apply Z.mod_pos_bound; lia | apply Z.mod_pos_bound; lia].
  apply hex_digit_inj in Hlo;
    [| apply Z.mod_pos_bound; lia | apply Z.mod_pos_bound; lia].
  rewrite (Z.div_mod b 16), (Z.div_mod c 16) by lia.
  rewrite (Z.mod_small (b / 16)) in Hhi
    by (split; [apply Z.div_pos; lia | apply Z.div_lt_upper_bound; lia]).
  rewrite (Z.mod_small (c / 16)) in Hhi
    by (split; [apply Z.div_pos; lia | apply Z.div_lt_upper_bound; lia]).
  lia.
Qed.

Lemma hex_digest_indices (d1 d2 : list Z) (idx : list nat) :
  Forall (fun b => 0 <= b < 256) d1 ->
  Forall (fun b => 0 <= b < 256) d2 ->
  foldr (fun i out => (hex2 (nth i d1 0) ++ out)%string) EmptyString idx
  = foldr (fun i out => (hex2 (nth i d2 0) ++ out)%string) EmptyString idx ->
  forall i, In i idx -> nth i d1 0 = nth i d2 0.
Proof.
  intros H1 H2.
  assert (Hnth : forall (d : list Z) i,
             Forall (fun b => 0 <= b < 256) d -> 0 <= nth i d 0 < 256).
  { intros d i Hd. destruct (nth_in_or_default i d 0) as [Hin | ->]; [| lia].
    rewrite Forall_forall in Hd. apply Hd, list_elem_of_In, Hin. }
  induction idx as [| j rest IH]; intros Heq i Hi; [destruct Hi |].
  cbn [foldr] in Heq. unfold hex2 at 1 3 in Heq.
  change (String ?a (String ?b EmptyString) ++ ?out)%string
    with (String a (String b out)) in Heq.
  injection Heq as Hhi Hlo Hrest.
  destruct Hi as [<- | Hi]; [| by apply IH].
  apply hex2_inj; [by apply Hnth | by apply Hnth |].
  unfold hex2. by rewrite Hhi, Hlo.
Qed.

(** Printing a digest loses nothing: two digests of [SHA256_DIGEST_LENGTH]
    bytes with the same 64 hexadecimal digits are the same digest, so that
    comparing the hash strings of an image is comparing its digests. *)
Theorem hex_digest_injective (d1 d2 : list Z) :
  length d1 = SHA256_DIGEST_LENGTH ->
  length d2 = SHA256_DIGEST_LENGTH ->
  Forall (fun b => 0 <= b < 256) d1 ->
  Forall (fun b => 0 <= b < 256) d2 ->
  hex_digest d1 = hex_digest d2 ->
  d1 = d2.
Proof.
  intros Hl1 Hl2 H1 H2 Heq. unfold hex_digest in Heq.
  pose proof (hex_digest_indices d1 d2 _ H1 H2 Heq) as Hnth.
  apply (nth_ext d1 d2 0 0); [congruence |].
  intros i Hi. apply Hnth, in_seq. rewrite Hl1 in Hi. lia.
Qed.

(** ** The daemon *)

Lemma find_cpu_temp_loop_spec (sensors : list sensor_reading_t) (n : nat) :
  forall a : Z,
    0 <= a ->
    a + Z.of_nat n <= Z.of_nat (length sensors) ->
    (exists i s,
        find_cpu_temp_loop sensors (seqZ a (Z.of_nat n)) = Some i /\
        a <= i < a + Z.of_nat n /\
        array_get sensors i = Some s /\ name s = "CPU_Temp"%string /\
        forall j s', a <= j < i -> array_get sensors j = Some s' ->
                     name s' <> "CPU_Temp"%string) \/
    (find_cpu_temp_loop sensors (seqZ a (Z.of_nat n)) = Some 0 /\
     forall j s', a <= j < a + Z.of_nat n -> array_get sensors j = Some s' ->
                  name s' <> "CPU_Temp"%string).
Proof.
  induction n as [| n IH]; intros a Ha Hlen.
  - right. split; [reflexivity |]. intros. lia.
  - rewrite Nat2Z.inj_succ, (seqZ_cons a) by lia. rewrite Z.pred_succ.
    cbn [find_cpu_temp_loop].
    destruct (array_get sensors a) as [s |] eqn:Hs.
    2:{ unfold array_get in Hs. destruct (Z.ltb_spec a 0); [lia |].
        apply lookup_ge_None in Hs. lia. }
    destruct (String.eqb_spec (name s) "CPU_Temp") as [Hname | Hname].
    + left. exists a, s. split; [reflexivity |]. split; [lia |].
      split; [exact Hs |]. split; [exact Hname |]. intros. lia.
    + destruct (IH (Z.succ a) ltac:(lia) ltac:(lia))
        as [(i & si & Hfind & Hi & Hsi & Hni & Hbefore) | [Hfind Hnone]].
      * left. exists i, si. split; [exact Hfind |]. split; [lia |].
        split; [exact Hsi |]. split; [exact Hni |].
        intros j s' Hj Hs'. destruct (Z.eq_dec j a) as [-> | Hne].
        -- rewrite Hs in Hs'. by injection Hs' as <-.
        -- apply (Hbefore j s'); [lia | exact Hs'].
      * right. split; [exact Hfind |].
        intros j s' Hj Hs'. destruct (Z.eq_dec j a) as [-> | Hne].
        -- rewrite Hs in Hs'. by injection Hs' as <-.
        -- apply (Hnone j s'); [lia | exact Hs'].
Qed.

(** [find_cpu_temp_sensor] returns the first index below [sensor_count]
    whose sensor is named "CPU_Temp"; when there is none it returns 0, as
    it does when sensor 0 has that name. *)
Theorem find_cpu_temp_sensor_first (state : bmc_state_t) :
  0 <= sensor_count state <= Z.of_nat (length (sensors state)) ->
  (exists i s,
      find_cpu_temp_sensor state = Some i /\
      0 <= i < sensor_count state /\
      array_get (sensors state) i = Some s /\ name s = "CPU_Temp"%string /\
      forall j s', 0 <= j < i -> array_get (sensors state) j = Some s' ->
                   name s' <> "CPU_Temp"%string) \/
  (find_cpu_temp_sensor state = Some 0 /\
   forall j s', 0 <= j < sensor_count state ->
                array_get (sensors state) j = Some s' ->
                name s' <> "CPU_Temp"%string).
Proof.
  intros Hcount. unfold find_cpu_temp_sensor.
  pose proof (find_cpu_temp_loop_spec (sensors state)
                (Z.to_nat (sensor_count state)) 0 ltac:(lia) ltac:(lia)) as H.
  rewrite Z2Nat.id in H by lia. exact H.
Qed.

Lemma same_plant_refl (s : bmc_state_t) : same_plant s s.
Proof. by repeat split. Qed.

Lemma same_plant_trans (s1 s2 s3 : bmc_state_t) :
  same_plant s1 s2 -> same_plant s2 s3 -> same_plant s1 s3.
Proof.
  intros (? & ? & ? & ? & ?) (? & ? & ? & ? & ?).
  repeat split; congruence.
Qed.

Lemma sel_add_entry_same_plant (state : bmc_state_t) (now : Z)
    (sev : sel_severity_t) (src msg : string) :
  same_plant (fst (sel_add_entry state now sev src msg)) state.
Proof.
  destruct (sel_add_entry_frame state now sev src msg)
    as (? & ? & ? & ? & _ & _ & _ & ?).
  by repeat split.
Qed.

(** *** The shape of the event log *)

Lemma sel_wf_sel_part (s1 s2 : bmc_state_t) :
  sel_part s1 = sel_part s2 -> sel_wf s1 -> sel_wf s2.
Proof.
  unfold sel_part, sel_wf. intros [= -> -> _]. done.
Qed.

Lemma sel_append_all_wf (args : list sel_args) :
  forall state, sel_wf state -> sel_wf (sel_append_all state args).
Proof.
  induction args as [| a rest IH]; intros state Hwf; [exact Hwf |].
  cbn [sel_append_all foldl]. apply IH. by apply sel_append_frame.
Qed.

Lemma sel_add_entry_wf (state : bmc_state_t) (now : Z)
    (sev : sel_severity_t) (src msg : string) :
  sel_wf state -> sel_wf (fst (sel_add_entry state now sev src msg)).
Proof.
  intros Hwf. by apply (sel_append_frame state (now, sev, src, msg)).
Qed.

Lemma sensor_poll_wf (state : bmc_state_t) (fan_duty : Q) (now : Z)
    (draws : Z -> Q) :
  sel_wf state -> sel_wf (sensor_poll state fan_duty now draws).
Proof.
  intros Hwf.
  destruct (sensor_poll_closed state fan_duty now draws) as [_ Hsel].
  apply (sel_wf_sel_part _ _ (eq_sym Hsel)).
  by apply sel_append_all_wf.
Qed.

(** *** A turn of the control loop *)

Lemma main_loop_body_up (state : bmc_state_t) (now : Z) (draws : Z -> Q) :
  daemon_up state ->
  exists state',
    main_loop_body state 0 now draws = Some state' /\
    daemon_up state' /\
    (10 <= fan_duty_percent state')%Q /\
    fan_duty_percent state' = output (pid state') /\
    secure_boot_passed state' = secure_boot_passed state.
Proof.
  intros (Hcount & Hlen & Hwf & (s0 & Hs0 & Hname & Htype) & Hmin & Hmax & Hf0 & Hf100).
  unfold main_loop_body.
  set (state1 := sensor_poll state (fan_duty_percent state) now draws).
  pose proof (sensor_poll_sensor_count state (fan_duty_percent state) now draws)
    as Hcount1.
  pose proof (sensor_poll_length state (fan_duty_percent state) now draws)
    as Hlen1.
  destruct (sensor_poll_others state (fan_duty_percent state) now draws)
    as (Hpid1 & _ & _ & _ & Hpassed1 & _).
  pose proof (sensor_poll_identity state (fan_duty_percent state) now draws)
    as Hkeep.
  fold state1 in Hcount1, Hlen1, Hpid1, Hpassed1, Hkeep.
  destruct (array_get (sensors state1) 0) as [s1 |] eqn:Hs1.
  2:{ unfold array_get in Hs1. cbn in Hs1. apply lookup_ge_None in Hs1.
      rewrite Hlen1, Hlen in Hs1. unfold MAX_SENSORS in Hs1. lia. }
  destruct (Hkeep 0 s1 Hs1) as (s & Hs & Hn & Ht & _).
  rewrite Hs0 in Hs. injection Hs as <-.
  rewrite Hpid1.
  assert (Hord : (output_min (pid state) <= output_max (pid state))%Q) by lra.
  destruct (pid_compute_output_clamped (pid state) (value s1) poll_interval Hord)
    as (Hlo & Hhi & Hout).
  destruct (pid_compute_bounds (pid state) (value s1) poll_interval) as [Hbmin Hbmax].
  destruct (pid_compute (pid state) (value s1) poll_interval) as [pid' duty] eqn:Hpc.
  cbn [fst snd] in Hlo, Hhi, Hout, Hbmin, Hbmax.
  eexists. split; [reflexivity |].
  cbn [fan_duty_percent set_fan_duty_percent set_pid pid secure_boot_passed].
  split; [| split; [rewrite Hout; lra | split; [exact Hout | exact Hpassed1]]].
  unfold daemon_up.
  cbn [sensor_count sensors fan_duty_percent set_fan_duty_percent set_pid pid].
  split; [congruence |]. split; [congruence |]. split.
  { apply (sel_wf_sel_part state1); [reflexivity |]. by apply sensor_poll_wf. }
  split; [exists s1; split; [exact Hs1 | split; congruence] |].
  rewrite Hbmin, Hbmax, Hout. repeat split; try assumption; lra.
Qed.

(** *** A command *)

Lemma ipmi_handle_command_state (state : bmc_state_t) (req : ipmi_request_t)
    (now : Z) (state' : bmc_state_t) (resp : ipmi_response_t) :
  ipmi_handle_command state req now = Some (state', resp) ->
  state' = state \/
  exists (duty : Q) (msg : string),
    (0 <= duty)%Q /\ (duty <= 100)%Q /\
    state' = fst (sel_add_entry (set_fan_duty_percent state duty) now
                    SEL_SEVERITY_INFO "IPMI" msg).
Proof.
  unfold ipmi_handle_command. intros H.
  destruct (netfn req =? IPMI_NETFN_APP).
  { left. destruct (cmd req =? _); by destruct (Some_pair_inv _ _ _ _ H) as [<- _]. }
  destruct (netfn req =? IPMI_NETFN_SENSOR).
  - destruct (cmd req =? IPMI_CMD_GET_SENSOR_READING).
    { left. destruct (handle_get_sensor_reading state req zero_response);
        [| discriminate H].
      cbn [option_map] in H. by destruct (Some_pair_inv _ _ _ _ H) as [<- _]. }
    destruct (cmd req =? IPMI_CMD_SET_FAN_DUTY).
    2:{ left. by destruct (Some_pair_inv _ _ _ _ H) as [<- _]. }
    unfold handle_set_fan_duty in H.
    destruct (data_len req <? 1);
      [left; by destruct (Some_pair_inv _ _ _ _ H) as [<- _] |].
    case_cmp (Qltb (inject_Z (req_byte req 0)) 0); cbn [orb] in H;
      [left; by destruct (Some_pair_inv _ _ _ _ H) as [<- _] |].
    case_cmp (Qgtb (inject_Z (req_byte req 0)) 100);
      [left; by destruct (Some_pair_inv _ _ _ _ H) as [<- _] |].
    right. destruct (Some_pair_inv _ _ _ _ H) as [<- _].
    eexists _, _. split; [| split]; [| | reflexivity]; assumption.
  - left. destruct (netfn req =? IPMI_NETFN_STORAGE);
      [| by destruct (Some_pair_inv _ _ _ _ H) as [<- _]].
    destruct (cmd req =? _); by destruct (Some_pair_inv _ _ _ _ H) as [<- _].
Qed.

Lemma ipmi_handle_command_up (state : bmc_state_t) (req : ipmi_request_t)
    (now : Z) (state' : bmc_state_t) (resp : ipmi_response_t) :
  ipmi_handle_command state req now = Some (state', resp) ->
  daemon_up state ->
  daemon_up state' /\ secure_boot_passed state' = secure_boot_passed state.
Proof.
  intros H Hup.
  destruct (ipmi_handle_command_state state req now state' resp H)
    as [-> | (duty & msg & Hd0 & Hd100 & ->)]; [by split |].
  destruct Hup as (Hcount & Hlen & Hwf & Hcpu & Hmin & Hmax & _ & _).
  match goal with
  | |- context [sel_add_entry ?st ?t ?sev ?src ?m] =>
      pose proof (sel_add_entry_frame st t sev src m) as Hframe;
      pose proof (sel_add_entry_wf st t sev src m) as Hwf'
  end.
  cbv zeta in Hframe.
  destruct Hframe as (Hs & Hc & Hp & Hf & _ & _ & Hsb & _).
  split; [| exact Hsb].
  unfold daemon_up. rewrite Hs, Hc, Hp, Hf.
  cbn [sensors sensor_count pid fan_duty_percent set_fan_duty_percent].
  split; [exact Hcount |]. split; [exact Hlen |].
  split; [apply Hwf'; exact Hwf |]. split; [exact Hcpu |].
  repeat split; assumption.
Qed.

(** A run of a daemon that is up ends in a state that is up, or stops at
    the undefined conversion of a Get Sensor Reading. *)
Lemma daemon_run_outcome (events : list daemon_event) :
  forall state,
    daemon_up state ->
    match daemon_run 0 state events with
    | Some state' =>
        daemon_up state' /\
        secure_boot_passed state' = secure_boot_passed state
    | None => stops_at_undefined_reading 0 state events
    end.
Proof.
  induction events as [| ev rest IH]; intros state Hup; [by split |].
  cbn [daemon_run].
  destruct (daemon_step 0 state ev) as [state1 |] eqn:Hstep.
  - assert (Hup1 : daemon_up state1 /\
                   secure_boot_passed state1 = secure_boot_passed state).
    { destruct ev as [now draws | req now]; cbn [daemon_step] in Hstep.
      - destruct (main_loop_body_up state now draws Hup)
          as (st & Hst & Hupst & _ & _ & Hsb).
        rewrite Hst in Hstep. injection Hstep as <-. by split.
      - destruct (ipmi_handle_command state req now) as [[st resp] |] eqn:Hcmd;
          [| discriminate Hstep].
        cbn [option_map fst] in Hstep. injection Hstep as <-.
        apply (ipmi_handle_command_up state req now st resp Hcmd Hup). }
    destruct Hup1 as [Hup1 Hsb1].
    specialize (IH state1 Hup1).
    destruct (daemon_run 0 state1 rest) as [state' |].
    + destruct IH as [Hup' Hsb']. split; [exact Hup' | congruence].
    + destruct IH as (before & req & now & after & st & -> & Hrun & Hst & Hun).
      exists (ev :: before), req, now, after, st.
      split; [reflexivity |]. split; [| by split].
      cbn [daemon_run]. by rewrite Hstep.
  - destruct ev as [now draws | req now]; cbn [daemon_step] in Hstep.
    + destruct (main_loop_body_up state now draws Hup) as (st & Hst & _).
      congruence.
    + exists [], req, now, rest, state.
      split; [reflexivity |]. split; [reflexivity |]. split; [exact Hup |].
      apply (ipmi_handle_command_None state req now).
      by destruct (ipmi_handle_command state req now).
Qed.

(** *** [sensor_init] *)

Lemma sensor_init_sensors (state : bmc_state_t) (now : Z) :
  length (sensors state) = Z.to_nat MAX_SENSORS ->
  sensors (fst (sensor_init state now)) = map (init_reading now) default_sensors.
Proof.
  intros Hlen.
  destruct (sensors state)
    as [| a0 [| a1 [| a2 [| a3 [| a4 [| a5 [| a6 [| a7 [| a8 l]]]]]]]]] eqn:Hs;
    try discriminate Hlen.
  unfold sensor_init. cbn [fst].
  change (if NUM_DEFAULT_SENSORS >? MAX_SENSORS then MAX_SENSORS
          else NUM_DEFAULT_SENSORS) with 8.
  change (seqZ 0 8) with [0; 1; 2; 3; 4; 5; 6; 7].
  cbn [foldl]. unfold sensor_init_step at 1. cbn [array_get Z.ltb Z.compare].
  rewrite Hs. reflexivity.
Qed.

Lemma sensor_init_step_rest (now : Z) (state : bmc_state_t) (i : Z) :
  let state' := sensor_init_step now state i in
  pid state' = pid state /\ fan_duty_percent state' = fan_duty_percent state /\
  sel_part state' = sel_part state /\
  fw_images state' = fw_images state /\
  fw_image_count state' = fw_image_count state /\
  secure_boot_passed state' = secure_boot_passed state /\
  running state' = running state.
Proof.
  unfold sensor_init_step.
  destruct (array_get default_sensors i); by repeat split.
Qed.

Lemma sensor_init_rest (state : bmc_state_t) (now : Z) :
  let state' := fst (sensor_init state now) in
  pid state' = pid state /\ fan_duty_percent state' = fan_duty_percent state /\
  sel_part state' = sel_part state /\
  fw_images state' = fw_images state /\
  fw_image_count state' = fw_image_count state /\
  secure_boot_passed state' = secure_boot_passed state /\
  running state' = running state.
Proof.
  unfold sensor_init. cbn [fst].
  generalize (seqZ 0 (if NUM_DEFAULT_SENSORS >? MAX_SENSORS then MAX_SENSORS
                      else NUM_DEFAULT_SENSORS)) as idx.
  generalize (if NUM_DEFAULT_SENSORS >? MAX_SENSORS then MAX_SENSORS
              else NUM_DEFAULT_SENSORS) as count.
  intros count idx.
  change (pid state) with (pid (set_sensors state (sensors state) count)).
  change (fan_duty_percent state)
    with (fan_duty_percent (set_sensors state (sensors state) count)).
  change (sel_part state) with (sel_part (set_sensors state (sensors state) count)).
  change (fw_images state) with (fw_images (set_sensors state (sensors state) count)).
  change (fw_image_count state)
    with (fw_image_count (set_sensors state (sensors state) count)).
  change (secure_boot_passed state)
    with (secure_boot_passed (set_sensors state (sensors state) count)).
  change (running state) with (running (set_sensors state (sensors state) count)).
  generalize (set_sensors state (sensors state) count) as st. clear state.
  induction idx as [| i rest IH]; intros st; [by repeat split |].
  cbn [foldl].
  destruct (IH (sensor_init_step now st i)) as (-> & -> & -> & -> & -> & -> & ->).
  apply sensor_init_step_rest.
Qed.

Section StartupFrames.

Variable SHA256 : list Z -> list Z.
Variable rand_stream : Z -> nat -> Z.

(** *** [secure_boot_init] *)

Lemma secure_boot_init_step_frame (acc : filesystem * bmc_state_t) (i : Z) :
  let acc' := secure_boot_init_step SHA256 rand_stream acc i in
  same_plant (snd acc') (snd acc) /\
  sel_part (snd acc') = sel_part (snd acc) /\
  fw_image_count (snd acc') = fw_image_count (snd acc) /\
  secure_boot_passed (snd acc') = secure_boot_passed (snd acc).
Proof.
  destruct acc as [fs state]. unfold secure_boot_init_step.
  destruct (array_get (fw_images state) i); [| by repeat split].
  destruct (array_get fw_configs i); by repeat split.
Qed.

Lemma secure_boot_init_loop_frame (idx : list Z) :
  forall acc : filesystem * bmc_state_t,
    let acc' := foldl (secure_boot_init_step SHA256 rand_stream) acc idx in
    same_plant (snd acc') (snd acc) /\
    sel_part (snd acc') = sel_part (snd acc) /\
    fw_image_count (snd acc') = fw_image_count (snd acc) /\
    secure_boot_passed (snd acc') = secure_boot_passed (snd acc).
Proof.
  induction idx as [| i rest IH]; intros acc; [by repeat split |].
  cbn [foldl].
  destruct (IH (secure_boot_init_step SHA256 rand_stream acc i))
    as (Hp & Hs & Hc & Hb).
  destruct (secure_boot_init_step_frame acc i) as (Hp' & Hs' & Hc' & Hb').
  split; [by apply (same_plant_trans _ _ _ Hp) |].
  repeat split; congruence.
Qed.

(** [secure_boot_init] leaves the plant alone and logs one entry. *)
Lemma secure_boot_init_frame (fs : filesystem) (state : bmc_state_t) (now : Z) :
  let r := secure_boot_init SHA256 rand_stream fs state now in
  same_plant (snd (fst r)) state /\
  secure_boot_passed (snd (fst r)) = secure_boot_passed state /\
  sel_part (snd (fst r))
  = sel_part (sel_append state
                (now, SEL_SEVERITY_INFO, "SecureBoot",
                 "Secure boot chain initialized with 4 images")%string).
Proof.
  unfold secure_boot_init.
  change (if NUM_FW_IMAGES >? MAX_FW_IMAGES then MAX_FW_IMAGES else NUM_FW_IMAGES)
    with 4.
  pose proof (secure_boot_init_loop_frame (seqZ 0 4)
                (fs, set_fw_images state (fw_images state) 4)) as Hloop.
  cbv zeta in Hloop.
  destruct (foldl (secure_boot_init_step SHA256 rand_stream)
                  (fs, set_fw_images state (fw_images state) 4) (seqZ 0 4))
    as [fs1 state1].
  cbn [fst snd] in Hloop |- *.
  destruct Hloop as (Hp & Hs & Hc & Hb).
  cbn [fw_image_count set_fw_images] in Hc. rewrite Hc.
  change (string_of_Z 4) with "4"%string.
  split; [| split].
  - apply (same_plant_trans _ state1); [apply sel_add_entry_same_plant |].
    apply (same_plant_trans _ _ _ Hp). by repeat split.
  - match goal with
    | |- context [sel_add_entry ?st ?t ?sev ?src ?m] =>
        destruct (sel_add_entry_frame st t sev src m)
          as (_ & _ & _ & _ & _ & _ & -> & _)
    end.
    exact Hb.
  - apply (sel_append_sel_part state1 state
             (now, SEL_SEVERITY_INFO, "SecureBoot"%string,
              "Secure boot chain initialized with 4 images"%string)).
    exact Hs.
Qed.

(** *** [secure_boot_verify] *)

Lemma verify_step_pass_eq (fs : filesystem) (now : Z) (i : Z) (rest : list Z)
    (state : bmc_state_t) (all_passed : bool) (fw : fw_image_t) :
  array_get (fw_images state) i = Some fw ->
  image_intact SHA256 fs fw ->
  secure_boot_verify_loop SHA256 fs now (i :: rest) state all_passed
  = secure_boot_verify_loop SHA256 fs now rest
      (sel_append
         (set_fw_images state
            (array_set (fw_images state) i (fw_checked fw (expected_hash fw)))
            (fw_image_count state))
         (pass_event now (fw_images state) i))
      all_passed.
Proof.
  intros Hfw (content & Hfs & Hhash). cbn [secure_boot_verify_loop].
  unfold pass_event. rewrite Hfw. unfold compute_file_hash. rewrite Hfs.
  cbn [passed from_option]. rewrite <- Hhash, String.eqb_refl.
  unfold fw_checked. rewrite String.eqb_refl. reflexivity.
Qed.

(** A verification in which every image is intact passes, leaves the plant
    alone and logs one entry for each image. *)
Lemma verify_loop_all_pass (fs : filesystem) (now : Z) (n : nat) :
  forall (a : Z) (state : bmc_state_t) (all_passed : bool),
    (forall j, a <= j < a + Z.of_nat n ->
               exists fw, array_get (fw_images state) j = Some fw /\
                          image_intact SHA256 fs fw) ->
    let r := secure_boot_verify_loop SHA256 fs now (seqZ a (Z.of_nat n))
                                     state all_passed in
    snd r = all_passed /\
    same_plant (fst r) state /\
    sel_part (fst r)
    = sel_part (sel_append_all state
                  (map (pass_event now (fw_images state)) (seqZ a (Z.of_nat n)))).
Proof.
  induction n as [| n IH]; intros a state all_passed Hall r.
  - subst r. change (seqZ a (Z.of_nat 0)) with (@nil Z).
    cbn [secure_boot_verify_loop fst snd map sel_append_all foldl].
    split; [reflexivity |]. split; [apply same_plant_refl | reflexivity].
  - subst r. rewrite Nat2Z.inj_succ, (seqZ_cons a) by lia.
    rewrite Z.pred_succ.
    destruct (Hall a ltac:(lia)) as (fw & Hfw & Hintact).
    rewrite (verify_step_pass_eq fs now a _ state all_passed fw Hfw Hintact).
    set (state1 :=
           sel_append
             (set_fw_images state
                (array_set (fw_images state) a (fw_checked fw (expected_hash fw)))
                (fw_image_count state))
             (pass_event now (fw_images state) a)).
    assert (Himgs1 : fw_images state1
                     = array_set (fw_images state) a
                                 (fw_checked fw (expected_hash fw))).
    { unfold state1, sel_append, pass_event.
      by rewrite sel_add_entry_fw_images. }
    assert (Hall1 : forall j, Z.succ a <= j < Z.succ a + Z.of_nat n ->
               exists fw', array_get (fw_images state1) j = Some fw' /\
                           image_intact SHA256 fs fw').
    { intros j Hj. rewrite Himgs1, array_get_set_ne by lia. apply Hall. lia. }
    destruct (IH (Z.succ a) state1 all_passed Hall1) as (Hr & Hp & Hs).
    split; [exact Hr |]. split.
    + apply (same_plant_trans _ _ _ Hp). unfold state1, sel_append, pass_event.
      apply (same_plant_trans _ _ _ (sel_add_entry_same_plant _ _ _ _ _)).
      by repeat split.
    + rewrite Hs. cbn [map sel_append_all foldl].
      assert (Hev : map (pass_event now (fw_images state1))
                        (seqZ (Z.succ a) (Z.of_nat n))
                    = map (pass_event now (fw_images state))
                          (seqZ (Z.succ a) (Z.of_nat n))).
      { apply map_ext_in. intros j Hj.
        apply list_elem_of_In, elem_of_seqZ in Hj.
        unfold pass_event. rewrite Himgs1, array_get_set_ne by lia. reflexivity. }
      rewrite Hev. apply sel_append_all_sel_part.
      apply (sel_append_sel_part _ state (pass_event now (fw_images state) a)).
      reflexivity.
Qed.

End StartupFrames.


Lemma sel_part_snoc (s s' s1 : bmc_state_t) (l : list sel_args) (a : sel_args) :
  sel_part s = sel_part (sel_append_all s1 l) ->
  sel_part s' = sel_part (sel_append s a) ->
  sel_part s' = sel_part (sel_append_all s1 (l ++ [a])).
Proof.
  intros Hs Hs'. rewrite Hs'. unfold sel_append_all. rewrite foldl_app.
  cbn [foldl]. by apply sel_append_sel_part.
Qed.

Lemma sel_part_app (s s' s1 : bmc_state_t) (l l' : list sel_args) :
  sel_part s = sel_part (sel_append_all s1 l) ->
  sel_part s' = sel_part (sel_append_all s l') ->
  sel_part s' = sel_part (sel_append_all s1 (l ++ l')).
Proof.
  intros Hs Hs'. rewrite Hs'. unfold sel_append_all at 2. rewrite foldl_app.
  by apply sel_append_all_sel_part.
Qed.

Lemma sel_append_secure_boot_passed (state : bmc_state_t) (a : sel_args) :
  secure_boot_passed (sel_append state a) = secure_boot_passed state.
Proof.
  destruct a as [[[now sev] src] msg]. unfold sel_append.
  apply sel_add_entry_frame.
Qed.

Section Startup.

Variable SHA256 : list Z -> list Z.
Variable rand_stream : Z -> nat -> Z.

(** The state [main_startup] ends in: the index found is 0, the firmware
    counts as verified, the daemon is up with the fan at 30 percent, and
    the log is the empty log with eight entries appended. *)
Lemma main_startup_state (fs : filesystem) (clock : nat -> Z) :
  let boot := main_startup SHA256 rand_stream fs clock in
  let state := snd (fst boot) in
  snd boot = Some 0 /\
  secure_boot_passed state = true /\
  daemon_up state /\
  (fan_duty_percent state == 30)%Q /\
  sel_part state
  = sel_part
      (sel_append_all (fst (sel_init bmc_state_init))
         [(clock 0%nat, SEL_SEVERITY_INFO, "System", "BMC daemon starting up");
          (clock 2%nat, SEL_SEVERITY_INFO, "SecureBoot",
           "Secure boot chain initialized with 4 images");
          (clock 3%nat, SEL_SEVERITY_INFO, "SecureBoot",
           "PASS: Image 'bootloader' integrity verified");
          (clock 3%nat, SEL_SEVERITY_INFO, "SecureBoot",
           "PASS: Image 'bmc_firmware' integrity verified");
          (clock 3%nat, SEL_SEVERITY_INFO, "SecureBoot",
           "PASS: Image 'application' integrity verified");
          (clock 3%nat, SEL_SEVERITY_INFO, "SecureBoot",
           "PASS: Image 'config_data' integrity verified");
          (clock 4%nat, SEL_SEVERITY_INFO, "System",
           "Secure boot verification passed");
          (clock 5%nat, SEL_SEVERITY_INFO, "System",
           "BMC daemon fully operational")]%string).
Proof.
  intros boot state. subst state boot. unfold main_startup.
  set (s1 := fst (sel_init bmc_state_init)).
  set (e1 := (clock 0%nat, SEL_SEVERITY_INFO, "System",
              "BMC daemon starting up")%string : sel_args).
  set (s2 := fst (sel_add_entry s1 (clock 0%nat) SEL_SEVERITY_INFO "System"
                    "BMC daemon starting up")).
  set (s3 := fst (sensor_init s2 (clock 1%nat))).
  set (s4 := set_pid s3 (pid_init (pid s3) 3.0 0.1 1.5 65.0)).
  set (s5 := set_pid s4 (pid_set_output_limits (pid s4) 10.0 100.0)).
  (* the state before the firmware is set up *)
  assert (H2 : sel_part s2 = sel_part (sel_append_all s1 [e1])) by reflexivity.
  destruct (sensor_init_rest s2 (clock 1%nat))
    as (_ & Hfan3 & Hsel3 & Himgs3 & _ & _ & _).
  fold s3 in Hfan3, Hsel3, Himgs3.
  assert (Hsens3 : sensors s3 = map (init_reading (clock 1%nat)) default_sensors)
    by (apply sensor_init_sensors; reflexivity).
  assert (Hcount3 : sensor_count s3 = MAX_SENSORS) by apply sensor_init_frame.
  assert (Hlen5 : length (fw_images s5) = Z.to_nat MAX_FW_IMAGES).
  { change (fw_images s5) with (fw_images s3). rewrite Himgs3. reflexivity. }
  assert (Himgs5 : fw_images s5 = replicate 4 zero_fw_image).
  { change (fw_images s5) with (fw_images s3). rewrite Himgs3. reflexivity. }
  (* the firmware is set up *)
  destruct (secure_boot_init_frame SHA256 rand_stream fs s5 (clock 2%nat))
    as (Hp6 & _ & Hsel6).
  pose proof (secure_boot_init_intact SHA256 rand_stream fs s5 (clock 2%nat) Hlen5)
    as Hintact.
  destruct (secure_boot_init_images SHA256 rand_stream fs s5 (clock 2%nat) Hlen5)
    as (Hcount6 & Hlen6 & _ & _).
  destruct (secure_boot_init_result SHA256 rand_stream fs s5 (clock 2%nat)
              zero_fw_image zero_fw_image zero_fw_image zero_fw_image Himgs5)
    as (_ & Himgs6 & _).
  cbv zeta in Hintact.
  destruct (secure_boot_init SHA256 rand_stream fs s5 (clock 2%nat))
    as [[fs1 s6] rc].
  cbn [fst snd] in Hp6, Hsel6, Hintact, Hcount6, Hlen6, Himgs6.
  (* the firmware is verified *)
  rewrite secure_boot_verify_unfold, Hcount6.
  destruct (verify_loop_all_pass SHA256 fs1 (clock 3%nat) 4 0 s6 true)
    as (Hok & Hp7 & Hsel7).
  { intros j Hj.
    destruct (array_get (fw_images s6) j) as [fw |] eqn:Hfw.
    - exists fw. split; [reflexivity |]. by apply (Hintact j).
    - unfold array_get in Hfw. destruct (Z.ltb_spec j 0); [lia |].
      apply lookup_ge_None in Hfw. lia. }
  change (Z.of_nat 4) with 4 in Hok, Hp7, Hsel7.
  set (loop := secure_boot_verify_loop SHA256 fs1 (clock 3%nat) (seqZ 0 4) s6 true)
    in *.
  rewrite Hok. cbn [fst snd].
  set (s7 := set_secure_boot_passed (fst loop) true).
  set (e7 := (clock 4%nat, SEL_SEVERITY_INFO, "System",
              "Secure boot verification passed")%string : sel_args).
  set (e8 := (clock 5%nat, SEL_SEVERITY_INFO, "System",
              "BMC daemon fully operational")%string : sel_args).
  set (s8 := sel_append s7 e7).
  set (s9 := sel_append s8 e8).
  (* the plant is the one the set-up of the sensors and the controller left *)
  assert (Hp9 : same_plant s9 s5).
  { apply (same_plant_trans _ s8); [apply sel_add_entry_same_plant |].
    apply (same_plant_trans _ s7); [apply sel_add_entry_same_plant |].
    apply (same_plant_trans _ (fst loop)); [by repeat split |].
    apply (same_plant_trans _ _ _ Hp7), Hp6. }
  destruct Hp9 as (Hsens9 & Hcount9 & Hpid9 & Hfan9 & _).
  change (sensors s5) with (sensors s3) in Hsens9.
  change (sensor_count s5) with (sensor_count s3) in Hcount9.
  change (fan_duty_percent s5) with (fan_duty_percent s3) in Hfan9.
  rewrite Hsens3 in Hsens9. rewrite Hcount3 in Hcount9.
  (* the log *)
  assert (H5 : sel_part s5 = sel_part (sel_append_all s1 [e1])).
  { change (sel_part s5) with (sel_part s3). by rewrite Hsel3. }
  set (e2 := (clock 2%nat, SEL_SEVERITY_INFO, "SecureBoot",
              "Secure boot chain initialized with 4 images")%string : sel_args)
    in *.
  pose proof (sel_part_snoc s5 s6 s1 [e1] e2 H5 Hsel6) as H6.
  pose proof (sel_part_app s6 (fst loop) s1 _ _ H6 Hsel7) as H7.
  assert (H7' : sel_part s7 = sel_part (fst loop)) by reflexivity.
  rewrite <- H7' in H7.
  pose proof (sel_part_snoc s7 s8 s1 _ e7 H7 eq_refl) as H8.
  pose proof (sel_part_snoc s8 s9 s1 _ e8 H8 eq_refl) as H9.
  rewrite Himgs6 in H9.
  change (seqZ 0 4) with [0; 1; 2; 3] in H9.
  cbn [map app] in H9.
  match type of H9 with
  | _ = sel_part (sel_append_all _ ?l) => set (args := l) in H9
  end.
  match goal with
  | |- context [find_cpu_temp_sensor ?st] => change st with s9
  end.
  split.
  { unfold find_cpu_temp_sensor. rewrite Hsens9, Hcount9. reflexivity. }
  split; [unfold s9, s8; by rewrite !sel_append_secure_boot_passed |].
  split.
  { unfold daemon_up. rewrite Hsens9, Hcount9, Hpid9, Hfan9, Hfan3.
    split; [reflexivity |]. split; [reflexivity |].
    split.
    { apply (sel_wf_sel_part _ _ (eq_sym H9)), sel_append_all_wf.
      split; [reflexivity | cbn; unfold MAX_SEL_ENTRIES; lia]. }
    split; [eexists; by repeat split |].
    repeat split; unfold Qle; cbn; lia. }
  split; [by rewrite Hfan9, Hfan3 |].
  exact H9.
Qed.


End Startup.

Section Daemon.

Variable SHA256 : list Z -> list Z.
Variable rand_stream : Z -> nat -> Z.

(** The daemon once it is up.  A run of turns of the control loop and IPMI
    commands from the start, taken one at a time, either stops at a Get
    Sensor Reading whose conversion to [int16_t] is undefined (the reading
    times 256 is outside the type, as for a fan above 128 rpm), or ends
    in a state with eight sensors in an array of eight, sensor 0 the CPU
    temperature, the log within its 256 slots, the output limits of the
    controller 10 and 100, the fan duty in [0, 100], and the firmware
    still counted as verified.  From such a state a turn of the control
    loop reads no sensor outside the array and leaves the fan duty at the
    output of the controller, in [10, 100], whatever duty a command had
    set. *)
Theorem daemon_fan_duty_bounds (fs : filesystem) (clock : nat -> Z)
    (cpu_idx : Z) (events : list daemon_event) :
  let boot := main_startup SHA256 rand_stream fs clock in
  snd boot = Some cpu_idx ->
  match daemon_run cpu_idx (snd (fst boot)) events with
  | Some state =>
      daemon_up state /\
      secure_boot_passed state = true /\
      forall now draws,
      exists state',
        main_loop_body state cpu_idx now draws = Some state' /\
        (10 <= fan_duty_percent state')%Q /\
        (fan_duty_percent state' <= 100)%Q /\
        fan_duty_percent state' = output (pid state')
  | None => stops_at_undefined_reading cpu_idx (snd (fst boot)) events
  end.
Proof.
  intros boot Hidx.
  destruct (main_startup_state SHA256 rand_stream fs clock)
    as (Hidx0 & Hsb0 & Hup0 & _).
  fold boot in Hidx0, Hsb0, Hup0.
  assert (cpu_idx = 0) as -> by congruence.
  pose proof (daemon_run_outcome events _ Hup0) as Hrun.
  destruct (daemon_run 0 (snd (fst boot)) events) as [state |]; [| exact Hrun].
  destruct Hrun as [Hup Hsb].
  split; [exact Hup |]. split; [congruence |].
  intros now draws.
  destruct (main_loop_body_up state now draws Hup)
    as (state' & Hbody & Hup' & Hlo & Hout & _).
  exists state'. split; [exact Hbody |]. split; [exact Hlo |].
  split; [apply Hup' | exact Hout].
Qed.

End Daemon.

(** ** The precision of a reading on the wire *)

(** The integral part of a non-negative double below a whole number. *)
Lemma Qtrunc_bounds (x : Q) (n : Z) :
  (0 <= x)%Q -> (x <= inject_Z n)%Q -> 0 <= Qtrunc x <= n.
Proof.
  destruct x as [p q]. unfold Qle, Qtrunc, inject_Z. cbn [Qnum Qden].
  intros Hp Hn. rewrite Z.mul_1_r in Hp.
  rewrite Z.quot_div_nonneg by lia. split.
  - apply Z.div_pos; lia.
  - apply Z.div_le_upper_bound; lia.
Qed.

Lemma Qtrunc_floor (x : Q) :
  (0 <= x)%Q -> (inject_Z (Qtrunc x) <= x)%Q /\ (x < inject_Z (Qtrunc x) + 1)%Q.
Proof.
  destruct x as [p q]. unfold Qle, Qlt, Qtrunc, inject_Z, Qplus.
  cbn [Qnum Qden]. intros Hp. rewrite Z.mul_1_r in Hp.
  rewrite Z.quot_div_nonneg by lia.
  pose proof (Z.div_mod p (Z.pos q) ltac:(lia)) as Hdm.
  pose proof (Z.mod_pos_bound p (Z.pos q) ltac:(lia)) as Hm.
  rewrite !Z.mul_1_r. cbn [Pos.mul]. split; nia.
Qed.

(** The two bytes of a reading on the wire: for a value in [0, 128) Get
    Sensor Reading answers 0x00 with the whole part of the value in byte 0
    and its 256ths, the remainder cut off, in byte 1, so that the reading
    decoded from the bytes lies within 1/256 below the value. *)
Theorem get_sensor_reading_precision (state : bmc_state_t)
    (req : ipmi_request_t) (now : Z) (s : sensor_reading_t) :
  netfn req = IPMI_NETFN_SENSOR ->
  cmd req = IPMI_CMD_GET_SENSOR_READING ->
  1 <= data_len req ->
  req_byte req 0 < sensor_count state ->
  array_get (sensors state) (req_byte req 0) = Some s ->
  (0 <= value s)%Q -> (value s < 128)%Q ->
  exists resp b0 b1,
    ipmi_handle_command state req now = Some (state, resp) /\
    completion_code resp = IPMI_CC_OK /\
    take 2 (resp_data resp) = [b0; b1] /\
    0 <= b0 < 128 /\ 0 <= b1 < 256 /\
    (inject_Z b0 + inject_Z b1 / 256 <= value s)%Q /\
    (value s < inject_Z b0 + inject_Z b1 / 256 + 1 / 256)%Q.
Proof.
  intros Hnetfn Hcmd Hlen Hidx Hs Hlo Hhi.
  set (raw := Qtrunc (value s * 256.0)%Q).
  assert (Hx : (0 <= value s * 256.0)%Q) by lra.
  destruct (Qtrunc_floor _ Hx) as [Hfl Hfu]. fold raw in Hfl, Hfu.
  assert (Hraw : 0 <= raw < 32768).
  { split.
    - apply Qtrunc_bounds with (n := 32768); [exact Hx |].
      change (inject_Z 32768) with 32768%Q. lra.
    - assert (H : (inject_Z raw < inject_Z 32768)%Q).
      { change (inject_Z 32768) with 32768%Q. lra. }
      rewrite <- Zlt_Qlt in H. exact H. }
  unfold ipmi_handle_command. rewrite Hnetfn, Hcmd.
  change (IPMI_NETFN_SENSOR =? IPMI_NETFN_APP) with false.
  change (IPMI_NETFN_SENSOR =? IPMI_NETFN_SENSOR) with true.
  change (IPMI_CMD_GET_SENSOR_READING =? IPMI_CMD_GET_SENSOR_READING) with true.
  cbv iota. unfold handle_get_sensor_reading.
  destruct (data_len req <? 1) eqn:Hshort; [lia |].
  destruct (req_byte req 0 >=? sensor_count state) eqn:E; [lia |].
  rewrite Hs. unfold double_to_int16. cbv zeta. fold raw.
  destruct ((-32768 <=? raw) && (raw <=? 32767)) eqn:Hfit; [| lia].
  cbn [option_map].
  exists {| completion_code := IPMI_CC_OK;
            resp_data :=
              <[3%nat := to_uint8 (sensor_type_to_Z (type s))]>
                (<[2%nat := to_uint8 (sensor_status_to_Z (status s))]>
                   (<[1%nat := to_uint8 (Z.land raw 0xFF)]>
                      (<[0%nat := to_uint8 (Z.shiftr raw 8)]>
                         (resp_data zero_response))));
            resp_data_len := 4 |}, (raw / 256), (raw mod 256).
  split; [reflexivity |]. split; [reflexivity |].
  cbn [resp_data].
  pose proof (Z.div_mod raw 256 ltac:(lia)) as Hdm.
  pose proof (Z.mod_pos_bound raw 256 ltac:(lia)) as Hm.
  assert (Hq : 0 <= raw / 256 < 128).
  { split; [apply Z.div_pos; lia | apply Z.div_lt_upper_bound; lia]. }
  split.
  { unfold to_uint8. rewrite Z.shiftr_div_pow2 by lia.
    change 0xFF with (Z.ones 8). rewrite Z.land_ones by lia.
    change (2 ^ 8) with 256.
    rewrite (Z.mod_small (raw / 256)) by lia.
    rewrite Z.mod_mod by lia. reflexivity. }
  split; [exact Hq |]. split; [exact Hm |].
  assert (Hdec : (inject_Z raw == 256 * inject_Z (raw / 256) + inject_Z (raw mod 256))%Q).
  { rewrite Hdm at 1. rewrite inject_Z_plus, inject_Z_mult. reflexivity. }
  unfold Qdiv. cbn [Qinv Qnum Qden].
  rewrite Hdec in Hfl, Hfu.
  split; lra.
Qed.

(** ** The statements at concrete inputs *)

(** C2, as stated, fails.  Run [secure_boot_init], a [secure_boot_verify]
    that passes, [tamper(1)], and a second [secure_boot_verify] (with the
    example digest and generator).  In the second call image 1 fails, yet
    images 2 and 3 have [verified = true]: the flags of the first call are
    still there. *)
Lemma secure_boot_reverify_stale_flags :
  let r1 := secure_boot_init example_digest example_rand ∅ bmc_state_init 0 in
  let r2 := secure_boot_verify example_digest (fst (fst r1)) (snd (fst r1)) 1 in
  let r3 := secure_boot_inject_tamper (fst (fst r1)) (fst r2) 1 2 in
  let r4 := secure_boot_verify example_digest (fst (fst r3)) (snd (fst r3)) 3 in
  snd r2 = true /\
  map (fun fw => (fw_name fw, verified fw, passed fw)) (fw_images (fst r4))
  = [("bootloader"%string, true, true); ("bmc_firmware"%string, true, false);
     ("application"%string, true, true); ("config_data"%string, true, true)] /\
  snd r4 = false.
Proof.
  apply (reverify_scenario example_digest example_rand ∅ bmc_state_init 0 1 2 3).
  - reflexivity.
  - vm_compute. discriminate.
Qed.

(** The general part of C2 and its scenario, run with the example digest
    and generator: the state after [secure_boot_init] is verified, and the
    tamper scenario gives the flags of the specification. *)
Lemma secure_boot_verify_chain_break_witness :
  let r1 := secure_boot_init example_digest example_rand ∅ bmc_state_init 0 in
  let r2 := secure_boot_inject_tamper (fst (fst r1)) (snd (fst r1)) 1 1 in
  let r3 := secure_boot_verify example_digest (fst (fst r2)) (snd (fst r2)) 2 in
  chain_ready (fst (fst r1)) (snd (fst r1)) 0
              (Z.to_nat (fw_image_count (snd (fst r1)))) /\
  snd r2 = 0 /\
  map (fun fw => (fw_name fw, verified fw, passed fw)) (fw_images (fst r3))
  = [("bootloader"%string, true, true); ("bmc_firmware"%string, true, false);
     ("application"%string, false, false); ("config_data"%string, false, false)] /\
  secure_boot_passed (fst r3) = false /\
  snd r3 = false.
Proof.
  intros r1 r2 r3.
  assert (Hready : chain_ready (fst (fst r1)) (snd (fst r1)) 0
                     (Z.to_nat (fw_image_count (snd (fst r1))))).
  { apply (chain_ready_init example_digest example_rand ∅ bmc_state_init 0).
    reflexivity. }
  assert (Hdiff : hex_digest (example_digest (255 :: drop 1 (fw_blob example_rand 43)))
                  <> hex_digest (example_digest (fw_blob example_rand 43))).
  { vm_compute. discriminate. }
  split; [exact Hready |].
  exact (proj2 (secure_boot_verify_chain_break example_digest example_rand
                  (fst (fst r1)) (snd (fst r1)) 1 ∅ bmc_state_init 0 1 2
                  Hready eq_refl Hdiff)).
Defined.

(** C5, as stated, fails.  After [sensor_init] the reading of VCore
    (sensor 3) is 1.05, so [value * 256 = 268.8]: rounding gives 269
    (bytes 0x01 0x0D), and the handler answers 268 (bytes 0x01 0x0C). *)
Lemma get_sensor_reading_not_rounded :
  let state := fst (sensor_init bmc_state_init 0) in
  let req :=
    mk_ipmi_request IPMI_NETFN_SENSOR IPMI_CMD_GET_SENSOR_READING [3] 1 in
  option_map (fun s => (name s, Qred (value s), spec_sensor_encoding (value s)))
             (array_get (sensors state) 3)
  = Some ("VCore"%string, 21 # 20, [1; 13]) /\
  option_map (fun r => (completion_code (snd r), take 4 (resp_data (snd r)),
                        resp_data_len (snd r)))
             (ipmi_handle_command state req 0)
  = Some (IPMI_CC_OK, [1; 12; 0; 1], 4).
Proof. vm_compute. split; reflexivity. Qed.

(** The amended C5 at the same request: the answer for VCore after
    [sensor_init] is 0x00 with the bytes 0x01 0x0C, Ok, Voltage. *)
Lemma get_sensor_reading_response_witness :
  let state := fst (sensor_init bmc_state_init 0) in
  let req :=
    mk_ipmi_request IPMI_NETFN_SENSOR IPMI_CMD_GET_SENSOR_READING [3] 1 in
  exists resp : ipmi_response_t,
    ipmi_handle_command state req 0 = Some (state, resp) /\
    completion_code resp = IPMI_CC_OK /\
    resp_data_len resp = 4 /\
    take 4 (resp_data resp) = [1; 12; 0; 1].
Proof.
  intros state req.
  destruct (get_sensor_reading_response state req 0 eq_refl eq_refl)
    as [_ Hvalid]; [cbn; lia |].
  destruct (array_get (sensors state) (req_byte req 0)) as [s |] eqn:Hs;
    [| vm_compute in Hs; discriminate Hs].
  destruct (Hvalid s) as (resp & Hresp & Hcc & Hlen & Hdata).
  - vm_compute. reflexivity.
  - reflexivity.
  - vm_compute in Hs. injection Hs as <-. vm_compute. split; discriminate.
  - exists resp. repeat split; try assumption.
    rewrite Hdata. vm_compute in Hs. injection Hs as <-. reflexivity.
Defined.

(** C3 as stated fails on binary64.  After [pid_init] with [ki = 0.077]
    and one step at 2000 degrees the integral sits at the limit
    [90 / 0.077], a rounded quotient, and [ki * integral] is
    90.000000000000014, above the span of 90.  A step at a NaN
    temperature leaves a NaN integral, and a state whose limits are both
    the positive infinity has a NaN span: neither is within the bound. *)
Lemma pid_integral_term_exceeds_span :
  let pid := B64.pid_init B64.zero_pid 3 0.077 1.5 65 in
  let pid1 := fst (B64.pid_compute pid 2000 1) in
  let pid2 := fst (B64.pid_compute pid nan 1) in
  let pid3 :=
    fst (B64.pid_compute
           (B64.mk_pid_state 3 0.1 1.5 65 0 0 30 infinity infinity) 2000 1) in
  (0 <? B64.ki pid)%float = true /\
  (0 <? B64.ki pid3)%float = true /\
  (B64.output_max pid1 - B64.output_min pid1)%float = 90%float /\
  (B64.ki pid1 * B64.integral pid1)%float = 90.000000000000014%float /\
  (abs (B64.ki pid1 * B64.integral pid1)
   <=? B64.output_max pid1 - B64.output_min pid1)%float = false /\
  (abs (B64.ki pid2 * B64.integral pid2)
   <=? B64.output_max pid2 - B64.output_min pid2)%float = false /\
  (abs (B64.ki pid3 * B64.integral pid3)
   <=? B64.output_max pid3 - B64.output_min pid3)%float = false.
Proof. vm_compute. repeat split; reflexivity. Qed.

(** C3 as amended, at the first input of the counterexample: neither the
    limit nor the integral is a NaN, and the integral is at the limit. *)
Lemma pid_compute_integral_within_limit_witness :
  let pid := B64.pid_init B64.zero_pid 3 0.077 1.5 65 in
  (abs (B64.integral (fst (B64.pid_compute pid 2000 1)))
   <=? abs ((B64.output_max pid - B64.output_min pid) / B64.ki pid))%float
  = true.
Proof.
  intros pid.
  destruct (pid_compute_integral_within_limit pid 2000 1 eq_refl)
    as [H | [H | H]].
  - vm_compute in H. discriminate H.
  - vm_compute in H. discriminate H.
  - exact H.
Defined.

(** C7 as stated fails on binary64.  Under the default limits [10, 100],
    after [pid_reset], a step at the setpoint with an infinite time step
    or a NaN one returns a NaN, not 40; and so does a step of one second
    on a controller with an infinite gain or setpoint. *)
Lemma pid_compute_at_setpoint_nan :
  let pid := B64.pid_reset (B64.pid_init B64.zero_pid 3 0.1 1.5 65) in
  let at_setpoint (p : B64.pid_state_t) (dt : float) :=
    snd (B64.pid_compute (B64.pid_reset p) (B64.setpoint p) dt) in
  (B64.output_min pid <=? 40)%float = true /\
  (40 <=? B64.output_max pid)%float = true /\
  is_nan (at_setpoint pid infinity) = true /\
  is_nan (at_setpoint pid nan) = true /\
  is_nan (at_setpoint (B64.pid_init B64.zero_pid infinity 0.1 1.5 65)
                      1%float) = true /\
  is_nan (at_setpoint (B64.pid_init B64.zero_pid 3 infinity 1.5 65)
                      1%float) = true /\
  is_nan (at_setpoint (B64.pid_init B64.zero_pid 3 0.1 infinity 65)
                      1%float) = true /\
  is_nan (at_setpoint (B64.pid_init B64.zero_pid 3 0.1 1.5 infinity)
                      1%float) = true.
Proof. vm_compute. repeat split; reflexivity. Qed.

(** C7 as amended under the default limits [10, 100], on a controller that
    has accumulated state before the reset. *)
Lemma pid_reset_compute_at_setpoint_witness :
  let pid :=
    fst (B64.pid_compute (B64.pid_init B64.zero_pid 2 0.1 0.5 65) 80 1) in
  snd (B64.pid_compute (B64.pid_reset pid) (B64.setpoint pid) 1) = 40%float /\
  B64.output (fst (B64.pid_compute (B64.pid_reset pid) (B64.setpoint pid) 1))
  = 40%float.
Proof.
  intros pid.
  apply (pid_reset_compute_at_setpoint pid 1); reflexivity.
Defined.

(** C9 at the limits (80, 20). *)
Lemma pid_set_output_limits_rejects_witness :
  let pid := pid_init zero_pid 3.0 0.1 1.5 65.0 in
  (20 <= 80)%Q /\ pid_set_output_limits pid 80 20 = pid.
Proof.
  intros pid.
  assert (H : (20 <= 80)%Q) by (unfold Qle; cbn; lia).
  split; [exact H |].
  exact (pid_set_output_limits_rejects pid 80 20 H).
Defined.

(** C4 on the initial state, with 300 Info entries. *)
Lemma sel_ring_overflow_witness :
  let args := replicate 300 (0, SEL_SEVERITY_INFO, "Test", "entry")%string in
  let final := sel_append_all bmc_state_init args in
  sel_count final = 256 /\
  map id (sel_live final) = seqZ 45 256 /\
  sel_next_id final = 301.
Proof.
  intros args final.
  pose proof (sel_ring_overflow bmc_state_init args eq_refl eq_refl eq_refl
                eq_refl) as H.
  cbv zeta in H. destruct H as (Hcount & _ & Hids & Hnext & _).
  split; [exact Hcount | split; [exact Hids | exact Hnext]].
Defined.

(** C6 at the CPU fan, after [sensor_init] and one poll at 30 percent
    duty. *)
Lemma sensor_poll_classifies_witness :
  let state := fst (sensor_init bmc_state_init 0) in
  let state' := sensor_poll state 30 1 (fun _ => 0%Q) in
  match array_get (sensors state') 6 with
  | Some s => status s = evaluate_status s /\ status_classification s
  | None => False
  end.
Proof.
  intros state state'.
  destruct (array_get (sensors state') 6) as [s |] eqn:Hs.
  - apply (sensor_poll_classifies state 30 1 (fun _ => 0%Q) 6 s).
    + vm_compute. split; [discriminate | reflexivity].
    + vm_compute. discriminate.
    + exact Hs.
  - vm_compute in Hs. discriminate Hs.
Defined.

(** C10 at a Get SEL Entry request of one byte. *)
Lemma ipmi_short_request_rejected_witness :
  let req :=
    mk_ipmi_request IPMI_NETFN_STORAGE IPMI_CMD_GET_SEL_ENTRY [0] 1 in
  data_len req < 2 /\
  ipmi_handle_command bmc_state_init req 0
  = Some (bmc_state_init,
          {| completion_code := IPMI_CC_INVALID_PARAM;
             resp_data := replicate 256 0;
             resp_data_len := 0 |}).
Proof.
  intros req.
  assert (Hlen : data_len req < 2) by (cbn; lia).
  split; [exact Hlen |].
  exact (proj1 (ipmi_short_request_rejected bmc_state_init req 0
                  (or_intror (or_intror (conj eq_refl (conj eq_refl Hlen)))))).
Defined.

(** The set-up of [main] ([pid_init] with the default tuning,
    [pid_set_output_limits] (10, 100)), two steps, and a step at 95
    degrees. *)
Lemma pid_run_output_within_bounds_witness :
  let pid :=
    B64.pid_run (B64.pid_init B64.zero_pid 3 0.1 1.5 65)
      [B64.PidSetOutputLimits 10 100; B64.PidCompute 80 2;
       B64.PidCompute 90 2] in
  let out := snd (B64.pid_compute pid 95 2) in
  (B64.output_min pid <? B64.output_max pid)%float = true /\
  output_within_limits pid /\
  (is_nan out = true \/
   ((B64.output_min pid <=? out)%float = true /\
    (out <=? B64.output_max pid)%float = true)).
Proof.
  apply (pid_run_output_within_bounds B64.zero_pid 3 0.1 1.5 65
           [B64.PidSetOutputLimits 10 100; B64.PidCompute 80 2;
            B64.PidCompute 90 2] 95 2).
  repeat constructor.
Defined.

(** The request (netfn 0x06, cmd 0x99) of the specification's scenario. *)
Lemma ipmi_invalid_command_witness :
  ipmi_handle_command bmc_state_init (mk_ipmi_request 0x06 0x99 [] 0) 0
  = Some (bmc_state_init,
          {| completion_code := IPMI_CC_INVALID_CMD;
             resp_data := replicate 256 0;
             resp_data_len := 0 |}).
Proof.
  apply ipmi_invalid_command; cbn; intros [H1 H2]; discriminate.
Defined.

(** ** The further statements at concrete inputs *)


(** The log after 300 appends: id 45 is found, id 44 is not. *)
Lemma sel_get_entry_after_appends_witness :
  let a := (0, SEL_SEVERITY_INFO, "Test", "entry")%string in
  let st := sel_append_all (fst (sel_init bmc_state_init)) (replicate 300 a) in
  sel_get_entry st 45 = Some (sel_entry_of 45 a) /\
  sel_get_entry st 44 = None.
Proof.
  intros a st.
  assert (Hn : Z.of_nat (length (replicate 300 a)) < 2 ^ 32 - 1)
    by (rewrite length_replicate; reflexivity).
  split.
  - destruct (proj1 (sel_get_entry_after_appends bmc_state_init (replicate 300 a)
                       45 eq_refl Hn))
      as (a' & Ha & Hget).
    + rewrite length_replicate. cbn. lia.
    + change (Z.to_nat (45 - 1)) with 44%nat in Ha.
      rewrite lookup_replicate_2 in Ha by lia. injection Ha as <-. exact Hget.
  - apply (proj2 (sel_get_entry_after_appends bmc_state_init (replicate 300 a)
                    44 eq_refl Hn)).
    rewrite length_replicate. cbn. lia.
Defined.

(** The CPU temperature after a poll at 20 and at 80 percent duty. *)
Lemma sensor_poll_fan_duty_monotone_witness :
  let state := fst (sensor_init bmc_state_init 0) in
  match array_get (sensors (sensor_poll state 20 1 (fun _ => 0%Q))) 0,
        array_get (sensors (sensor_poll state 80 1 (fun _ => 0%Q))) 0 with
  | Some s1, Some s2 =>
      type s1 = SENSOR_TYPE_TEMPERATURE /\ (value s2 <= value s1)%Q
  | _, _ => False
  end.
Proof.
  intros state.
  assert (Hd : (20 <= 80)%Q) by (unfold Qle; cbn; lia).
  destruct (array_get (sensors (sensor_poll state 20 1 (fun _ => 0%Q))) 0)
    as [s1 |] eqn:Hs1; [| vm_compute in Hs1; discriminate Hs1].
  destruct (array_get (sensors (sensor_poll state 80 1 (fun _ => 0%Q))) 0)
    as [s2 |] eqn:Hs2; [| vm_compute in Hs2; discriminate Hs2].
  pose proof (sensor_poll_fan_duty_monotone state 20 80 1 (fun _ => 0%Q) 0 s1 s2
                Hd Hs1 Hs2) as [_ H].
  assert (Ht : type s1 = SENSOR_TYPE_TEMPERATURE).
  { vm_compute in Hs1. injection Hs1 as <-. reflexivity. }
  rewrite Ht in H. split; [exact Ht | exact H].
Defined.

(** The verification after [secure_boot_init], with the example digest and
    generator. *)
Lemma secure_boot_verify_result_witness :
  let r1 := secure_boot_init example_digest example_rand ∅ bmc_state_init 0 in
  let r := secure_boot_verify example_digest (fst (fst r1)) (snd (fst r1)) 1 in
  0 <= fw_image_count (snd (fst r1))
  <= Z.of_nat (length (fw_images (snd (fst r1)))) /\
  secure_boot_passed (fst r) = snd r /\
  (snd r = true <->
   forall i fw, 0 <= i < fw_image_count (snd (fst r1)) ->
                array_get (fw_images (snd (fst r1))) i = Some fw ->
                image_intact example_digest (fst (fst r1)) fw).
Proof.
  intros r1 r.
  destruct (secure_boot_init_images example_digest example_rand ∅ bmc_state_init 0
              eq_refl) as (Hcount & Hlen & _).
  fold r1 in Hcount, Hlen.
  assert (Hrange : 0 <= fw_image_count (snd (fst r1))
                   <= Z.of_nat (length (fw_images (snd (fst r1)))))
    by (rewrite Hcount, Hlen; lia).
  split; [exact Hrange |].
  destruct (secure_boot_verify_result example_digest (fst (fst r1)) (snd (fst r1)) 1
              Hrange) as (Hflag & Hiff & _).
  split; [exact Hflag | exact Hiff].
Defined.

(** Image 1 restored after its file has been removed. *)
Lemma secure_boot_restore_repairs_witness :
  let r1 := secure_boot_init example_digest example_rand ∅ bmc_state_init 0 in
  let fs' := delete (fw_path "bmc_firmware") (fst (fst r1)) in
  let r2 := secure_boot_restore example_rand fs' (snd (fst r1)) 1 1 in
  snd r2 = 0 /\
  fst (fst r2) = fst (fst r1) /\
  snd (secure_boot_verify example_digest (fst (fst r2)) (snd (fst r2)) 2) = true.
Proof.
  intros r1 fs' r2.
  destruct (secure_boot_init_result example_digest example_rand ∅ bmc_state_init 0
              zero_fw_image zero_fw_image zero_fw_image zero_fw_image eq_refl)
    as (_ & Himgs & _).
  fold r1 in Himgs.
  destruct (secure_boot_restore_repairs example_digest example_rand ∅ bmc_state_init
              0 1 2 1
              (init_image example_digest example_rand "bmc_firmware" 43 zero_fw_image)
              fs' eq_refl)
    as (Hrc & Hfs & _ & Hok).
  - fold r1. rewrite Himgs. reflexivity.
  - intros p Hp. unfold fs'. apply lookup_delete_ne. exact (not_eq_sym Hp).
  - split; [exact Hrc | split; [exact Hfs | exact Hok]].
Defined.

(** Image 1 tampered with, under the example digest and generator: the
    verification fails. *)
Lemma secure_boot_tamper_detection_witness :
  let r1 := secure_boot_init example_digest example_rand ∅ bmc_state_init 0 in
  let r2 := secure_boot_inject_tamper (fst (fst r1)) (snd (fst r1)) 1 1 in
  let r3 := secure_boot_verify example_digest (fst (fst r2)) (snd (fst r2)) 2 in
  snd r2 = 0 /\ snd r3 = false.
Proof.
  intros r1 r2 r3.
  destruct (secure_boot_tamper_detection example_digest example_rand ∅
              bmc_state_init 0 1 2 1 eq_refl)
    as (Hrc & Hiff & _); [lia |].
  split; [exact Hrc |].
  apply Hiff. vm_compute. discriminate.
Defined.

(** The digest 0, 1, ..., 31. *)
Lemma hex_digest_injective_witness :
  hex_digest (seqZ 0 32)
  = "000102030405060708090a0b0c0d0e0f101112131415161718191a1b1c1d1e1f"%string /\
  seqZ 0 32 = seqZ 0 32.
Proof.
  assert (Hbytes : Forall (fun b => 0 <= b < 256) (seqZ 0 32)).
  { apply Forall_forall. intros b Hb. apply elem_of_seqZ in Hb. lia. }
  split; [reflexivity |].
  exact (hex_digest_injective (seqZ 0 32) (seqZ 0 32) eq_refl eq_refl
           Hbytes Hbytes eq_refl).
Defined.

(** Get SEL Entry for id 1 of a log with one Warning entry. *)
Lemma ipmi_get_sel_entry_response_witness :
  let state :=
    fst (sel_add_entry (fst (sel_init bmc_state_init)) 7 SEL_SEVERITY_WARNING
           "Sensor" "hot") in
  let req :=
    mk_ipmi_request IPMI_NETFN_STORAGE IPMI_CMD_GET_SEL_ENTRY [0; 1] 2 in
  ipmi_handle_command state req 0
  = Some (state,
          {| completion_code := IPMI_CC_OK;
             resp_data := [0; 1; 1; 104; 111; 116] ++ replicate 250 0;
             resp_data_len := 6 |}).
Proof.
  intros state req.
  pose proof (ipmi_get_sel_entry_response state req 0 eq_refl eq_refl) as H.
  cbv zeta in H.
  assert (Hlen : 2 <= data_len req) by (cbn; lia).
  assert (Hb0 : 0 <= req_byte req 0 < 256) by (cbn; lia).
  assert (Hb1 : 0 <= req_byte req 1 < 256) by (cbn; lia).
  specialize (H Hlen Hb0 Hb1).
  assert (Hget : sel_get_entry state (req_byte req 0 * 256 + req_byte req 1)
                 = Some {| id := 1; timestamp := 7;
                           severity := SEL_SEVERITY_WARNING;
                           source := "Sensor"; message := "hot" |})
    by reflexivity.
  rewrite Hget in H. destruct H as [_ H]. exact H.
Defined.

(** Set Fan Duty to 50 percent, and to 101. *)
Lemma ipmi_set_fan_duty_witness :
  let req50 := mk_ipmi_request IPMI_NETFN_SENSOR IPMI_CMD_SET_FAN_DUTY [50] 1 in
  let req101 := mk_ipmi_request IPMI_NETFN_SENSOR IPMI_CMD_SET_FAN_DUTY [101] 1 in
  ipmi_handle_command bmc_state_init req50 0
  = Some (sel_append (set_fan_duty_percent bmc_state_init (inject_Z 50))
                     (0, SEL_SEVERITY_INFO, "IPMI",
                      "Fan duty manually set to 50%")%string,
          zero_response) /\
  ipmi_handle_command bmc_state_init req101 0
  = Some (bmc_state_init, set_cc zero_response IPMI_CC_INVALID_PARAM).
Proof.
  intros req50 req101. split.
  - apply (proj1 (ipmi_set_fan_duty bmc_state_init req50 0 eq_refl eq_refl
                    ltac:(cbn; lia) ltac:(cbn; lia))).
    cbn. lia.
  - apply (proj2 (ipmi_set_fan_duty bmc_state_init req101 0 eq_refl eq_refl
                    ltac:(cbn; lia) ltac:(cbn; lia))).
    cbn. lia.
Defined.

(** The second of three entries, read back. *)
Lemma ipmi_get_sel_entry_round_trip_witness :
  let args :=
    [(1, SEL_SEVERITY_INFO, "System", "up");
     (2, SEL_SEVERITY_CRITICAL, "Sensor", "hot");
     (3, SEL_SEVERITY_INFO, "System", "down")]%string in
  let st := sel_append_all (fst (sel_init bmc_state_init)) args in
  ipmi_handle_command st
    (mk_ipmi_request IPMI_NETFN_STORAGE IPMI_CMD_GET_SEL_ENTRY [0; 2] 2) 9
  = Some (st,
          {| completion_code := IPMI_CC_OK;
             resp_data := [0; 2; 2; 104; 111; 116] ++ replicate 250 0;
             resp_data_len := 6 |}).
Proof.
  intros args st.
  exact (ipmi_get_sel_entry_round_trip bmc_state_init args 2 9 2
           SEL_SEVERITY_CRITICAL "Sensor" "hot" eq_refl
           ltac:(cbn; lia) ltac:(cbn; lia) ltac:(lia) eq_refl).
Defined.

(** The sensors after [sensor_init]: the CPU temperature is sensor 0. *)
Lemma find_cpu_temp_sensor_first_witness :
  let state := fst (sensor_init bmc_state_init 0) in
  find_cpu_temp_sensor state = Some 0 /\
  option_map name (array_get (sensors state) 0) = Some "CPU_Temp"%string.
Proof.
  intros state.
  assert (Hcount : 0 <= sensor_count state <= Z.of_nat (length (sensors state)))
    by (vm_compute; split; discriminate).
  destruct (find_cpu_temp_sensor_first state Hcount)
    as [(i & s & Hfind & _) | [Hfind _]].
  - split; [| reflexivity].
    rewrite Hfind. assert (E : find_cpu_temp_sensor state = Some 0) by reflexivity.
    congruence.
  - split; [exact Hfind | reflexivity].
Defined.

(** Set Fan Duty to 50 percent on the initial state. *)
Lemma ipmi_commands_frame_witness :
  let req := mk_ipmi_request IPMI_NETFN_SENSOR IPMI_CMD_SET_FAN_DUTY [50] 1 in
  exists state' resp,
    ipmi_handle_command bmc_state_init req 0 = Some (state', resp) /\
    sensors state' = sensors bmc_state_init /\
    pid state' = pid bmc_state_init /\
    fw_images state' = fw_images bmc_state_init.
Proof.
  intros req.
  destruct (ipmi_commands_frame bmc_state_init req 0 eq_refl)
    as (state' & resp & H & _ & Hs & _ & Hp & Hf & _).
  exists state', resp.
  split; [exact H | split; [exact Hs | split; [exact Hp | exact Hf]]].
Defined.

(** The response to Get Device ID. *)
Lemma ipmi_response_well_formed_witness :
  let req := mk_ipmi_request IPMI_NETFN_APP IPMI_CMD_GET_DEVICE_ID [] 0 in
  exists state' resp,
    ipmi_handle_command bmc_state_init req 0 = Some (state', resp) /\
    response_well_formed resp.
Proof.
  intros req.
  exact (ipmi_response_well_formed bmc_state_init req 0 eq_refl).
Defined.

(** The daemon after its start and one turn of the control loop, with the
    example digest and generator. *)
Lemma daemon_fan_duty_bounds_witness :
  let boot := main_startup example_digest example_rand ∅ (fun k => Z.of_nat k) in
  snd boot = Some 0 /\
  exists state,
    daemon_run 0 (snd (fst boot)) [ControlCycle 10 (fun _ => 0%Q)] = Some state /\
    daemon_up state /\
    secure_boot_passed state = true.
Proof.
  intros boot.
  destruct (main_startup_state example_digest example_rand ∅ (fun k => Z.of_nat k))
    as (Hidx & _ & Hup & _).
  fold boot in Hidx, Hup.
  split; [exact Hidx |].
  destruct (main_loop_body_up (snd (fst boot)) 10 (fun _ => 0%Q) Hup)
    as (state & Hbody & _).
  assert (Hrun : daemon_run 0 (snd (fst boot)) [ControlCycle 10 (fun _ => 0%Q)]
                 = Some state).
  { cbn [daemon_run daemon_step]. rewrite Hbody. reflexivity. }
  exists state. split; [exact Hrun |].
  pose proof (daemon_fan_duty_bounds example_digest example_rand ∅
                (fun k => Z.of_nat k) 0 [ControlCycle 10 (fun _ => 0%Q)] Hidx)
    as H.
  cbv zeta in H. fold boot in H. rewrite Hrun in H.
  destruct H as (Hup' & Hsb & _).
  split; [exact Hup' | exact Hsb].
Defined.

(** The reading of VCore after [sensor_init], 1.05 volts: the bytes are
    1 and 12, and 1 + 12/256 is within 1/256 below 1.05. *)
Lemma get_sensor_reading_precision_witness :
  let state := fst (sensor_init bmc_state_init 0) in
  let req := mk_ipmi_request IPMI_NETFN_SENSOR IPMI_CMD_GET_SENSOR_READING [3] 1 in
  exists resp b0 b1,
    ipmi_handle_command state req 1 = Some (state, resp) /\
    completion_code resp = IPMI_CC_OK /\
    take 2 (resp_data resp) = [b0; b1] /\
    0 <= b0 < 128 /\ 0 <= b1 < 256 /\
    (inject_Z b0 + inject_Z b1 / 256 <= 1.05)%Q /\
    (1.05 < inject_Z b0 + inject_Z b1 / 256 + 1 / 256)%Q.
Proof.
  intros state req.
  apply (get_sensor_reading_precision state req 1
           (init_reading 0 (mk_sensor_config "VCore" SENSOR_TYPE_VOLTAGE
                              1.05 0.02 0.90 1.15 1.25))).
  - reflexivity.
  - reflexivity.
  - vm_compute. discriminate.
  - reflexivity.
  - reflexivity.
  - vm_compute. discriminate.
  - reflexivity.
Defined.
